(** * SSSD NSS client, GROUP database interface (src/nss_client/group.c)

    A shallow embedding of the reply decoder [sss_nss_getgr_readrep], of the
    membership expansion [_nss_sss_initgroups_dyn], of the two keyed lookups
    and of the enumeration cursor, followed by the properties of the
    specification that concern them.

    Platform: LP64, little-endian (x86-64 Linux).  [size_t] and pointers are
    64 bits wide, [uint32_t] and [gid_t] 32 bits, [long] 64 bits signed.
    Unsigned arithmetic wraps and the wrap is written out ([wrap32],
    [wrap64]).  A byte is an integer in [0, 256).  Memory objects (the source
    slice, the caller's arena, the reply buffer, the gid array) are lists of
    cells; an access outside the object is undefined behaviour in C and is
    modelled by the outcome [Crash], which records the offending access. *)

From Stdlib Require Import ZArith Lia List Bool.
From stdpp Require Import base tactics option list list_numbers gmap.

Local Open Scope Z_scope.

(** ** Machine model *)

Module Machine.

Definition wrap32 (x : Z) : Z := x mod 2 ^ 32.
Definition wrap64 (x : Z) : Z := x mod 2 ^ 64.

(** sizeof(char * ) and sizeof(gid_t) *)
Definition ptr_size : Z := 8.
Definition gid_size : Z := 4.

(** range of [long] *)
Definition long_min : Z := - 2 ^ 63.
Definition long_max : Z := 2 ^ 63 - 1.

(** Little-endian integers. *)
Fixpoint le_decode (bs : list Z) : Z :=
  match bs with
  | [] => 0
  | b :: bs' => b + 256 * le_decode bs'
  end.

Fixpoint le_encode (n : nat) (v : Z) : list Z :=
  match n with
  | O => []
  | S n' => v mod 256 :: le_encode n' (v / 256)
  end.

(** errno values (Linux) *)
Definition ENOMEM : Z := 12.
Definition EBADMSG : Z := 74.

(** Undefined behaviour the model can detect. *)
Inductive fault : Type :=
| OobSource (off : Z)       (* read of the source slice at [off], outside it *)
| OobArenaRead (off : Z)    (* read of pr->buffer[off], outside the arena *)
| OobArenaWrite (off : Z)   (* write of pr->buffer[off], outside the arena *)
| OobReply (off : Z)        (* read of the reply buffer outside its bytes *)
| OobGroups (idx : Z)       (* write of ( *groups)[idx] outside the array *)
| LongOverflow (v : Z)      (* signed overflow of a long *)
| Dangling (blk : nat).     (* access to or free of a block that is not live *)

Inductive outcome (A : Type) : Type :=
| Done (a : A)
| Crash (f : fault)
| OutOfFuel.
Arguments Done {A} a.
Arguments Crash {A} f.
Arguments OutOfFuel {A}.

Definition bind {A B} (m : outcome A) (k : A -> outcome B) : outcome B :=
  match m with
  | Done a => k a
  | Crash f => Crash f
  | OutOfFuel => OutOfFuel
  end.

(** Objects in memory: a list of cells and accesses checked against it. *)
Definition in_bounds {A} (obj : list A) (off n : Z) : bool :=
  (0 <=? off) && (off + n <=? Z.of_nat (length obj)).

Definition load {A} (obj : list A) (off : Z) : option A :=
  if in_bounds obj off 1 then obj !! Z.to_nat off else None.

Definition loads {A} (obj : list A) (off n : Z) : option (list A) :=
  if in_bounds obj off n
  then Some (take (Z.to_nat n) (drop (Z.to_nat off) obj))
  else None.

Definition store {A} (obj : list A) (off : Z) (v : A) : option (list A) :=
  if in_bounds obj off 1 then Some (<[Z.to_nat off := v]> obj) else None.

Definition stores {A} (obj : list A) (off : Z) (vs : list A) : option (list A) :=
  if in_bounds obj off (Z.of_nat (length vs))
  then Some (list_inserts (Z.to_nat off) vs obj)
  else None.

(** [seg obj off bs]: the cells of [obj] from offset [off] on are [bs]. *)
Definition seg {A} (obj : list A) (off : Z) (bs : list A) : Prop :=
  forall (k : nat) c, bs !! k = Some c -> load obj (off + Z.of_nat k) = Some c.

Definition or_crash {A} (o : option A) (f : fault) : outcome A :=
  match o with
  | Some a => Done a
  | None => Crash f
  end.

End Machine.

Export Machine.

#[export] Instance outcome_bind : MBind outcome := fun A B k m => bind m k.
#[export] Instance outcome_ret : MRet outcome := fun A a => Done a.

(** ** The reply decoder *)

Module Readrep.

(** [struct group].  The three pointer fields hold addresses. *)
Record group : Type := Group {
  gr_name : Z;
  gr_passwd : Z;
  gr_gid : Z;
  gr_mem : Z
}.

(** [struct sss_nss_gr_rep]: [buffer] is the address of the caller's arena,
    [arena] the bytes found there; the declared capacity [buflen] is their
    number. *)
Record sss_nss_gr_rep : Type := Rep {
  result : group;
  buffer : Z;
  arena : list Z
}.

Definition buflen (pr : sss_nss_gr_rep) : Z := Z.of_nat (length (arena pr)).

Definition set_gr_gid (v : Z) (g : group) : group :=
  Group (gr_name g) (gr_passwd g) v (gr_mem g).
Definition set_gr_name (v : Z) (g : group) : group :=
  Group v (gr_passwd g) (gr_gid g) (gr_mem g).
Definition set_gr_passwd (v : Z) (g : group) : group :=
  Group (gr_name g) v (gr_gid g) (gr_mem g).
Definition set_gr_mem (v : Z) (g : group) : group :=
  Group (gr_name g) (gr_passwd g) (gr_gid g) v.

(** Accesses of the decoder. [sbuf] is [&buf[12]]. *)
Definition src_read (buf : list Z) (off : Z) : outcome Z :=
  or_crash (load buf off) (OobSource off).

Definition src_read_int (buf : list Z) (off n : Z) : outcome Z :=
  or_crash (le_decode <$> loads buf off n) (OobSource off).

Definition sbuf_read (buf : list Z) (i : Z) : outcome Z :=
  src_read buf (12 + i).

Definition arena_read (a : list Z) (off : Z) : outcome Z :=
  or_crash (load a off) (OobArenaRead off).

Definition arena_write (a : list Z) (off : Z) (c : Z) : outcome (list Z) :=
  or_crash (store a off c) (OobArenaWrite off).

(** A pointer is stored as its eight bytes. *)
Definition arena_write_ptr (a : list Z) (off : Z) (p : Z) : outcome (list Z) :=
  or_crash (stores a off (le_encode 8 p)) (OobArenaWrite off).

(** The loop of lines 97-102, and again 113-118:
<<
    while (i < slen && 0 < dlen) {
        pr->buffer[i] = sbuf[i];
        if (pr->buffer[i] == '\0') break;
        i++;
        dlen--;
    }
>>
    Returns the arena, [i] and [dlen]. *)
Fixpoint copy_field (fuel : nat) (buf : list Z) (slen : Z)
    (a : list Z) (i dlen : Z) : outcome (list Z * Z * Z) :=
  match fuel with
  | O => OutOfFuel
  | S fuel' =>
    if (i <? slen) && (0 <? dlen) then
      c ← sbuf_read buf i;
      a' ← arena_write a i c;
      c' ← arena_read a' i;
      if c' =? 0 then Done (a', i, dlen)
      else copy_field fuel' buf slen a' (wrap64 (i + 1)) (wrap64 (dlen - 1))
    else Done (a, i, dlen)
  end.

(** The inner loop of lines 140-146:
<<
        while ((i < slen) && (0 < dlen)) {
            pr->buffer[ptmem] = sbuf[i];
            i++;
            dlen --;
            if (pr->buffer[ptmem] == '\0') break;
            ptmem++;
        }
>>
    Returns the arena, [i], [dlen] and [ptmem]. *)
Fixpoint copy_member (fuel : nat) (buf : list Z) (slen : Z)
    (a : list Z) (i dlen ptmem : Z) : outcome (list Z * Z * Z * Z) :=
  match fuel with
  | O => OutOfFuel
  | S fuel' =>
    if (i <? slen) && (0 <? dlen) then
      c ← sbuf_read buf i;
      a' ← arena_write a ptmem c;
      let i' := wrap64 (i + 1) in
      let dlen' := wrap64 (dlen - 1) in
      c' ← arena_read a' ptmem;
      if c' =? 0 then Done (a', i', dlen', ptmem)
      else copy_member fuel' buf slen a' i' dlen' (wrap64 (ptmem + 1))
    else Done (a, i, dlen, ptmem)
  end.

(** The loop over the members, lines 138-156.  [gr_mem_off] is the offset of
    the member table in the arena ([pr->result->gr_mem] is
    [buffer + gr_mem_off]).  Returns the value returned from inside the loop
    ([Some errno]) or [None] when the loop ran to its end, with the arena
    and [i]. *)
Fixpoint read_members (fuel : nat) (wfuel : nat) (buf : list Z) (slen : Z)
    (buffer_addr gr_mem_off mem_num : Z)
    (l : Z) (a : list Z) (i dlen ptmem : Z)
    : outcome (option Z * list Z * Z) :=
  match fuel with
  | O => OutOfFuel
  | S fuel' =>
    if l <? mem_num then
      a1 ← arena_write_ptr a (gr_mem_off + ptr_size * l) (buffer_addr + ptmem);
      '(a2, i2, dlen2, ptmem2) ← copy_member wfuel buf slen a1 i dlen ptmem;
      c ← arena_read a2 ptmem2;
      if negb (c =? 0) && (i2 >? slen) then Done (Some EBADMSG, a2, i2)
      else if negb (c =? 0) && (0 >? dlen2) then Done (Some ENOMEM, a2, i2)
      else read_members fuel' wfuel buf slen buffer_addr gr_mem_off mem_num
             (l + 1) a2 i2 dlen2 (wrap64 (ptmem2 + 1))
    else Done (None, a, i)
  end.

Definition with_arena (pr : sss_nss_gr_rep) (g : group) (a : list Z)
    : sss_nss_gr_rep :=
  Rep g (buffer pr) a.

(** [sss_nss_getgr_readrep pr buf len]: [buf] is the source slice and [len]
    the value of [*len] on entry.  The result is the value returned, the
    value of [*len] on return and the state of [*pr] (with the result
    structure and the arena it points to). *)
Definition sss_nss_getgr_readrep (pr : sss_nss_gr_rep) (buf : list Z) (len : Z)
    : outcome (Z * Z * sss_nss_gr_rep) :=
  let wfuel := S (length buf) in
  if len <? 21 then Done (EBADMSG, len, pr) else
  gid ← src_read_int buf 0 8;
  let g := set_gr_gid (wrap32 gid) (result pr) in
  mem_num ← src_read_int buf 8 4;
  let slen := wrap64 (len - 12) in
  let dlen := buflen pr in
  let g := set_gr_name (buffer pr + 0) g in
  '(a, i, dlen) ← copy_field wfuel buf slen (arena pr) 0 dlen;
  if i >=? slen then Done (EBADMSG, len, with_arena pr g a) else
  if 0 >=? dlen then Done (ENOMEM, len, with_arena pr g a) else
  let i := wrap64 (i + 1) in
  let dlen := wrap64 (dlen - 1) in
  let g := set_gr_passwd (buffer pr + i) g in
  '(a, i, dlen) ← copy_field wfuel buf slen a i dlen;
  if i >=? slen then Done (EBADMSG, len, with_arena pr g a) else
  if 0 >=? dlen then Done (ENOMEM, len, with_arena pr g a) else
  let i := wrap64 (i + 1) in
  let dlen := wrap64 (dlen - 1) in
  let g := set_gr_mem (buffer pr + i) g in
  let ptmem := wrap64 (ptr_size * wrap32 (mem_num + 1)) in
  let dlen := wrap64 (dlen - ptmem) in
  if 0 >? dlen then Done (ENOMEM, len, with_arena pr g a) else
  let gr_mem_off := i in
  let ptmem := wrap64 (ptmem + i) in
  a ← arena_write_ptr a (gr_mem_off + ptr_size * mem_num) 0;
  '(ret, a, i) ← read_members (S (Z.to_nat mem_num)) wfuel buf slen
                   (buffer pr) gr_mem_off mem_num 0 a i dlen ptmem;
  match ret with
  | Some e => Done (e, len, with_arena pr g a)
  | None => Done (0, wrap64 (slen - i), with_arena pr g a)
  end.

(** *** Reading a decoded record back, as a caller of the NSS interface does *)

(** The NUL-terminated string at offset [off] of the arena. *)
Fixpoint cstr_at (fuel : nat) (a : list Z) (off : Z) : option (list Z) :=
  match fuel with
  | O => None
  | S fuel' =>
    c ← load a off;
    if c =? 0 then Some [] else (c ::.) <$> cstr_at fuel' a (off + 1)
  end.

Definition cstr (pr : sss_nss_gr_rep) (p : Z) : option (list Z) :=
  cstr_at (length (arena pr)) (arena pr) (p - buffer pr).

Definition ptr_at (pr : sss_nss_gr_rep) (p : Z) : option Z :=
  le_decode <$> loads (arena pr) (p - buffer pr) ptr_size.

(** The strings of the NULL-terminated pointer array at address [p]. *)
Fixpoint cstr_array (fuel : nat) (pr : sss_nss_gr_rep) (p : Z)
    : option (list (list Z)) :=
  match fuel with
  | O => None
  | S fuel' =>
    q ← ptr_at pr p;
    if q =? 0 then Some []
    else s ← cstr pr q; (s ::.) <$> cstr_array fuel' pr (p + ptr_size)
  end.

(** A record as the wire format carries it. *)
Record wire_group : Type := Wire {
  w_gid : Z;
  w_name : list Z;
  w_passwd : list Z;
  w_members : list (list Z)
}.

Definition read_group (pr : sss_nss_gr_rep) : option wire_group :=
  name ← cstr pr (gr_name (result pr));
  passwd ← cstr pr (gr_passwd (result pr));
  mem ← cstr_array (length (arena pr)) pr (gr_mem (result pr));
  Some (Wire (gr_gid (result pr)) name passwd mem).

(** The wire format of the header comment (lines 61-69): 64-bit gid, 32-bit
    number of members, then the NUL-terminated strings. *)
Definition strings_of (name passwd : list Z) (members : list (list Z)) : list Z :=
  (name ++ [0]) ++ (passwd ++ [0]) ++ concat ((.++ [0]) <$> members).

Definition encode (w : wire_group) : list Z :=
  le_encode 8 (w_gid w) ++ le_encode 4 (Z.of_nat (length (w_members w)))
  ++ strings_of (w_name w) (w_passwd w) (w_members w).

(** Well-formed records: the strings hold no NUL, the gid fits 64 bits and
    the number of members 32 bits. *)
Definition nul_free (s : list Z) : Prop := Forall (fun c => c <> 0) s.

Definition well_formed (w : wire_group) : Prop :=
  0 <= w_gid w < 2 ^ 64 /\
  nul_free (w_name w) /\ nul_free (w_passwd w) /\
  Forall nul_free (w_members w) /\
  Z.of_nat (length (w_members w)) < 2 ^ 32.

#[export] Instance well_formed_dec w : Decision (well_formed w).
Proof. unfold well_formed, nul_free. apply _. Defined.

(** The bytes the strings of a member list take on the wire and in the
    arena, terminators included. *)
Definition members_len (ms : list (list Z)) : Z :=
  Z.of_nat (length (concat ((.++ [0]) <$> ms))).

(** The arena a record needs: its strings and the member table with its
    NULL sentinel. *)
Definition arena_need (w : wire_group) : Z :=
  Z.of_nat (length (strings_of (w_name w) (w_passwd w) (w_members w)))
  + ptr_size * (Z.of_nat (length (w_members w)) + 1).

(** The table's place in the arena, after the name and the password. *)
Definition table_off (w : wire_group) : Z :=
  Z.of_nat (length (w_name w)) + 1 + Z.of_nat (length (w_passwd w)) + 1.

(** [table_ok a base tbl l ptmem ms]: in the arena [a] at address [base],
    the slots of the table at offset [tbl], from slot [l] on, point to the
    strings [ms], which lie one after the other from offset [ptmem] on. *)
Fixpoint table_ok (a : list Z) (base tbl l ptmem : Z) (ms : list (list Z))
    : Prop :=
  match ms with
  | [] => True
  | m :: ms' =>
    seg a (tbl + ptr_size * l) (le_encode 8 (base + ptmem)) /\
    seg a ptmem (m ++ [0]) /\
    table_ok a base tbl (l + 1) (ptmem + Z.of_nat (length m) + 1) ms'
  end.

End Readrep.

(** ** The operations of the NSS interface *)

Module Nss.

Import Readrep.

(** [enum nss_status] of <nss.h> *)
Inductive nss_status : Type :=
| NSS_STATUS_TRYAGAIN
| NSS_STATUS_UNAVAIL
| NSS_STATUS_NOTFOUND
| NSS_STATUS_SUCCESS
| NSS_STATUS_RETURN.

Definition is_success (s : nss_status) : bool :=
  match s with
  | NSS_STATUS_SUCCESS => true
  | _ => false
  end.

(** The heap: the live blocks obtained from malloc, by block number. *)
Definition free (h : gmap nat (list Z)) (blk : nat) : outcome (gmap nat (list Z)) :=
  match h !! blk with
  | Some _ => Done (delete blk h)
  | None => Crash (Dangling blk)
  end.

Definition block (h : gmap nat (list Z)) (blk : nat) : outcome (list Z) :=
  or_crash (h !! blk) (Dangling blk).

(** [((uintN_t * )(repbuf + off))[0]] *)
Definition reply_read_int (h : gmap nat (list Z)) (blk : nat) (off n : Z)
    : outcome Z :=
  b ← block h blk;
  or_crash (le_decode <$> loads b off n) (OobReply off).

(** What the daemon answers to one request: the status of the exchange, the
    error number that goes with it and the bytes of the reply. *)
Record reply : Type := Reply {
  rp_status : nss_status;
  rp_errno : Z;
  rp_bytes : list Z
}.

(** Modelled from the spec: [sss_nss_make_request] is declared in sss_nss.h
    and defined outside this file.  It is the synchronous request channel:
    it sends a request and returns a status and error code and, on success,
    a raw reply buffer with its length.  The buffer is a fresh block of the
    heap that the caller owns from now on; its length is the number of
    bytes of the reply.  Without success no block is handed over.  Returns
    the status, [repbuf], [replen], [*errnop] and the heap. *)
Definition sss_nss_make_request (r : reply) (h : gmap nat (list Z))
    : nss_status * nat * Z * Z * gmap nat (list Z) :=
  let blk := fresh (dom h) in
  if is_success (rp_status r)
  then (rp_status r, blk, Z.of_nat (length (rp_bytes r)), rp_errno r,
        <[blk := rp_bytes r]> h)
  else (rp_status r, blk, 0, rp_errno r, h).

(** Modelled from the spec: the same call with NULL for [repbuf] and
    [replen] (the begin and end notifications of the enumeration): no buffer
    reaches the caller. *)
Definition sss_nss_make_request_nobuf (r : reply) : nss_status * Z :=
  (rp_status r, rp_errno r).

(** The process-wide cursor of the enumeration, lines 32-36. *)
Record sss_nss_getgrent_data_t : Type := Cursor {
  len : Z;
  ptr : Z;
  data : option nat
}.

(** The state of the process: heap, cursor and [errno]. *)
Record world : Type := World {
  heap : gmap nat (list Z);
  sss_nss_getgrent_data : sss_nss_getgrent_data_t;
  errno : Z
}.

Definition set_heap (h : gmap nat (list Z)) (w : world) : world :=
  World h (sss_nss_getgrent_data w) (errno w).
Definition set_cursor (c : sss_nss_getgrent_data_t) (w : world) : world :=
  World (heap w) c (errno w).
Definition set_errno (e : Z) (w : world) : world :=
  World (heap w) (sss_nss_getgrent_data w) e.

(** lines 38-46 *)
Definition sss_nss_getgrent_data_clean (w : world) : outcome world :=
  let d := sss_nss_getgrent_data w in
  h ← match data d with
      | Some blk => free (heap w) blk
      | None => Done (heap w)
      end;
  Done (set_cursor (Cursor 0 0 None) (set_heap h w)).

(** *** Lookups by name and by id, lines 232-324 *)

(** The two functions differ in the request only; [lookup_reply] is their
    common body from the reply on.  Returns the status, [*errnop], the
    caller's result and arena, and the state. *)
Definition lookup_reply (r : reply) (w : world) (pr : sss_nss_gr_rep)
    (errnop : Z) : outcome (nss_status * Z * sss_nss_gr_rep * world) :=
  let '(nret, repbuf, replen, errnop, h) := sss_nss_make_request r (heap w) in
  if negb (is_success nret) then Done (nret, errnop, pr, w) else
  let w := set_heap h w in
  n ← reply_read_int h repbuf 0 4;
  if n =? 0 then
    h ← free h repbuf;
    Done (NSS_STATUS_NOTFOUND, errnop, pr, set_heap h w)
  else if negb (n =? 1) then
    Done (NSS_STATUS_TRYAGAIN, EBADMSG, pr, w)
  else
    let len := wrap64 (replen - 8) in
    b ← block h repbuf;
    '(ret, _, pr) ← sss_nss_getgr_readrep pr (drop 8 b) len;
    h ← free h repbuf;
    let w := set_heap h w in
    if negb (ret =? 0) then Done (NSS_STATUS_TRYAGAIN, ret, pr, w)
    else Done (NSS_STATUS_SUCCESS, errnop, pr, w).

Definition _nss_sss_getgrnam_r (name : list Z) := lookup_reply.
Definition _nss_sss_getgrgid_r (gid : Z) := lookup_reply.

(** *** The enumeration, lines 326-424 *)

Definition _nss_sss_setgrent (r : reply) (w : world) : outcome (nss_status * world) :=
  w ← sss_nss_getgrent_data_clean w;
  let '(nret, errnop) := sss_nss_make_request_nobuf r in
  if negb (is_success nret) then Done (nret, set_errno errnop w)
  else Done (NSS_STATUS_SUCCESS, w).

Definition _nss_sss_endgrent (r : reply) (w : world) : outcome (nss_status * world) :=
  w ← sss_nss_getgrent_data_clean w;
  let '(nret, errnop) := sss_nss_make_request_nobuf r in
  if negb (is_success nret) then Done (nret, set_errno errnop w)
  else Done (NSS_STATUS_SUCCESS, w).

(** lines 400-402: the fresh batch becomes the cursor's. *)
Definition store_batch (repbuf : nat) (replen : Z) (w : world) : world :=
  set_cursor (Cursor replen 8 (Some repbuf)) w.

(** lines 356-378: there are leftovers, return the next one. *)
Definition getgrent_leftover (blk : nat) (w : world) (pr : sss_nss_gr_rep)
    (errnop : Z) : outcome (nss_status * Z * sss_nss_gr_rep * world) :=
  let d := sss_nss_getgrent_data w in
  b ← block (heap w) blk;
  let repbuf := drop (Z.to_nat (ptr d)) b in
  let replen := wrap64 (len d - ptr d) in
  '(ret, replen, pr) ← sss_nss_getgr_readrep pr repbuf replen;
  if negb (ret =? 0) then Done (NSS_STATUS_TRYAGAIN, ret, pr, w)
  else
    Done (NSS_STATUS_SUCCESS, errnop, pr,
          set_cursor (Cursor (len d) (wrap64 (len d - replen)) (data d)) w).

Definition has_leftovers (d : sss_nss_getgrent_data_t) : option nat :=
  match data d with
  | Some blk => if ptr d <? len d then Some blk else None
  | None => None
  end.

(** [chan] is what the daemon will answer to the successive batch requests;
    the function calls itself once per batch it fetches, [OutOfFuel] says
    that the answers given did not suffice. *)
Fixpoint _nss_sss_getgrent_r (chan : list reply) (w : world)
    (pr : sss_nss_gr_rep) (errnop : Z)
    : outcome (nss_status * Z * sss_nss_gr_rep * world) :=
  match has_leftovers (sss_nss_getgrent_data w) with
  | Some blk => getgrent_leftover blk w pr errnop
  | None =>
    w ← sss_nss_getgrent_data_clean w;
    match chan with
    | [] => OutOfFuel
    | r :: chan' =>
      let '(nret, repbuf, replen, errnop, h) := sss_nss_make_request r (heap w) in
      if negb (is_success nret) then Done (nret, errnop, pr, w) else
      let w := set_heap h w in
      n ← reply_read_int h repbuf 0 4;
      if (n =? 0) || (wrap64 (replen - 8) =? 0) then
        h ← free h repbuf;
        Done (NSS_STATUS_NOTFOUND, errnop, pr, set_heap h w)
      else
        _nss_sss_getgrent_r chan' (store_batch repbuf replen w) pr errnop
    end
  end.

(** *** Membership expansion, lines 171-229 *)

(** The caller's [*groups] (the cells of the array), [*size] and [*start]. *)
Record gid_list : Type := GidList {
  groups : list Z;
  size : Z;
  start : Z
}.

(** What realloc does is the allocator's choice: it fails, or it returns an
    array of the requested size whose new cells hold [fill]. *)
Inductive realloc_result : Type :=
| ReallocNull
| ReallocOk (fill : Z).

Definition realloc (old : list Z) (bytes : Z) (r : realloc_result)
    : option (list Z) :=
  match r with
  | ReallocNull => None
  | ReallocOk fill =>
    let n := Z.to_nat (bytes / gid_size) in
    Some (take n old ++ replicate (n - length old)%nat fill)
  end.

Definition long (v : Z) : outcome Z :=
  if (long_min <=? v) && (v <=? long_max) then Done v
  else Crash (LongOverflow v).

(** lines 223-226 *)
Fixpoint copy_gids (fuel : nat) (h : gmap nat (list Z)) (repbuf : nat)
    (max_ret l : Z) (gl : gid_list) : outcome gid_list :=
  match fuel with
  | O => OutOfFuel
  | S fuel' =>
    if l <? max_ret then
      v ← reply_read_int h repbuf (8 + 8 * l) 8;
      g ← or_crash (store (groups gl) (start gl) (wrap32 v))
                   (OobGroups (start gl));
      s ← long (start gl + 1);
      copy_gids fuel' h repbuf max_ret (l + 1) (GidList g (size gl) s)
    else Done gl
  end.

Definition _nss_sss_initgroups_dyn (r : reply) (ra : realloc_result)
    (w : world) (gl : gid_list) (limit : Z) (errnop : Z)
    : outcome (nss_status * Z * gid_list * world) :=
  let '(nret, repbuf, replen, errnop, h) := sss_nss_make_request r (heap w) in
  if negb (is_success nret) then Done (nret, errnop, gl, w) else
  let w := set_heap h w in
  num_ret ← reply_read_int h repbuf 0 4;
  if num_ret =? 0 then
    h ← free h repbuf;
    Done (NSS_STATUS_NOTFOUND, errnop, gl, set_heap h w)
  else
  let max_ret := num_ret in
  room ← long (size gl - start gl);
  grown ←
    (if room <? num_ret then
       newsize ← long (size gl + num_ret);
       '(newsize, max_ret) ←
          (if (limit >? 0) && (newsize >? limit) then
             m ← long (limit - start gl); Done (limit, m)
           else Done (newsize, max_ret));
       match realloc (groups gl) (wrap64 (wrap64 newsize * gid_size)) ra with
       | None => Done (inl tt)
       | Some newgroups =>
         Done (inr (GidList newgroups newsize (start gl), max_ret))
       end
     else Done (inr (gl, max_ret)));
  match grown with
  | inl _ =>
    h ← free h repbuf;
    Done (NSS_STATUS_TRYAGAIN, ENOMEM, gl, set_heap h w)
  | inr (gl, max_ret) =>
    gl ← copy_gids (S (Z.to_nat max_ret)) h repbuf max_ret 0 gl;
    Done (NSS_STATUS_SUCCESS, errnop, gl, w)
  end.

(** *** Notions of the specification *)

(** The fields of the cursor are of type [size_t]. *)
Definition cursor_wf (d : sss_nss_getgrent_data_t) : Prop :=
  0 <= len d < 2 ^ 64 /\ 0 <= ptr d < 2 ^ 64.

(** CursorState: Closed when [data] is NULL, else Active with buffer [data],
    length [len] and offset [ptr]; the invariant asks offset <= length in
    the Active state. *)
Definition cursor_inv (d : sss_nss_getgrent_data_t) : Prop :=
  match data d with
  | Some _ => ptr d <= len d
  | None => True
  end.

(** The result count of a reply and the [j]-th 64-bit id of its body. *)
Definition reply_count (b : list Z) : Z := le_decode (take 4 b).

Definition reply_id (b : list Z) (j : Z) : Z :=
  le_decode (take 8 (drop (Z.to_nat (8 + 8 * j)) b)).

Definition long_ok (v : Z) : Prop := long_min <= v <= long_max.

End Nss.

(** ** Sample data: the record of the specification's example *)

Module Samples.

Import Readrep Nss.

(** "wheel", "x", "root", "alice" *)
Definition wheel : list Z := [119; 104; 101; 101; 108].
Definition x_passwd : list Z := [120].
Definition root : list Z := [114; 111; 111; 116].
Definition alice : list Z := [97; 108; 105; 99; 101].

Definition wheel_group : wire_group := Wire 10 wheel x_passwd [root; alice].

(** The 31 bytes of the record on the wire. *)
Definition wheel_bytes : list Z := encode wheel_group.

(** A caller's [struct sss_nss_gr_rep] with a zero-filled arena of [n] bytes
    at address 4096. *)
Definition caller (n : nat) : sss_nss_gr_rep :=
  Rep (Group 0 0 0 0) 4096 (replicate n 0).

(** A process that holds no block and no batch. *)
Definition idle : world := World ∅ (Cursor 0 0 None) 0.

(** A reply of the daemon: result count, padding, body. *)
Definition reply_of (count : Z) (body : list Z) : reply :=
  Reply NSS_STATUS_SUCCESS 0 (le_encode 4 count ++ le_encode 4 0 ++ body).

(** The body of an initgroups reply: the ids 1000, 1001, ... *)
Definition gids (n : nat) : list Z :=
  concat ((fun k => le_encode 8 (1000 + k)) <$> seqZ 0 (Z.of_nat n)).

End Samples.

(** ** Callers of the interface *)

Module Callers.

Import Readrep Nss.

(** The record a caller reads back for the wire record [w]: [gid_t] has 32
    bits. *)
Definition decoded (w : wire_group) : wire_group :=
  Wire (wrap32 (w_gid w)) (w_name w) (w_passwd w) (w_members w).

(** A caller that calls [_nss_sss_getgrent_r] up to [n] times with the same
    result structure and arena, as getgrent(3) does, reads each record back
    and stops at the first status that is not NSS_STATUS_SUCCESS.  The
    daemon is not asked for a further batch ([chan] is empty).  Returns the
    records, the last status and the state. *)
Fixpoint getgrent_n (n : nat) (w : world) (pr : sss_nss_gr_rep) (errnop : Z)
    : outcome (list (option wire_group) * nss_status * world) :=
  match n with
  | O => Done ([], NSS_STATUS_SUCCESS, w)
  | S n' =>
    '(s, e, pr', w') ← _nss_sss_getgrent_r [] w pr errnop;
    if is_success s then
      '(gs, s', w'') ← getgrent_n n' w' pr' e;
      Done (read_group pr' :: gs, s', w'')
    else Done ([], s, w')
  end.

(** [holds_only h0 w]: the heap of [w] is [h0] and, when the cursor is
    Active, the batch it holds. *)
Definition holds_only (h0 : gmap nat (list Z)) (w : world) : Prop :=
  match data (sss_nss_getgrent_data w) with
  | Some blk => h0 !! blk = None /\ exists b, heap w = <[blk := b]> h0
  | None => heap w = h0
  end.

(** The bytes of a batch: result count, padding, records. *)
Definition batch_bytes (count : Z) (ws : list wire_group) : list Z :=
  le_encode 4 count ++ le_encode 4 0 ++ concat (encode <$> ws).

End Callers.

(** ** Facts on the machine model *)

Module MachineFacts.

Lemma wrap64_small x : 0 <= x < 2 ^ 64 -> wrap64 x = x.
Proof. intros. unfold wrap64. by apply Z.mod_small. Qed.

Lemma wrap32_small x : 0 <= x < 2 ^ 32 -> wrap32 x = x.
Proof. intros. unfold wrap32. by apply Z.mod_small. Qed.

Lemma wrap64_range x : 0 <= wrap64 x < 2 ^ 64.
Proof. unfold wrap64. apply Z.mod_pos_bound. lia. Qed.

Lemma length_le_encode n v : length (le_encode n v) = n.
Proof. revert v. induction n as [|n IH]; intros v; simpl; [done|]. by rewrite IH. Qed.

Lemma le_decode_encode n v :
  le_decode (le_encode n v) = v mod 256 ^ Z.of_nat n.
Proof.
  revert v. induction n as [|n IH]; intros v.
  - simpl. by rewrite Z.mod_1_r.
  - cbn [le_encode le_decode]. rewrite IH.
    replace (256 ^ Z.of_nat (S n)) with (256 * 256 ^ Z.of_nat n)
      by (rewrite Nat2Z.inj_succ, Z.pow_succ_r; lia).
    rewrite Z.rem_mul_r; [done | lia | apply Z.pow_pos_nonneg; lia].
Qed.

Lemma le_decode_encode_8 v : 0 <= v < 2 ^ 64 -> le_decode (le_encode 8 v) = v.
Proof. intros. rewrite le_decode_encode. by apply Z.mod_small. Qed.

Lemma le_decode_encode_4 v : 0 <= v < 2 ^ 32 -> le_decode (le_encode 4 v) = v.
Proof. intros. rewrite le_decode_encode. by apply Z.mod_small. Qed.

(** Accesses of an object. *)
Section Objects.
Context {A : Type}.
Implicit Types (obj : list A) (off : Z).

Lemma in_bounds_true obj off n :
  in_bounds obj off n = true <-> 0 <= off /\ off + n <= Z.of_nat (length obj).
Proof. unfold in_bounds. rewrite andb_true_iff, !Z.leb_le. done. Qed.

Lemma in_bounds_false obj off n :
  in_bounds obj off n = false <-> off < 0 \/ Z.of_nat (length obj) < off + n.
Proof.
  unfold in_bounds. rewrite andb_false_iff, !Z.leb_gt. done.
Qed.

Lemma load_Some obj off c :
  load obj off = Some c <-> 0 <= off /\ obj !! Z.to_nat off = Some c.
Proof.
  unfold load. destruct (in_bounds obj off 1) eqn:E.
  - apply in_bounds_true in E. split; [intros ?; split; [lia | done] | by intros [_ ?]].
  - apply in_bounds_false in E. split; [done|]. intros [? Hl].
    apply lookup_lt_Some in Hl. lia.
Qed.

Lemma load_nat obj (k : nat) : load obj (Z.of_nat k) = obj !! k.
Proof.
  unfold load. destruct (in_bounds obj (Z.of_nat k) 1) eqn:E.
  - by rewrite Nat2Z.id.
  - apply in_bounds_false in E. symmetry. apply lookup_ge_None. lia.
Qed.

Lemma load_None obj off :
  load obj off = None <-> off < 0 \/ Z.of_nat (length obj) <= off.
Proof.
  unfold load. destruct (in_bounds obj off 1) eqn:E.
  - apply in_bounds_true in E. rewrite lookup_ge_None. lia.
  - apply in_bounds_false in E. split; [lia | done].
Qed.

Lemma store_Some obj off v obj' :
  store obj off v = Some obj' <->
  0 <= off < Z.of_nat (length obj) /\ obj' = <[Z.to_nat off := v]> obj.
Proof.
  unfold store. destruct (in_bounds obj off 1) eqn:E.
  - apply in_bounds_true in E. split; [intros [= <-]; split; [lia | done]|].
    by intros [_ ->].
  - apply in_bounds_false in E. split; [done | lia].
Qed.

Lemma store_None obj off v :
  store obj off v = None <-> off < 0 \/ Z.of_nat (length obj) <= off.
Proof.
  unfold store. destruct (in_bounds obj off 1) eqn:E.
  - apply in_bounds_true in E. split; [done | lia].
  - apply in_bounds_false in E. split; [lia | done].
Qed.

Lemma stores_Some obj off vs obj' :
  stores obj off vs = Some obj' <->
  0 <= off /\ off + Z.of_nat (length vs) <= Z.of_nat (length obj) /\
  obj' = list_inserts (Z.to_nat off) vs obj.
Proof.
  unfold stores. destruct (in_bounds obj off _) eqn:E.
  - apply in_bounds_true in E.
    split; [intros [= <-]; split_and!; [lia | lia | done] | by intros (_ & _ & ->)].
  - apply in_bounds_false in E. split; [done | lia].
Qed.

Lemma seg_nil obj off : seg obj off [].
Proof. intros k c. by rewrite lookup_nil. Qed.

Lemma seg_cons obj off c bs :
  seg obj off (c :: bs) <-> load obj off = Some c /\ seg obj (off + 1) bs.
Proof.
  split.
  - intros H. split.
    + specialize (H 0%nat c eq_refl). by rewrite Z.add_0_r in H.
    + intros k d Hk. specialize (H (S k) d Hk).
      by replace (off + 1 + Z.of_nat k) with (off + Z.of_nat (S k)) by lia.
  - intros [H0 H] [|k] d Hk; simplify_eq/=.
    + by rewrite Z.add_0_r.
    + replace (off + Z.of_nat (S k)) with (off + 1 + Z.of_nat k) by lia. eauto.
Qed.

Lemma seg_app obj off bs1 bs2 :
  seg obj off (bs1 ++ bs2) <->
  seg obj off bs1 /\ seg obj (off + Z.of_nat (length bs1)) bs2.
Proof.
  revert off. induction bs1 as [|c bs1 IH]; intros off; simpl.
  - rewrite Z.add_0_r. split; [split; [apply seg_nil | done] | by intros [_ ?]].
  - rewrite !seg_cons, IH.
    replace (off + 1 + Z.of_nat (length bs1))
      with (off + Z.pos (Pos.of_succ_nat (length bs1))) by lia.
    tauto.
Qed.

Lemma seg_bound obj off bs :
  seg obj off bs -> bs <> [] ->
  0 <= off /\ off + Z.of_nat (length bs) <= Z.of_nat (length obj).
Proof.
  intros H Hne.
  destruct bs as [|c bs _] using rev_ind; [done|].
  apply seg_app in H as [H1 H2]. apply seg_cons in H2 as [H2 _].
  apply load_Some in H2 as [? H2]. apply lookup_lt_Some in H2.
  rewrite length_app. simpl.
  assert (0 <= off).
  { destruct bs as [|d bs]; [simpl in *; lia|].
    apply seg_cons in H1 as [H1 _]. by apply load_Some in H1 as [? _]. }
  lia.
Qed.

Lemma seg_loads obj off bs :
  seg obj off bs -> 0 <= off ->
  off + Z.of_nat (length bs) <= Z.of_nat (length obj) ->
  loads obj off (Z.of_nat (length bs)) = Some bs.
Proof.
  intros H Hoff Hlen. unfold loads.
  destruct (in_bounds obj off _) eqn:E; [|apply in_bounds_false in E; lia].
  f_equal. rewrite Nat2Z.id. apply list_eq. intros k.
  destruct (decide (k < length bs)%nat) as [Hk|Hk].
  - rewrite lookup_take_lt by done. rewrite lookup_drop.
    destruct (lookup_lt_is_Some_2 bs k Hk) as [c Hc]. rewrite Hc.
    specialize (H k c Hc). apply load_Some in H as [_ H].
    by replace (Z.to_nat off + k)%nat with (Z.to_nat (off + Z.of_nat k)) by lia.
  - rewrite lookup_take_ge by lia. symmetry. apply lookup_ge_None. lia.
Qed.

Lemma stores_length obj off vs obj' :
  stores obj off vs = Some obj' -> length obj' = length obj.
Proof. intros (_ & _ & ->)%stores_Some. apply length_inserts. Qed.

Lemma store_length obj off v obj' :
  store obj off v = Some obj' -> length obj' = length obj.
Proof. intros (_ & ->)%store_Some. apply length_insert. Qed.

Lemma stores_seg obj off vs obj' :
  stores obj off vs = Some obj' -> seg obj' off vs.
Proof.
  intros (Hoff & Hlen & ->)%stores_Some k c Hk.
  pose proof (lookup_lt_Some _ _ _ Hk).
  apply load_Some. split; [lia|].
  rewrite list_lookup_inserts by lia.
  by replace (Z.to_nat (off + Z.of_nat k) - Z.to_nat off)%nat with k by lia.
Qed.

Lemma stores_frame obj off vs obj' off' bs :
  stores obj off vs = Some obj' -> seg obj off' bs ->
  off' + Z.of_nat (length bs) <= off \/ off + Z.of_nat (length vs) <= off' ->
  seg obj' off' bs.
Proof.
  intros (Hoff & Hlen & ->)%stores_Some H Hd k c Hk.
  pose proof (lookup_lt_Some _ _ _ Hk).
  specialize (H k c Hk). apply load_Some in H as [? H].
  apply load_Some. split; [done|].
  destruct Hd.
  - rewrite list_lookup_inserts_lt by lia. done.
  - rewrite list_lookup_inserts_ge by lia. done.
Qed.

Lemma store_stores obj off v : store obj off v = stores obj off [v].
Proof.
  unfold store, stores. change (Z.of_nat (length [v])) with 1.
  by destruct (in_bounds obj off 1).
Qed.

Lemma load_store_same obj off v obj' :
  store obj off v = Some obj' -> load obj' off = Some v.
Proof.
  rewrite store_stores. intros H%stores_seg.
  apply seg_cons in H as [H _]. done.
Qed.

Lemma load_store_other obj off v obj' off' :
  store obj off v = Some obj' -> off' <> off -> load obj' off' = load obj off'.
Proof.
  intros (Hoff & ->)%store_Some Hne. unfold load, in_bounds.
  rewrite length_insert.
  destruct ((0 <=? off') && (off' + 1 <=? Z.of_nat (length obj))) eqn:E; [|done].
  apply andb_true_iff in E as [?%Z.leb_le ?%Z.leb_le].
  apply list_lookup_insert_ne. lia.
Qed.

End Objects.

End MachineFacts.

(** ** Facts on the decoder that hold for every input *)

Module ReadrepFacts.

Import Readrep MachineFacts.

Lemma bind_Done {A B} (m : outcome A) (k : A -> outcome B) b :
  m ≫= k = Done b <-> exists a, m = Done a /\ k a = Done b.
Proof.
  destruct m as [a| |]; cbn; split; try done; try (by intros (? & ? & ?)).
  - eauto.
  - by intros (? & [= ->] & ?).
Qed.

Lemma bind_OutOfFuel {A B} (m : outcome A) (k : A -> outcome B) :
  m ≫= k = OutOfFuel <-> m = OutOfFuel \/ exists a, m = Done a /\ k a = OutOfFuel.
Proof.
  destruct m as [a| |]; cbn; split; try done; eauto;
    try (by intros [|(? & [= ->] & ?)]); by intros [|(? & ? & ?)].
Qed.

Lemma or_crash_Done {A} (o : option A) f a : or_crash o f = Done a <-> o = Some a.
Proof. destruct o; cbn; split; congruence. Qed.

Lemma or_crash_fuel {A} (o : option A) f : or_crash o f <> OutOfFuel.
Proof. by destruct o. Qed.

(** Both copy loops leave [i] between its old value and [slen], never raise
    [dlen] and keep the size of the arena. *)
Lemma copy_field_inv fuel buf slen : forall a i dlen a' i' dlen',
  copy_field fuel buf slen a i dlen = Done (a', i', dlen') ->
  0 <= i <= slen -> slen < 2 ^ 64 -> 0 <= dlen < 2 ^ 64 ->
  i <= i' <= slen /\ 0 <= dlen' <= dlen /\ length a' = length a.
Proof.
  induction fuel as [|fuel IH]; intros a i dlen a' i' dlen' H Hi Hs Hd; [done|].
  cbn [copy_field] in H.
  destruct ((i <? slen) && (0 <? dlen)) eqn:Hc.
  - apply andb_true_iff in Hc as [Hc1%Z.ltb_lt Hc2%Z.ltb_lt].
    apply bind_Done in H as (c & _ & H).
    apply bind_Done in H as (a1 & Ha1%or_crash_Done%store_length & H).
    apply bind_Done in H as (c' & _ & H).
    destruct (c' =? 0); [simplify_eq; lia|].
    apply IH in H; rewrite ?wrap64_small in * by lia; try lia.
  - simplify_eq. lia.
Qed.

Lemma copy_member_inv fuel buf slen : forall a i dlen ptmem a' i' dlen' ptmem',
  copy_member fuel buf slen a i dlen ptmem = Done (a', i', dlen', ptmem') ->
  0 <= i <= slen -> slen < 2 ^ 64 -> 0 <= dlen < 2 ^ 64 ->
  i <= i' <= slen /\ 0 <= dlen' <= dlen /\ length a' = length a.
Proof.
  induction fuel as [|fuel IH];
    intros a i dlen ptmem a' i' dlen' ptmem' H Hi Hs Hd; [done|].
  cbn [copy_member] in H.
  destruct ((i <? slen) && (0 <? dlen)) eqn:Hc.
  - apply andb_true_iff in Hc as [Hc1%Z.ltb_lt Hc2%Z.ltb_lt].
    apply bind_Done in H as (c & _ & H).
    apply bind_Done in H as (a1 & Ha1%or_crash_Done%store_length & H).
    cbv zeta in H.
    apply bind_Done in H as (c' & _ & H).
    rewrite !wrap64_small in H by lia.
    destruct (c' =? 0); [simplify_eq; lia|].
    apply IH in H; try lia.
  - simplify_eq. lia.
Qed.

(** The two tests inside the member loop (lines 148 and 151) never fire:
    whenever the loop ends, it ends at line 156 and not in a [return]. *)
Lemma read_members_inv fuel wfuel buf slen base tbl mem_num :
  forall l a i dlen ptmem ret a' i',
  read_members fuel wfuel buf slen base tbl mem_num l a i dlen ptmem
    = Done (ret, a', i') ->
  0 <= i <= slen -> slen < 2 ^ 64 -> 0 <= dlen < 2 ^ 64 ->
  ret = None /\ i <= i' <= slen /\ length a' = length a.
Proof.
  induction fuel as [|fuel IH];
    intros l a i dlen ptmem ret a' i' H Hi Hs Hd; [done|].
  cbn [read_members] in H.
  destruct (l <? mem_num); [|simplify_eq; split_and!; (done || lia)].
  apply bind_Done in H as (a1 & Ha1%or_crash_Done%stores_length & H).
  apply bind_Done in H as ([[[a2 i2] dlen2] ptmem2] & Hcm & H).
  apply copy_member_inv in Hcm as (? & ? & ?); [|lia..].
  apply bind_Done in H as (c & _ & H).
  destruct (Z.gtb_spec i2 slen); [lia|].
  destruct (Z.gtb_spec 0 dlen2); [lia|].
  rewrite !andb_false_r in H.
  apply IH in H as (? & ? & ?); [|lia..].
  split_and!; [done | lia | lia | congruence].
Qed.

(** The test of line 132 compares an unsigned [dlen] with 0: it is dead. *)
Lemma table_check_dead dlen ptmem : (0 >? wrap64 (dlen - ptmem)) = false.
Proof.
  pose proof (wrap64_range (dlen - ptmem)).
  destruct (Z.gtb_spec 0 (wrap64 (dlen - ptmem))); [lia | done].
Qed.

Ltac returned :=
  simplify_eq; split_and!; cbn; intros; first [done | lia | congruence].

(** What a return of the decoder says about [*len]: an error leaves it as
    it was; on success between 12 and [len] bytes were consumed. *)
Lemma readrep_len pr buf len ret len' pr' :
  sss_nss_getgr_readrep pr buf len = Done (ret, len', pr') ->
  0 <= len < 2 ^ 64 ->
  Z.of_nat (length (arena pr)) < 2 ^ 64 ->
  buffer pr' = buffer pr /\ length (arena pr') = length (arena pr) /\
  (ret <> 0 -> len' = len) /\
  (ret = 0 -> 21 <= len /\ 0 <= len' <= len - 12).
Proof.
  intros H Hlen Hb. unfold sss_nss_getgr_readrep in H.
  destruct (Z.ltb_spec len 21) as [Hlt|Hge]; [returned|].
  cbv zeta in H.
  apply bind_Done in H as (gid & _ & H).
  apply bind_Done in H as (mem_num & _ & H).
  rewrite (wrap64_small (len - 12)) in H by lia.
  apply bind_Done in H as ([[a1 i1] dlen1] & Hc1 & H).
  apply copy_field_inv in Hc1 as (? & ? & ?); [|unfold buflen; lia..].
  unfold buflen in *.
  destruct (Z.geb_spec i1 (len - 12)); [returned|].
  destruct (Z.geb_spec 0 dlen1); [returned|].
  rewrite (wrap64_small (i1 + 1)), (wrap64_small (dlen1 - 1)) in H by lia.
  apply bind_Done in H as ([[a2 i2] dlen2] & Hc2 & H).
  apply copy_field_inv in Hc2 as (? & ? & ?); [|lia..].
  destruct (Z.geb_spec i2 (len - 12)); [returned|].
  destruct (Z.geb_spec 0 dlen2); [returned|].
  rewrite (wrap64_small (i2 + 1)) in H by lia.
  rewrite table_check_dead in H.
  apply bind_Done in H as (a3 & Ha3%or_crash_Done%stores_length & H).
  apply bind_Done in H as ([[r a4] i4] & Hc4 & H).
  apply read_members_inv in Hc4 as (-> & ? & ?);
    [|lia|lia|apply wrap64_range].
  simplify_eq. rewrite wrap64_small by lia. returned.
Qed.

(** The fuel given to the loops suffices: the decoder always returns or
    crashes. *)
Lemma copy_field_fuel fuel buf slen : forall a i dlen,
  0 <= i -> slen < 2 ^ 64 ->
  Z.of_nat (length buf) - (12 + i) < Z.of_nat fuel -> (0 < fuel)%nat ->
  copy_field fuel buf slen a i dlen <> OutOfFuel.
Proof.
  induction fuel as [|fuel IH]; intros a i dlen Hi Hs Hf Hpos; [lia|].
  cbn [copy_field].
  destruct ((i <? slen) && (0 <? dlen)) eqn:Hc; [|done].
  apply andb_true_iff in Hc as [Hc1%Z.ltb_lt Hc2%Z.ltb_lt].
  intros H. apply bind_OutOfFuel in H as [H|(c & Hr & H)];
    [by apply or_crash_fuel in H|].
  apply or_crash_Done, load_Some in Hr as [_ Hr%lookup_lt_Some].
  apply bind_OutOfFuel in H as [H|(a1 & _ & H)];
    [by apply or_crash_fuel in H|].
  apply bind_OutOfFuel in H as [H|(c' & _ & H)];
    [by apply or_crash_fuel in H|].
  destruct (c' =? 0); [done|].
  rewrite (wrap64_small (i + 1)) in H by lia.
  apply IH in H; [done | lia | lia | lia | lia].
Qed.

Lemma copy_member_fuel fuel buf slen : forall a i dlen ptmem,
  0 <= i -> slen < 2 ^ 64 ->
  Z.of_nat (length buf) - (12 + i) < Z.of_nat fuel -> (0 < fuel)%nat ->
  copy_member fuel buf slen a i dlen ptmem <> OutOfFuel.
Proof.
  induction fuel as [|fuel IH]; intros a i dlen ptmem Hi Hs Hf Hpos; [lia|].
  cbn [copy_member].
  destruct ((i <? slen) && (0 <? dlen)) eqn:Hc; [|done].
  apply andb_true_iff in Hc as [Hc1%Z.ltb_lt Hc2%Z.ltb_lt].
  intros H. apply bind_OutOfFuel in H as [H|(c & Hr & H)];
    [by apply or_crash_fuel in H|].
  apply or_crash_Done, load_Some in Hr as [_ Hr%lookup_lt_Some].
  apply bind_OutOfFuel in H as [H|(a1 & _ & H)];
    [by apply or_crash_fuel in H|].
  cbv zeta in H.
  apply bind_OutOfFuel in H as [H|(c' & _ & H)];
    [by apply or_crash_fuel in H|].
  destruct (c' =? 0); [done|].
  rewrite (wrap64_small (i + 1)) in H by lia.
  apply IH in H; [done | lia | lia | lia | lia].
Qed.

Lemma read_members_fuel fuel buf slen base tbl mem_num :
  forall l a i dlen ptmem,
  0 <= i <= slen -> slen < 2 ^ 64 -> 0 <= dlen < 2 ^ 64 ->
  mem_num - l < Z.of_nat fuel -> (0 < fuel)%nat ->
  read_members fuel (S (length buf)) buf slen base tbl mem_num l a i dlen ptmem
    <> OutOfFuel.
Proof.
  induction fuel as [|fuel IH]; intros l a i dlen ptmem Hi Hs Hd Hf Hpos; [lia|].
  cbn [read_members].
  destruct (Z.ltb_spec l mem_num) as [Hl|Hl]; [|done].
  intros H. apply bind_OutOfFuel in H as [H|(a1 & _ & H)];
    [by apply or_crash_fuel in H|].
  apply bind_OutOfFuel in H as [H|([[[a2 i2] dlen2] ptmem2] & Hcm & H)];
    [by apply copy_member_fuel in H; lia|].
  apply copy_member_inv in Hcm as (? & ? & ?); [|lia..].
  apply bind_OutOfFuel in H as [H|(c & _ & H)];
    [by apply or_crash_fuel in H|].
  destruct (negb (c =? 0) && (i2 >? slen)); [done|].
  destruct (negb (c =? 0) && (0 >? dlen2)); [done|].
  apply IH in H; [done | lia | lia | lia | lia | lia].
Qed.

Lemma readrep_terminates pr buf len :
  Z.of_nat (length (arena pr)) < 2 ^ 64 ->
  sss_nss_getgr_readrep pr buf len <> OutOfFuel.
Proof.
  intros Hb H. unfold sss_nss_getgr_readrep in H.
  destruct (len <? 21); [done|]. cbv zeta in H.
  pose proof (wrap64_range (len - 12)) as Hs.
  set (slen := wrap64 (len - 12)) in *.
  apply bind_OutOfFuel in H as [H|(gid & _ & H)];
    [by apply or_crash_fuel in H|].
  apply bind_OutOfFuel in H as [H|(mem_num & _ & H)];
    [by apply or_crash_fuel in H|].
  apply bind_OutOfFuel in H as [H|([[a1 i1] dlen1] & Hc1 & H)];
    [by apply copy_field_fuel in H; lia|].
  apply copy_field_inv in Hc1 as (? & ? & ?); [|unfold buflen; lia..].
  unfold buflen in *.
  destruct (Z.geb_spec i1 slen); [done|].
  destruct (Z.geb_spec 0 dlen1); [done|].
  rewrite (wrap64_small (i1 + 1)), (wrap64_small (dlen1 - 1)) in H by lia.
  apply bind_OutOfFuel in H as [H|([[a2 i2] dlen2] & Hc2 & H)];
    [by apply copy_field_fuel in H; lia|].
  apply copy_field_inv in Hc2 as (? & ? & ?); [|lia..].
  destruct (Z.geb_spec i2 slen); [done|].
  destruct (Z.geb_spec 0 dlen2); [done|].
  rewrite (wrap64_small (i2 + 1)) in H by lia.
  rewrite table_check_dead in H.
  apply bind_OutOfFuel in H as [H|(a3 & _ & H)];
    [by apply or_crash_fuel in H|].
  apply bind_OutOfFuel in H as [H|([[r a4] i4] & _ & H)].
  - apply read_members_fuel in H; [done | lia | lia | apply wrap64_range | lia | lia].
  - by destruct r.
Qed.

Lemma bind_Crash {A B} (m : outcome A) (k : A -> outcome B) f :
  m ≫= k = Crash f <-> m = Crash f \/ exists a, m = Done a /\ k a = Crash f.
Proof.
  destruct m as [a|f0|]; cbn; split.
  - eauto.
  - by intros [?|(? & [= ->] & ?)].
  - intros [= ->]. by left.
  - by intros [[= ->]|(? & ? & ?)].
  - done.
  - by intros [?|(? & ? & ?)].
Qed.

Lemma or_crash_Crash {A} (o : option A) f f' :
  or_crash o f = Crash f' -> o = None /\ f' = f.
Proof. destruct o; cbn; [done|]. by intros [= ->]. Qed.

Ltac other_fault H :=
  unfold arena_write, arena_read, arena_write_ptr in H;
  apply or_crash_Crash in H as [_ ?]; discriminate.

(** No read of the source leaves the slice: with [slen] bytes after the
    header in [buf], the loops never fault on the source. *)
Lemma sbuf_read_safe buf i off :
  0 <= i -> 12 + i < Z.of_nat (length buf) ->
  sbuf_read buf i <> Crash (OobSource off).
Proof.
  intros Hi Hb [Hn _]%or_crash_Crash. apply load_None in Hn. lia.
Qed.

Lemma copy_field_src_safe fuel buf slen off : forall a i dlen,
  0 <= i -> 12 + slen <= Z.of_nat (length buf) -> slen < 2 ^ 64 ->
  copy_field fuel buf slen a i dlen <> Crash (OobSource off).
Proof.
  induction fuel as [|fuel IH]; intros a i dlen Hi Hb Hs; [done|].
  cbn [copy_field].
  destruct ((i <? slen) && (0 <? dlen)) eqn:Hc; [|done].
  apply andb_true_iff in Hc as [Hc1%Z.ltb_lt Hc2%Z.ltb_lt].
  intros H. apply bind_Crash in H as [H|(c & _ & H)];
    [by apply sbuf_read_safe in H; lia|].
  apply bind_Crash in H as [H|(a1 & _ & H)];
    [by other_fault H|].
  apply bind_Crash in H as [H|(c' & _ & H)];
    [by other_fault H|].
  destruct (c' =? 0); [done|].
  rewrite (wrap64_small (i + 1)) in H by lia.
  apply IH in H; [done | lia | lia | lia].
Qed.

Lemma copy_member_src_safe fuel buf slen off : forall a i dlen ptmem,
  0 <= i -> 12 + slen <= Z.of_nat (length buf) -> slen < 2 ^ 64 ->
  copy_member fuel buf slen a i dlen ptmem <> Crash (OobSource off).
Proof.
  induction fuel as [|fuel IH]; intros a i dlen ptmem Hi Hb Hs; [done|].
  cbn [copy_member].
  destruct ((i <? slen) && (0 <? dlen)) eqn:Hc; [|done].
  apply andb_true_iff in Hc as [Hc1%Z.ltb_lt Hc2%Z.ltb_lt].
  intros H. apply bind_Crash in H as [H|(c & _ & H)];
    [by apply sbuf_read_safe in H; lia|].
  apply bind_Crash in H as [H|(a1 & _ & H)];
    [by other_fault H|].
  cbv zeta in H.
  apply bind_Crash in H as [H|(c' & _ & H)];
    [by other_fault H|].
  destruct (c' =? 0); [done|].
  rewrite (wrap64_small (i + 1)) in H by lia.
  apply IH in H; [done | lia | lia | lia].
Qed.

Lemma read_members_src_safe fuel wfuel buf slen base tbl mem_num off :
  forall l a i dlen ptmem,
  0 <= i <= slen -> 12 + slen <= Z.of_nat (length buf) -> slen < 2 ^ 64 ->
  0 <= dlen < 2 ^ 64 ->
  read_members fuel wfuel buf slen base tbl mem_num l a i dlen ptmem
    <> Crash (OobSource off).
Proof.
  induction fuel as [|fuel IH]; intros l a i dlen ptmem Hi Hb Hs Hd; [done|].
  cbn [read_members].
  destruct (l <? mem_num); [|done].
  intros H. apply bind_Crash in H as [H|(a1 & _ & H)];
    [by other_fault H|].
  apply bind_Crash in H as [H|([[[a2 i2] dlen2] ptmem2] & Hcm & H)];
    [by apply copy_member_src_safe in H; lia|].
  apply copy_member_inv in Hcm as (? & ? & ?); [|lia..].
  apply bind_Crash in H as [H|(c & _ & H)];
    [by other_fault H|].
  destruct (negb (c =? 0) && (i2 >? slen)); [done|].
  destruct (negb (c =? 0) && (0 >? dlen2)); [done|].
  apply IH in H; [done | lia | lia | lia | lia].
Qed.

(** The decoder never reads the source at or past the length of the
    slice. *)
Lemma readrep_reads_in_bounds pr buf off :
  Z.of_nat (length buf) < 2 ^ 64 ->
  Z.of_nat (length (arena pr)) < 2 ^ 64 ->
  sss_nss_getgr_readrep pr buf (Z.of_nat (length buf)) <> Crash (OobSource off).
Proof.
  intros Hlen Hb H. unfold sss_nss_getgr_readrep in H.
  destruct (Z.ltb_spec (Z.of_nat (length buf)) 21); [done|]. cbv zeta in H.
  rewrite (wrap64_small (_ - 12)) in H by lia.
  set (slen := Z.of_nat (length buf) - 12) in *.
  apply bind_Crash in H as [[Hn _]%or_crash_Crash|(gid & _ & H)].
  { apply fmap_None in Hn. unfold loads in Hn.
    destruct (in_bounds buf 0 8) eqn:E; [done|]. apply in_bounds_false in E. lia. }
  apply bind_Crash in H as [[Hn _]%or_crash_Crash|(mem_num & _ & H)].
  { apply fmap_None in Hn. unfold loads in Hn.
    destruct (in_bounds buf 8 4) eqn:E; [done|]. apply in_bounds_false in E. lia. }
  apply bind_Crash in H as [H|([[a1 i1] dlen1] & Hc1 & H)];
    [by apply copy_field_src_safe in H; unfold slen; lia|].
  apply copy_field_inv in Hc1 as (? & ? & ?); [|unfold buflen, slen; lia..].
  unfold buflen in *.
  destruct (Z.geb_spec i1 slen); [done|].
  destruct (Z.geb_spec 0 dlen1); [done|].
  rewrite (wrap64_small (i1 + 1)), (wrap64_small (dlen1 - 1)) in H by lia.
  apply bind_Crash in H as [H|([[a2 i2] dlen2] & Hc2 & H)];
    [by apply copy_field_src_safe in H; unfold slen; lia|].
  apply copy_field_inv in Hc2 as (? & ? & ?); [|unfold slen; lia..].
  destruct (Z.geb_spec i2 slen); [done|].
  destruct (Z.geb_spec 0 dlen2); [done|].
  rewrite (wrap64_small (i2 + 1)) in H by lia.
  rewrite table_check_dead in H.
  apply bind_Crash in H as [H|(a3 & _ & H)];
    [by other_fault H|].
  apply bind_Crash in H as [H|([[r a4] i4] & _ & H)].
  - apply read_members_src_safe in H;
      [done | lia | unfold slen; lia | unfold slen; lia | apply wrap64_range].
  - by destruct r.
Qed.

End ReadrepFacts.

(** ** Decoding a well-formed record *)

Module Decoding.

Import Readrep MachineFacts ReadrepFacts.

Lemma seg_middle {A} (pre bs post : list A) :
  seg (pre ++ bs ++ post) (Z.of_nat (length pre)) bs.
Proof.
  intros k c Hk. rewrite <- Nat2Z.inj_add, load_nat.
  rewrite lookup_app_r by lia.
  replace (length pre + k - length pre)%nat with k by lia.
  by apply lookup_app_l_Some.
Qed.

Lemma seg_at {A} (obj : list A) off off' bs :
  seg obj off bs -> off = off' -> seg obj off' bs.
Proof. by intros ? <-. Qed.

Lemma stores_cons {A} (obj : list A) off c vs obj1 obj' :
  store obj off c = Some obj1 -> stores obj1 (off + 1) vs = Some obj' ->
  stores obj off (c :: vs) = Some obj'.
Proof.
  intros (Hoff & ->)%store_Some (_ & Hlen & ->)%stores_Some.
  rewrite length_insert in Hlen.
  apply stores_Some. split_and!; [lia | simpl length; lia |].
  replace (Z.to_nat (off + 1)) with (S (Z.to_nat off)) by lia.
  cbn [list_inserts]. by rewrite list_insert_inserts_lt by lia.
Qed.

Ltac same_result :=
  repeat match goal with
         | |- Done _ = Done _ => f_equal
         | |- (_, _) = (_, _) => f_equal
         end; first [done | lia].

Ltac run := cbn [mbind outcome_bind bind or_crash].
Ltac unwrap :=
  repeat match goal with
         | |- context [wrap64 ?x] => rewrite (wrap64_small x) by lia
         end.
Ltac orun := cbn [mbind option_bind fmap option_fmap option_map].

Section Loops.
Variables (buf : list Z) (slen : Z).
Hypothesis slen_range : slen < 2 ^ 64.

(** The loop of the name and of the password copies a string of the source
    with its terminator and stops on the terminator. *)
Lemma copy_field_string s : forall fuel a i dlen,
  nul_free s -> seg buf (12 + i) (s ++ [0]) ->
  0 <= i -> i + Z.of_nat (length s) < slen ->
  Z.of_nat (length s) < dlen < 2 ^ 64 ->
  i + Z.of_nat (length s) < Z.of_nat (length a) ->
  (length s < fuel)%nat ->
  exists a', stores a i (s ++ [0]) = Some a' /\
    copy_field fuel buf slen a i dlen
      = Done (a', i + Z.of_nat (length s), dlen - Z.of_nat (length s)).
Proof.
  induction s as [|c s IH]; intros fuel a i dlen Hnf Hsrc Hi Hs Hd Ha Hf;
    (destruct fuel as [|fuel]; [simpl in Hf; lia|]);
    apply seg_cons in Hsrc as [Hc Hsrc]; cbn [copy_field length] in *.
  - destruct (Z.ltb_spec i slen); [|lia]. destruct (Z.ltb_spec 0 dlen); [|lia].
    cbn [andb]. unfold sbuf_read, src_read. rewrite Hc. cbn.
    destruct (store a i 0) as [a'|] eqn:Hst; [|apply store_None in Hst; lia].
    exists a'. split; [by rewrite <- store_stores|].
    unfold arena_write, arena_read. rewrite Hst. cbn.
    rewrite (load_store_same _ _ _ _ Hst). cbn. by rewrite Z.add_0_r, Z.sub_0_r.
  - apply Forall_cons in Hnf as [Hc0 Hnf].
    destruct (Z.ltb_spec i slen); [|lia]. destruct (Z.ltb_spec 0 dlen); [|lia].
    cbn [andb]. unfold sbuf_read, src_read. rewrite Hc. cbn.
    destruct (store a i c) as [a1|] eqn:Hst; [|apply store_None in Hst; lia].
    unfold arena_write, arena_read. rewrite Hst. cbn.
    rewrite (load_store_same _ _ _ _ Hst). cbn.
    destruct (Z.eqb_spec c 0); [done|].
    rewrite !wrap64_small by lia.
    destruct (IH fuel a1 (i + 1) (dlen - 1)) as (a' & Hst' & Hrun);
      [done | by rewrite Z.add_assoc | lia | lia | lia
      | rewrite (store_length _ _ _ _ Hst); lia | lia |].
    exists a'. split; [by eapply stores_cons|].
    rewrite Hrun. same_result.
Qed.

(** The loop of a member does the same at [ptmem] and steps over the
    terminator in the source. *)
Lemma copy_member_string s : forall fuel a i dlen ptmem,
  nul_free s -> seg buf (12 + i) (s ++ [0]) ->
  0 <= i -> i + Z.of_nat (length s) < slen ->
  Z.of_nat (length s) < dlen < 2 ^ 64 ->
  0 <= ptmem -> ptmem + Z.of_nat (length s) < Z.of_nat (length a) ->
  Z.of_nat (length a) < 2 ^ 64 ->
  (length s < fuel)%nat ->
  exists a', stores a ptmem (s ++ [0]) = Some a' /\
    copy_member fuel buf slen a i dlen ptmem
      = Done (a', i + Z.of_nat (length s) + 1, dlen - Z.of_nat (length s) - 1,
              ptmem + Z.of_nat (length s)).
Proof.
  induction s as [|c s IH]; intros fuel a i dlen ptmem Hnf Hsrc Hi Hs Hd Hp Ha Hb Hf;
    (destruct fuel as [|fuel]; [simpl in Hf; lia|]);
    apply seg_cons in Hsrc as [Hc Hsrc]; cbn [copy_member length] in *.
  - destruct (Z.ltb_spec i slen); [|lia]. destruct (Z.ltb_spec 0 dlen); [|lia].
    cbn [andb]. unfold sbuf_read, src_read. rewrite Hc. cbn.
    destruct (store a ptmem 0) as [a'|] eqn:Hst; [|apply store_None in Hst; lia].
    exists a'. split; [by rewrite <- store_stores|].
    unfold arena_write, arena_read. rewrite Hst. cbn.
    rewrite (load_store_same _ _ _ _ Hst). cbn.
    rewrite !wrap64_small by lia. same_result.
  - apply Forall_cons in Hnf as [Hc0 Hnf].
    destruct (Z.ltb_spec i slen); [|lia]. destruct (Z.ltb_spec 0 dlen); [|lia].
    cbn [andb]. unfold sbuf_read, src_read. rewrite Hc. cbn.
    destruct (store a ptmem c) as [a1|] eqn:Hst; [|apply store_None in Hst; lia].
    unfold arena_write, arena_read. rewrite Hst. cbn.
    rewrite (load_store_same _ _ _ _ Hst). cbn.
    destruct (Z.eqb_spec c 0); [done|].
    rewrite !wrap64_small by lia.
    destruct (IH fuel a1 (i + 1) (dlen - 1) (ptmem + 1)) as (a' & Hst' & Hrun);
      [done | by rewrite Z.add_assoc | lia | lia | lia | lia
      | rewrite (store_length _ _ _ _ Hst); lia
      | rewrite (store_length _ _ _ _ Hst); lia | lia |].
    exists a'. split; [by eapply stores_cons|].
    rewrite Hrun. same_result.
Qed.

Lemma members_len_cons m ms :
  members_len (m :: ms) = Z.of_nat (length m) + 1 + members_len ms.
Proof.
  unfold members_len. rewrite fmap_cons. cbn [concat].
  rewrite !length_app. simpl. lia.
Qed.

Lemma members_len_nonneg ms : 0 <= members_len ms.
Proof. unfold members_len. lia. Qed.

(** The loop over the members, on a source that holds the strings [ms]:
    it runs to its end, fills the slots of the table from [l] on and lays
    the strings from [ptmem] on, and touches nothing else. *)
Lemma read_members_strings base tbl mem_num ms : forall fuel l a i dlen ptmem,
  Forall nul_free ms ->
  seg buf (12 + i) (concat ((.++ [0]) <$> ms)) ->
  mem_num = l + Z.of_nat (length ms) -> 0 <= l -> 0 <= i ->
  i + members_len ms <= slen ->
  members_len ms <= dlen < 2 ^ 64 ->
  0 <= tbl -> tbl + ptr_size * mem_num <= ptmem ->
  ptmem + members_len ms <= Z.of_nat (length a) ->
  Z.of_nat (length a) < 2 ^ 64 ->
  (length ms < fuel)%nat ->
  exists a',
    read_members fuel (S (length buf)) buf slen base tbl mem_num l a i dlen ptmem
      = Done (None, a', i + members_len ms) /\
    length a' = length a /\
    (forall off bs, seg a off bs ->
       off + Z.of_nat (length bs) <= tbl + ptr_size * l \/
         tbl + ptr_size * mem_num <= off ->
       off + Z.of_nat (length bs) <= ptmem \/ ptmem + members_len ms <= off ->
       seg a' off bs) /\
    table_ok a' base tbl l ptmem ms.
Proof.
  unfold ptr_size.
  induction ms as [|m ms IH];
    intros fuel l a i dlen ptmem Hnf Hsrc Hn Hl Hi Hs Hd Ht Htp Ha Hb Hf;
    (destruct fuel as [|fuel]; [simpl in Hf; lia|]); cbn [read_members].
  - simpl in Hn. destruct (Z.ltb_spec l mem_num); [lia|].
    exists a. unfold members_len. simpl. rewrite Z.add_0_r. done.
  - rewrite members_len_cons in *. pose proof (members_len_nonneg ms).
    rewrite fmap_cons in Hsrc. cbn [concat length] in *.
    apply seg_app in Hsrc as [Hm Hsrc].
    apply Forall_cons in Hnf as [Hnm Hnf].
    destruct (Z.ltb_spec l mem_num); [|lia].
    unfold arena_write_ptr, ptr_size.
    destruct (stores a (tbl + 8 * l) (le_encode 8 (base + ptmem))) as [a1|] eqn:Hst1;
      [|unfold stores in Hst1;
        destruct (in_bounds a _ _) eqn:E; [done|];
        apply in_bounds_false in E; rewrite length_le_encode in E; lia].
    run.
    pose proof (stores_length _ _ _ _ Hst1) as Hlen1.
    assert (Z.of_nat (length m) + 1 <= Z.of_nat (length buf)) as Hmb.
    { apply seg_bound in Hm as [_ Hm]; [|by destruct m].
      rewrite length_app in Hm. simpl in Hm. lia. }
    destruct (copy_member_string m (S (length buf)) a1 i dlen ptmem)
      as (a2 & Hst2 & Hrun); [done | done | lia | lia | lia | lia | lia | lia | lia |].
    rewrite Hrun. run.
    pose proof (stores_length _ _ _ _ Hst2) as Hlen2.
    pose proof (stores_seg _ _ _ _ Hst2) as Hseg2.
    pose proof Hseg2 as Hnul. apply seg_app in Hnul as [_ [Hnul _]%seg_cons].
    unfold arena_read. rewrite Hnul. run. cbn [Z.eqb negb andb].
    rewrite wrap64_small by lia.
    rewrite length_app in Hsrc. cbn [length] in Hsrc.
    destruct (IH fuel (l + 1) a2 (i + Z.of_nat (length m) + 1)
                (dlen - Z.of_nat (length m) - 1)
                (ptmem + Z.of_nat (length m) + 1))
      as (a' & Hrun' & Hlen' & Hframe & Htab);
      [done | | lia | lia | lia | lia | lia | lia | lia | lia | lia | lia |].
    { replace (12 + (i + Z.of_nat (length m) + 1))
        with (12 + i + Z.of_nat (length m + 1)) by lia. done. }
    exists a'. split_and!.
    + rewrite Hrun'. same_result.
    + congruence.
    + intros off bs Hbs Hd1 Hd2. apply Hframe; [|lia|lia].
      eapply stores_frame; [exact Hst2| |rewrite length_app; simpl; lia].
      eapply stores_frame; [exact Hst1|done|rewrite length_le_encode; lia].
    + cbn [table_ok]. unfold ptr_size. split_and!; [| |done].
      * apply Hframe; [|rewrite length_le_encode; lia|rewrite length_le_encode; lia].
        eapply stores_frame; [exact Hst2| |rewrite length_le_encode, length_app; simpl; lia].
        by eapply stores_seg.
      * apply Hframe; [done|rewrite length_app; simpl; lia|rewrite length_app; simpl; lia].
Qed.

End Loops.

(** *** Reading the arena back *)

Lemma cstr_at_string s : forall fuel a off,
  seg a off (s ++ [0]) -> nul_free s -> (length s < fuel)%nat ->
  cstr_at fuel a off = Some s.
Proof.
  induction s as [|c s IH]; intros fuel a off Hseg Hnf Hf;
    (destruct fuel as [|fuel]; [simpl in Hf; lia|]);
    apply seg_cons in Hseg as [Hc Hseg]; cbn [cstr_at]; rewrite Hc; cbn.
  - done.
  - apply Forall_cons in Hnf as [Hc0 Hnf].
    destruct (Z.eqb_spec c 0); [done|].
    rewrite (IH fuel a (off + 1)); [done | done | done | simpl in Hf; lia].
Qed.

Lemma cstr_seg g base a off s :
  seg a off (s ++ [0]) -> nul_free s -> cstr (Rep g base a) (base + off) = Some s.
Proof.
  intros Hseg Hnf. unfold cstr. cbn [arena buffer].
  replace (base + off - base) with off by lia.
  apply cstr_at_string; [done..|].
  apply seg_bound in Hseg as [Hoff Hb]; [|by destruct s].
  rewrite length_app in Hb. simpl in Hb. lia.
Qed.

Lemma ptr_at_seg g base a off v :
  seg a off (le_encode 8 v) -> 0 <= v < 2 ^ 64 ->
  ptr_at (Rep g base a) (base + off) = Some v.
Proof.
  intros Hseg Hv. unfold ptr_at. cbn [arena buffer].
  replace (base + off - base) with off by lia.
  pose proof Hseg as [Hoff Hb]%seg_bound; [|done].
  rewrite length_le_encode in Hb.
  apply seg_loads in Hseg; [|done|by rewrite length_le_encode].
  rewrite length_le_encode in Hseg. change (Z.of_nat 8) with ptr_size in Hseg.
  rewrite Hseg. change (Some (le_decode (le_encode 8 v)) = Some v).
  by rewrite le_decode_encode_8.
Qed.

Lemma cstr_array_table g base a tbl ms : forall fuel l ptmem,
  table_ok a base tbl l ptmem ms ->
  seg a (tbl + ptr_size * (l + Z.of_nat (length ms))) (le_encode 8 0) ->
  Forall nul_free ms ->
  0 < base -> 0 <= ptmem -> base + ptmem + members_len ms <= 2 ^ 64 ->
  (length ms < fuel)%nat ->
  cstr_array fuel (Rep g base a) (base + (tbl + ptr_size * l)) = Some ms.
Proof.
  induction ms as [|m ms IH]; intros fuel l ptmem Htab Hnull Hnf Hb Hp Hr Hf;
    (destruct fuel as [|fuel]; [simpl in Hf; lia|]); cbn [cstr_array].
  - simpl in Hnull. rewrite Z.add_0_r in Hnull.
    rewrite (ptr_at_seg _ _ _ _ 0); [done | done | lia].
  - destruct Htab as (Hslot & Hstr & Htab).
    apply Forall_cons in Hnf as [Hnm Hnf].
    rewrite members_len_cons in Hr. pose proof (members_len_nonneg ms).
    rewrite (ptr_at_seg _ _ _ _ (base + ptmem)); [|done|lia]. orun.
    destruct (Z.eqb_spec (base + ptmem) 0); [lia|].
    rewrite (cstr_seg _ _ _ _ m); [|done..]. orun.
    replace (base + (tbl + ptr_size * l) + ptr_size)
      with (base + (tbl + ptr_size * (l + 1))) by lia.
    rewrite (IH fuel (l + 1) (ptmem + Z.of_nat (length m) + 1));
      [done | done | | done | done | lia | lia | simpl in Hf; lia].
    cbn [length] in Hnull.
    by replace (l + 1 + Z.of_nat (length ms))
      with (l + Z.of_nat (S (length ms))) by lia.
Qed.

(** *** The decoder on a well-formed record *)

Lemma length_strings_of name passwd ms :
  Z.of_nat (length (strings_of name passwd ms))
  = Z.of_nat (length name) + 1 + Z.of_nat (length passwd) + 1 + members_len ms.
Proof.
  unfold strings_of, members_len. rewrite !length_app. simpl. lia.
Qed.

Lemma length_encode w :
  Z.of_nat (length (encode w))
  = 12 + Z.of_nat (length (strings_of (w_name w) (w_passwd w) (w_members w))).
Proof. unfold encode. rewrite !length_app, !length_le_encode. lia. Qed.

Lemma readrep_well_formed w rest pr :
  well_formed w ->
  Z.of_nat (length (w_members w)) + 1 < 2 ^ 32 ->
  21 <= Z.of_nat (length (encode w ++ rest)) < 2 ^ 64 ->
  arena_need w <= buflen pr < 2 ^ 64 ->
  let n := Z.of_nat (length (w_members w)) in
  let tbl := table_off w in
  exists a',
    sss_nss_getgr_readrep pr (encode w ++ rest)
        (Z.of_nat (length (encode w ++ rest)))
      = Done (0, Z.of_nat (length rest),
              Rep (Group (buffer pr + 0)
                         (buffer pr + (Z.of_nat (length (w_name w)) + 1))
                         (wrap32 (w_gid w)) (buffer pr + tbl))
                  (buffer pr) a') /\
    length a' = length (arena pr) /\
    seg a' 0 (w_name w ++ [0]) /\
    seg a' (Z.of_nat (length (w_name w)) + 1) (w_passwd w ++ [0]) /\
    table_ok a' (buffer pr) tbl 0 (tbl + ptr_size * (n + 1)) (w_members w) /\
    seg a' (tbl + ptr_size * n) (le_encode 8 0).
Proof.
  intros (Hgid & Hname & Hpw & Hms & Hcnt) Hcnt1 Hlen Hneed n tbl.
  destruct w as [gid name passwd ms]. cbn [w_gid w_name w_passwd w_members] in *.
  unfold arena_need, buflen, table_off in *.
  cbn [w_gid w_name w_passwd w_members] in *.
  set (src := encode _ ++ rest) in *.
  assert (Z.of_nat (length src)
          = 12 + Z.of_nat (length (strings_of name passwd ms))
            + Z.of_nat (length rest)) as Hsrc.
  { unfold src. rewrite length_app, Nat2Z.inj_add, length_encode. done. }
  rewrite length_strings_of in *. pose proof (members_len_nonneg ms) as Hml.
  fold n in Hcnt, Hcnt1, Hneed. unfold ptr_size in *.
  (* the source, piece by piece *)
  assert (seg src 0 (le_encode 8 gid)) as Hs_gid.
  { apply (seg_middle [] (le_encode 8 gid)). }
  assert (seg src 8 (le_encode 4 n)) as Hs_n.
  { unfold src, encode, n. cbn [w_gid w_members].
    rewrite <- (app_assoc (le_encode 8 gid)), <- (app_assoc (le_encode 4 _)).
    apply (seg_middle (le_encode 8 gid)). }
  assert (seg src 12 (strings_of name passwd ms)) as Hs_str.
  { unfold src, encode. cbn [w_gid w_members w_name w_passwd].
    rewrite (app_assoc (le_encode 8 gid)), <- (app_assoc (_ ++ _)).
    apply (seg_middle (le_encode 8 gid ++ le_encode 4 _)). }
  unfold strings_of in Hs_str.
  apply seg_app in Hs_str as [Hs_name Hs_str].
  apply seg_app in Hs_str as [Hs_pw Hs_ms].
  (* the run *)
  unfold sss_nss_getgr_readrep.
  destruct (Z.ltb_spec (Z.of_nat (length src)) 21); [lia|].
  unfold src_read_int.
  apply seg_loads in Hs_gid; [|lia|rewrite length_le_encode; lia].
  apply seg_loads in Hs_n; [|lia|rewrite length_le_encode; lia].
  rewrite length_le_encode in Hs_gid, Hs_n.
  change (Z.of_nat 8) with 8 in Hs_gid. change (Z.of_nat 4) with 4 in Hs_n.
  rewrite Hs_gid, Hs_n. orun. rewrite le_decode_encode_8, le_decode_encode_4 by lia.
  run. cbv zeta.
  rewrite (wrap64_small (_ - 12)) by lia.
  set (slen := Z.of_nat (length src) - 12).
  assert (slen < 2 ^ 64) as Hslen by (unfold slen; lia).
  destruct (copy_field_string src slen Hslen name (S (length src)) (arena pr)
              0 (Z.of_nat (length (arena pr))))
    as (a1 & Hst1 & Hrun1); [done | done | lia | unfold slen; lia | lia | lia | lia |].
  unfold buflen. rewrite Hrun1. run. clear Hrun1.
  destruct (Z.geb_spec (0 + Z.of_nat (length name)) slen); [unfold slen in *; lia|].
  destruct (Z.geb_spec 0 (Z.of_nat (length (arena pr)) - Z.of_nat (length name)));
    [lia|].
  unwrap.
  pose proof (stores_length _ _ _ _ Hst1) as Hl1.
  destruct (copy_field_string src slen Hslen passwd (S (length src)) a1
              (0 + Z.of_nat (length name) + 1)
              (Z.of_nat (length (arena pr)) - Z.of_nat (length name) - 1))
    as (a2 & Hst2 & Hrun2);
    [done | eapply seg_at; [exact Hs_pw | rewrite ?length_app; simpl; lia]
    | lia | unfold slen; lia | lia | lia | lia |].
  rewrite Hrun2. run. clear Hrun2.
  pose proof (stores_length _ _ _ _ Hst2) as Hl2.
  match goal with |- context [?x >=? slen] =>
    destruct (Z.geb_spec x slen); [unfold slen in *; lia|] end.
  match goal with |- context [0 >=? ?x] =>
    destruct (Z.geb_spec 0 x); [lia|] end.
  rewrite (wrap32_small (n + 1)) by lia. unfold ptr_size.
  unwrap.
  match goal with |- context [0 >? ?x] =>
    destruct (Z.gtb_spec 0 x); [lia|] end.
  replace (0 + Z.of_nat (length name) + 1 + Z.of_nat (length passwd) + 1)
    with tbl by (unfold tbl; lia).
  unfold arena_write_ptr, ptr_size.
  destruct (stores a2 (tbl + 8 * n) (le_encode 8 0)) as [a3|] eqn:Hst3;
    [|unfold stores in Hst3; destruct (in_bounds a2 _ _) eqn:E; [done|];
      apply in_bounds_false in E; rewrite length_le_encode in E;
      unfold tbl in *; lia].
  run. pose proof (stores_length _ _ _ _ Hst3) as Hl3.
  destruct (read_members_strings src slen Hslen (buffer pr) tbl n ms
              (S (Z.to_nat n)) 0 a3 tbl
              (Z.of_nat (length (arena pr)) - Z.of_nat (length name) - 1
               - Z.of_nat (length passwd) - 1 - 8 * (n + 1))
              (8 * (n + 1) + tbl))
    as (a4 & Hrun4 & Hl4 & Hframe & Htab);
    [done
    | eapply seg_at; [exact Hs_ms | unfold tbl; rewrite !length_app; simpl; lia]
    | unfold n; lia | lia | unfold tbl; lia | unfold slen, tbl; lia
    | unfold tbl in *; lia | unfold tbl; lia | unfold ptr_size; lia
    | unfold tbl in *; lia | lia | unfold n; lia |].
  rewrite Hrun4. run. clear Hrun4.
  exists a4. split_and!.
  - rewrite wrap64_small by (unfold slen, tbl; lia).
    unfold with_arena, set_gr_mem, set_gr_passwd, set_gr_name, set_gr_gid.
    cbn [gr_name gr_passwd gr_gid gr_mem buffer].
    replace (slen - (tbl + members_len ms)) with (Z.of_nat (length rest))
      by (unfold slen, tbl; lia).
    by replace (0 + Z.of_nat (length name) + 1)
      with (Z.of_nat (length name) + 1) by lia.
  - congruence.
  - apply Hframe; [|rewrite length_app; simpl; unfold tbl; lia
                   |rewrite length_app; simpl; unfold tbl; lia].
    eapply stores_frame; [exact Hst3| |rewrite length_app, length_le_encode; simpl; unfold tbl; lia].
    eapply stores_frame; [exact Hst2| |rewrite !length_app; simpl; lia].
    by eapply stores_seg.
  - apply Hframe; [|rewrite length_app; simpl; unfold tbl; lia
                   |rewrite length_app; simpl; unfold tbl; lia].
    eapply stores_frame; [exact Hst3| |rewrite length_app, length_le_encode; simpl; unfold tbl; lia].
    apply stores_seg in Hst2.
    by replace (0 + Z.of_nat (length name) + 1) with (Z.of_nat (length name) + 1) in Hst2 by lia.
  - by replace (tbl + 8 * (n + 1)) with (8 * (n + 1) + tbl) by lia.
  - apply Hframe; [|rewrite length_le_encode; unfold ptr_size; lia
                   |rewrite length_le_encode; lia].
    by eapply stores_seg.
Qed.

(** On such a record the decoder consumes the 12 bytes of the header and
    the strings with their terminators, and nothing else. *)
Lemma readrep_consumed_well_formed w rest pr :
  well_formed w ->
  Z.of_nat (length (w_members w)) + 1 < 2 ^ 32 ->
  21 <= Z.of_nat (length (encode w ++ rest)) < 2 ^ 64 ->
  arena_need w <= buflen pr < 2 ^ 64 ->
  exists len' pr',
    sss_nss_getgr_readrep pr (encode w ++ rest)
        (Z.of_nat (length (encode w ++ rest)))
      = Done (0, len', pr') /\
    Z.of_nat (length (encode w ++ rest)) - len'
    = 12 + (Z.of_nat (length (w_name w)) + 1)
         + (Z.of_nat (length (w_passwd w)) + 1)
         + members_len (w_members w).
Proof.
  intros Hwf Hcnt Hlen Hneed.
  destruct (readrep_well_formed w rest pr Hwf Hcnt Hlen Hneed)
    as (a' & Hrun & _).
  eexists _, _. split; [exact Hrun|].
  rewrite length_app, Nat2Z.inj_add, length_encode, length_strings_of. lia.
Qed.

Lemma seg_suffix {A} (pre bs : list A) :
  seg (pre ++ bs) (Z.of_nat (length pre)) bs.
Proof.
  pose proof (seg_middle pre bs []) as H. by rewrite app_nil_r in H.
Qed.

Section Truncated.
Variables (buf : list Z) (slen : Z).
Hypothesis slen_range : slen < 2 ^ 64.

(** The loop of the name and of the password on a source that ends before
    any terminator: it runs to the end of the source. *)
Lemma copy_field_no_nul s : forall fuel a i dlen,
  nul_free s -> seg buf (12 + i) s ->
  0 <= i -> i + Z.of_nat (length s) = slen ->
  Z.of_nat (length s) <= dlen < 2 ^ 64 ->
  i + Z.of_nat (length s) <= Z.of_nat (length a) ->
  (length s < fuel)%nat ->
  exists a', length a' = length a /\
    copy_field fuel buf slen a i dlen
      = Done (a', slen, dlen - Z.of_nat (length s)).
Proof.
  induction s as [|c s IH]; intros fuel a i dlen Hnf Hsrc Hi Hs Hd Ha Hf;
    (destruct fuel as [|fuel]; [simpl in Hf; lia|]);
    cbn [copy_field length] in *.
  - destruct (Z.ltb_spec i slen); [lia|]. cbn [andb].
    exists a. split; [done|]. same_result.
  - apply seg_cons in Hsrc as [Hc Hsrc].
    apply Forall_cons in Hnf as [Hc0 Hnf].
    destruct (Z.ltb_spec i slen); [|lia]. destruct (Z.ltb_spec 0 dlen); [|lia].
    cbn [andb]. unfold sbuf_read, src_read. rewrite Hc. run.
    destruct (store a i c) as [a1|] eqn:Hst; [|apply store_None in Hst; lia].
    unfold arena_write, arena_read. rewrite Hst. run.
    rewrite (load_store_same _ _ _ _ Hst). run.
    destruct (Z.eqb_spec c 0); [done|].
    rewrite !wrap64_small by lia.
    pose proof (store_length _ _ _ _ Hst) as Hl1.
    destruct (IH fuel a1 (i + 1) (dlen - 1)) as (a' & Hl' & Hrun);
      [done | by rewrite Z.add_assoc | lia | lia | lia | lia | lia |].
    exists a'. split; [congruence|]. rewrite Hrun. same_result.
Qed.

End Truncated.

(** A source that ends inside the name is rejected with EBADMSG. *)
Lemma readrep_truncated_name pr hdr s :
  length hdr = 12%nat -> nul_free s ->
  21 <= Z.of_nat (length (hdr ++ s)) < 2 ^ 64 ->
  Z.of_nat (length s) <= buflen pr < 2 ^ 64 ->
  exists pr',
    sss_nss_getgr_readrep pr (hdr ++ s) (Z.of_nat (length (hdr ++ s)))
    = Done (EBADMSG, Z.of_nat (length (hdr ++ s)), pr').
Proof.
  intros Hh Hnf Hlen Hb. unfold buflen in Hb.
  assert (Z.of_nat (length (hdr ++ s)) = 12 + Z.of_nat (length s)) as Hl
    by (rewrite length_app; lia).
  unfold sss_nss_getgr_readrep.
  destruct (Z.ltb_spec (Z.of_nat (length (hdr ++ s))) 21); [lia|].
  unfold src_read_int, loads.
  destruct (in_bounds (hdr ++ s) 0 8) eqn:E1; [|apply in_bounds_false in E1; lia].
  destruct (in_bounds (hdr ++ s) 8 4) eqn:E2; [|apply in_bounds_false in E2; lia].
  orun. run. cbv zeta. rewrite (wrap64_small (_ - 12)) by lia.
  destruct (copy_field_no_nul (hdr ++ s) (Z.of_nat (length (hdr ++ s)) - 12)
              ltac:(lia) s (S (length (hdr ++ s))) (arena pr) 0
              (Z.of_nat (length (arena pr))))
    as (a' & _ & Hrun); [done | | lia | lia | lia | lia | rewrite length_app; lia |].
  { eapply seg_at; [apply (seg_suffix hdr s)|lia]. }
  unfold buflen. rewrite Hrun. run.
  destruct (Z.geb_spec (Z.of_nat (length (hdr ++ s)) - 12)
              (Z.of_nat (length (hdr ++ s)) - 12)); [|lia].
  eauto.
Qed.

(** A source that ends inside the password is rejected with EBADMSG. *)
Lemma readrep_truncated_passwd pr hdr name s :
  length hdr = 12%nat -> nul_free name -> nul_free s ->
  21 <= Z.of_nat (length (hdr ++ (name ++ [0]) ++ s)) < 2 ^ 64 ->
  Z.of_nat (length name) + 1 + Z.of_nat (length s) <= buflen pr < 2 ^ 64 ->
  exists pr',
    sss_nss_getgr_readrep pr (hdr ++ (name ++ [0]) ++ s)
      (Z.of_nat (length (hdr ++ (name ++ [0]) ++ s)))
    = Done (EBADMSG, Z.of_nat (length (hdr ++ (name ++ [0]) ++ s)), pr').
Proof.
  intros Hh Hnf Hnfs Hlen Hb. unfold buflen in Hb.
  set (src := hdr ++ (name ++ [0]) ++ s) in *.
  assert (Z.of_nat (length src)
          = 12 + Z.of_nat (length name) + 1 + Z.of_nat (length s)) as Hl
    by (unfold src; rewrite !length_app; simpl; lia).
  unfold sss_nss_getgr_readrep.
  destruct (Z.ltb_spec (Z.of_nat (length src)) 21); [lia|].
  unfold src_read_int, loads.
  destruct (in_bounds src 0 8) eqn:E1; [|apply in_bounds_false in E1; lia].
  destruct (in_bounds src 8 4) eqn:E2; [|apply in_bounds_false in E2; lia].
  orun. run. cbv zeta. rewrite (wrap64_small (_ - 12)) by lia.
  set (slen := Z.of_nat (length src) - 12).
  assert (slen < 2 ^ 64) as Hslen by (unfold slen; lia).
  destruct (copy_field_string src slen Hslen name (S (length src)) (arena pr)
              0 (Z.of_nat (length (arena pr))))
    as (a1 & Hst1 & Hrun1);
    [done | | lia | unfold slen; lia | lia | lia | lia |].
  { eapply seg_at; [apply (seg_middle hdr (name ++ [0]) s)|lia]. }
  unfold buflen. rewrite Hrun1. run. clear Hrun1.
  destruct (Z.geb_spec (0 + Z.of_nat (length name)) slen); [unfold slen in *; lia|].
  destruct (Z.geb_spec 0 (Z.of_nat (length (arena pr)) - Z.of_nat (length name)));
    [lia|].
  unwrap.
  pose proof (stores_length _ _ _ _ Hst1) as Hl1.
  destruct (copy_field_no_nul src slen Hslen s (S (length src)) a1
              (0 + Z.of_nat (length name) + 1)
              (Z.of_nat (length (arena pr)) - Z.of_nat (length name) - 1))
    as (a2 & _ & Hrun2);
    [done | | lia | unfold slen; lia | lia | lia | lia |].
  { unfold src. rewrite app_assoc.
    eapply seg_at; [apply (seg_suffix (hdr ++ name ++ [0]) s)
                   |rewrite !length_app; simpl; lia].
    }
  rewrite Hrun2. run.
  destruct (Z.geb_spec slen slen); [|lia]. eauto.
Qed.

(** When the arena holds the name and the password of a well-formed record
    but not its member table, the decoder does not return ENOMEM: it stores
    the NULL sentinel outside the arena. *)
Lemma readrep_table_does_not_fit w rest pr :
  well_formed w ->
  Z.of_nat (length (w_members w)) + 1 < 2 ^ 32 ->
  21 <= Z.of_nat (length (encode w ++ rest)) < 2 ^ 64 ->
  table_off w <= buflen pr
    < table_off w + ptr_size * (Z.of_nat (length (w_members w)) + 1) ->
  buflen pr < 2 ^ 64 ->
  sss_nss_getgr_readrep pr (encode w ++ rest)
    (Z.of_nat (length (encode w ++ rest)))
  = Crash (OobArenaWrite
             (table_off w + ptr_size * Z.of_nat (length (w_members w)))).
Proof.
  intros (Hgid & Hname & Hpw & Hms & Hcnt) Hcnt1 Hlen Hneed Hb.
  destruct w as [gid name passwd ms]. cbn [w_gid w_name w_passwd w_members] in *.
  unfold buflen, table_off in *.
  cbn [w_gid w_name w_passwd w_members] in *.
  set (n := Z.of_nat (length ms)) in *.
  set (tbl := Z.of_nat (length name) + 1 + Z.of_nat (length passwd) + 1) in *.
  set (src := encode _ ++ rest) in *.
  assert (Z.of_nat (length src)
          = 12 + Z.of_nat (length (strings_of name passwd ms))
            + Z.of_nat (length rest)) as Hsrc.
  { unfold src. rewrite length_app, Nat2Z.inj_add, length_encode. done. }
  rewrite length_strings_of in *. pose proof (members_len_nonneg ms) as Hml.
  unfold ptr_size in *.
  assert (seg src 12 (strings_of name passwd ms)) as Hs_str.
  { unfold src, encode. cbn [w_gid w_members w_name w_passwd].
    rewrite (app_assoc (le_encode 8 gid)), <- (app_assoc (_ ++ _)).
    apply (seg_middle (le_encode 8 gid ++ le_encode 4 _)). }
  unfold strings_of in Hs_str.
  apply seg_app in Hs_str as [Hs_name Hs_str].
  apply seg_app in Hs_str as [Hs_pw _].
  unfold sss_nss_getgr_readrep.
  destruct (Z.ltb_spec (Z.of_nat (length src)) 21); [lia|].
  assert (src_read_int src 8 4 = Done n) as ->.
  { unfold src_read_int.
    assert (seg src 8 (le_encode 4 n)) as Hs_n.
    { unfold src, encode, n. cbn [w_gid w_members].
      rewrite <- (app_assoc (le_encode 8 gid)), <- (app_assoc (le_encode 4 _)).
      apply (seg_middle (le_encode 8 gid)). }
    apply seg_loads in Hs_n; [|lia|rewrite length_le_encode; lia].
    rewrite length_le_encode in Hs_n. change (Z.of_nat 4) with 4 in Hs_n.
    rewrite Hs_n. orun. by rewrite le_decode_encode_4 by lia. }
  unfold src_read_int at 1, loads.
  destruct (in_bounds src 0 8) eqn:E1; [|apply in_bounds_false in E1; lia].
  orun. run. cbv zeta.
  rewrite (wrap64_small (_ - 12)) by lia.
  set (slen := Z.of_nat (length src) - 12).
  assert (slen < 2 ^ 64) as Hslen by (unfold slen; lia).
  destruct (copy_field_string src slen Hslen name (S (length src)) (arena pr)
              0 (Z.of_nat (length (arena pr))))
    as (a1 & Hst1 & Hrun1);
    [done | done | lia | unfold slen; lia | unfold tbl in *; lia
    | unfold tbl in *; lia | lia |].
  unfold buflen. rewrite Hrun1. run. clear Hrun1.
  destruct (Z.geb_spec (0 + Z.of_nat (length name)) slen); [unfold slen in *; lia|].
  destruct (Z.geb_spec 0 (Z.of_nat (length (arena pr)) - Z.of_nat (length name)));
    [unfold tbl in *; lia|].
  unwrap.
  pose proof (stores_length _ _ _ _ Hst1) as Hl1.
  destruct (copy_field_string src slen Hslen passwd (S (length src)) a1
              (0 + Z.of_nat (length name) + 1)
              (Z.of_nat (length (arena pr)) - Z.of_nat (length name) - 1))
    as (a2 & Hst2 & Hrun2);
    [done | eapply seg_at; [exact Hs_pw | rewrite ?length_app; simpl; lia]
    | lia | unfold slen; lia | unfold tbl in *; lia | unfold tbl in *; lia | lia |].
  rewrite Hrun2. run. clear Hrun2.
  pose proof (stores_length _ _ _ _ Hst2) as Hl2.
  match goal with |- context [?x >=? slen] =>
    destruct (Z.geb_spec x slen); [unfold slen in *; lia|] end.
  match goal with |- context [0 >=? ?x] =>
    destruct (Z.geb_spec 0 x); [unfold tbl in *; lia|] end.
  rewrite table_check_dead.
  rewrite (wrap64_small (_ + 1)) by lia.
  replace (0 + Z.of_nat (length name) + 1 + Z.of_nat (length passwd) + 1)
    with tbl by (unfold tbl; lia).
  unfold arena_write_ptr, ptr_size.
  destruct (stores a2 (tbl + 8 * n) (le_encode 8 0)) as [a3|] eqn:Hst3; [|done].
  apply stores_Some in Hst3 as (_ & Hst3 & _).
  rewrite length_le_encode in Hst3. lia.
Qed.

End Decoding.

(** ** Facts on the operations *)

Module NssFacts.

Import Readrep Nss MachineFacts ReadrepFacts.

Lemma long_Done v : long_ok v -> long v = Done v.
Proof.
  intros [? ?]. unfold long.
  destruct (Z.leb_spec long_min v); [|lia].
  destruct (Z.leb_spec v long_max); [done | lia].
Qed.

Lemma make_request_success r (h : gmap nat (list Z)) :
  rp_status r = NSS_STATUS_SUCCESS ->
  exists blk, h !! blk = None /\
    sss_nss_make_request r h
    = (NSS_STATUS_SUCCESS, blk, Z.of_nat (length (rp_bytes r)), rp_errno r,
       <[blk := rp_bytes r]> h).
Proof.
  intros Hs. exists (fresh (dom h)). split.
  - apply not_elem_of_dom, is_fresh.
  - unfold sss_nss_make_request. by rewrite Hs.
Qed.

Lemma free_fresh (h : gmap nat (list Z)) blk b :
  h !! blk = None -> free (<[blk := b]> h) blk = Done h.
Proof.
  intros Hn. unfold free. rewrite lookup_insert_eq.
  by rewrite delete_insert_id.
Qed.

Lemma block_insert (h : gmap nat (list Z)) blk b :
  block (<[blk := b]> h) blk = Done b.
Proof. unfold block. by rewrite lookup_insert_eq. Qed.

Lemma reply_read_count (h : gmap nat (list Z)) blk b :
  4 <= Z.of_nat (length b) ->
  reply_read_int (<[blk := b]> h) blk 0 4 = Done (reply_count b).
Proof.
  intros Hb. unfold reply_read_int. rewrite block_insert. cbn.
  unfold loads. destruct (in_bounds b 0 4) eqn:E;
    [|apply in_bounds_false in E; lia].
  done.
Qed.

Lemma reply_read_id (h : gmap nat (list Z)) blk b j :
  h !! blk = Some b -> 0 <= j -> 8 + 8 * j + 8 <= Z.of_nat (length b) ->
  reply_read_int h blk (8 + 8 * j) 8 = Done (reply_id b j).
Proof.
  intros Hblk Hj Hb. unfold reply_read_int, block. rewrite Hblk. cbn.
  unfold loads. destruct (in_bounds b (8 + 8 * j) 8) eqn:E;
    [|apply in_bounds_false in E; lia].
  done.
Qed.

Lemma set_heap_same w : set_heap (heap w) w = w.
Proof. by destruct w. Qed.

Lemma set_heap_twice h h' w : set_heap h (set_heap h' w) = set_heap h w.
Proof. done. Qed.

(** The copy loop of lines 223-226 when the reply holds the ids it reads
    and the array the cells it writes. *)
Lemma copy_gids_spec (h : gmap nat (list Z)) repbuf b max_ret :
  h !! repbuf = Some b ->
  8 + 8 * max_ret <= Z.of_nat (length b) ->
  forall (n fuel : nat) l gl,
  Z.of_nat n = Z.max 0 (max_ret - l) -> (n < fuel)%nat -> 0 <= l ->
  0 <= start gl ->
  ((0 < n)%nat -> start gl + Z.of_nat n <= Z.of_nat (length (groups gl))) ->
  start gl + Z.of_nat n <= long_max ->
  exists gs,
    copy_gids fuel h repbuf max_ret l gl
      = Done (GidList gs (size gl) (start gl + Z.of_nat n)) /\
    length gs = length (groups gl) /\
    (forall j, 0 <= j < Z.of_nat n ->
       load gs (start gl + j) = Some (wrap32 (reply_id b (l + j)))) /\
    (forall j, j < start gl -> load gs j = load (groups gl) j).
Proof.
  intros Hblk Hb. induction n as [|n IH];
    intros fuel l gl Hn Hf Hl Hs Hg Hm;
    (destruct fuel as [|fuel]; [lia|]); cbn [copy_gids].
  - destruct (Z.ltb_spec l max_ret); [lia|].
    exists (groups gl). rewrite Z.add_0_r. destruct gl. split_and!; [done..|lia|done].
  - destruct (Z.ltb_spec l max_ret); [|lia].
    rewrite (reply_read_id h repbuf b l) by (done || lia). cbn.
    destruct (store (groups gl) (start gl) (wrap32 (reply_id b l))) as [g1|] eqn:Hst;
      [|apply store_None in Hst; lia].
    cbn. rewrite long_Done by (unfold long_ok, long_min, long_max in *; lia). cbn.
    pose proof (store_length _ _ _ _ Hst) as Hlen1.
    destruct (IH fuel (l + 1) (GidList g1 (size gl) (start gl + 1)))
      as (gs & Hrun & Hlen & Hnew & Hold); cbn [start groups size];
      [lia | lia | lia | lia | lia | lia |].
    cbn [start groups size] in Hrun, Hlen, Hnew, Hold.
    exists gs. split_and!.
    + rewrite Hrun. do 2 f_equal. lia.
    + congruence.
    + intros j Hj. destruct (decide (j = 0)) as [->|Hj0].
      * rewrite !Z.add_0_r. rewrite Hold by lia.
        by apply load_store_same in Hst.
      * specialize (Hnew (j - 1)).
        replace (start gl + 1 + (j - 1)) with (start gl + j) in Hnew by lia.
        replace (l + 1 + (j - 1)) with (l + j) in Hnew by lia.
        apply Hnew. lia.
    + intros j Hj. rewrite Hold by lia.
      eapply load_store_other; [exact Hst | lia].
Qed.

(** *** The cursor *)

Lemma has_leftovers_Some d blk :
  has_leftovers d = Some blk -> data d = Some blk /\ ptr d < len d.
Proof.
  unfold has_leftovers. destruct (data d); [|done].
  destruct (Z.ltb_spec (ptr d) (len d)); [|done]. by intros [= ->].
Qed.

Lemma getgrent_r_leftover chan w pr errnop blk :
  has_leftovers (sss_nss_getgrent_data w) = Some blk ->
  _nss_sss_getgrent_r chan w pr errnop = getgrent_leftover blk w pr errnop.
Proof. intros H. destruct chan; cbn [_nss_sss_getgrent_r]; by rewrite H. Qed.

Lemma make_request_cases r (h : gmap nat (list Z)) :
  let blk := fresh (dom h) in
  is_success (rp_status r) = true /\
    sss_nss_make_request r h
    = (rp_status r, blk, Z.of_nat (length (rp_bytes r)), rp_errno r,
       <[blk := rp_bytes r]> h) \/
  is_success (rp_status r) = false /\
    sss_nss_make_request r h = (rp_status r, blk, 0, rp_errno r, h).
Proof.
  unfold sss_nss_make_request. destruct (is_success (rp_status r)); eauto.
Qed.

Lemma clean_cursor w w' :
  sss_nss_getgrent_data_clean w = Done w' ->
  sss_nss_getgrent_data w' = Cursor 0 0 None.
Proof.
  unfold sss_nss_getgrent_data_clean. intros H.
  apply bind_Done in H as (h & _ & H). by simplify_eq.
Qed.

(** Whatever the state at the call, [_nss_sss_getgrent_r] returns with
    offset <= length (and both within [size_t]). *)
Lemma getgrent_r_inv chan : forall w pr errnop s e pr' w',
  Forall (fun r => Z.of_nat (length (rp_bytes r)) < 2 ^ 64) chan ->
  cursor_wf (sss_nss_getgrent_data w) ->
  Z.of_nat (length (arena pr)) < 2 ^ 64 ->
  _nss_sss_getgrent_r chan w pr errnop = Done (s, e, pr', w') ->
  cursor_inv (sss_nss_getgrent_data w') /\ cursor_wf (sss_nss_getgrent_data w').
Proof.
  induction chan as [|r chan IH]; intros w pr errnop s e pr' w' Hchan Hwf Hb H;
    destruct (has_leftovers (sss_nss_getgrent_data w)) as [blk|] eqn:Hleft.
  1,3: rewrite (getgrent_r_leftover _ _ _ _ _ Hleft) in H;
    pose proof (has_leftovers_Some _ _ Hleft) as [Hdata Hlt];
    destruct Hwf as [Hlen Hptr];
    unfold getgrent_leftover in H;
    apply bind_Done in H as (b & _ & H);
    rewrite (wrap64_small (_ - _)) in H by lia;
    apply bind_Done in H as ([[ret replen'] pr1] & Hrun & H);
    apply readrep_len in Hrun as (_ & _ & _ & Hok); [|lia|done];
    (destruct (Z.eqb_spec ret 0) as [->|Hret]; cbn [negb] in H;
     [destruct (Hok eq_refl) as [? ?]; rewrite wrap64_small in H by lia
     |]; simplify_eq; unfold cursor_inv, cursor_wf; cbn; rewrite ?Hdata;
     split; lia).
  - cbn [_nss_sss_getgrent_r] in H. rewrite Hleft in H.
    by apply bind_Done in H as (w1 & _ & H).
  - cbn [_nss_sss_getgrent_r] in H. rewrite Hleft in H.
    apply bind_Done in H as (w1 & Hclean%clean_cursor & H).
    apply Forall_cons in Hchan as [Hr Hchan].
    destruct (make_request_cases r (heap w1)) as [[Es Hreq]|[Es Hreq]];
      rewrite Hreq, Es in H; cbn [negb] in H.
    + apply bind_Done in H as (n & _ & H).
      destruct ((n =? 0) || _).
      * apply bind_Done in H as (h & _ & H). simplify_eq. cbn.
        rewrite Hclean. unfold cursor_inv, cursor_wf. cbn. lia.
      * apply IH in H; [done | done | | done].
        unfold cursor_wf. cbn. lia.
    + simplify_eq. rewrite Hclean. unfold cursor_inv, cursor_wf. cbn. lia.
Qed.

End NssFacts.

(** * The properties of the specification *)

Import Readrep Nss Samples MachineFacts ReadrepFacts Decoding NssFacts.

(** ** Membership expansion *)

(** C8. When the array has to grow and realloc fails, the call returns
    NSS_STATUS_TRYAGAIN with ENOMEM in [*errnop]; the caller's array, its
    size and its start index are what they were, no id was appended, and
    the reply buffer has been freed (the state is the one before the
    call). *)
Theorem initgroups_realloc_failure r w gl limit errnop :
  rp_status r = NSS_STATUS_SUCCESS ->
  4 <= Z.of_nat (length (rp_bytes r)) ->
  reply_count (rp_bytes r) <> 0 ->
  size gl - start gl < reply_count (rp_bytes r) ->
  long_ok (size gl - start gl) ->
  long_ok (size gl + reply_count (rp_bytes r)) ->
  long_ok (limit - start gl) ->
  _nss_sss_initgroups_dyn r ReallocNull w gl limit errnop
  = Done (NSS_STATUS_TRYAGAIN, ENOMEM, gl, w).
Proof.
  intros Hs Hb Hn Hroom Hl1 Hl2 Hl3. unfold _nss_sss_initgroups_dyn.
  destruct (make_request_success r (heap w) Hs) as (blk & Hfresh & ->).
  cbn [is_success negb].
  rewrite reply_read_count by done. run.
  destruct (Z.eqb_spec (reply_count (rp_bytes r)) 0); [done|].
  rewrite (long_Done _ Hl1). run.
  destruct (Z.ltb_spec (size gl - start gl) (reply_count (rp_bytes r))); [|lia].
  rewrite (long_Done _ Hl2). run.
  destruct ((limit >? 0) && (size gl + reply_count (rp_bytes r) >? limit));
    [rewrite (long_Done _ Hl3)|]; run; cbn [realloc]; run;
    cbn [heap set_heap]; rewrite free_fresh by done; run;
    by rewrite set_heap_twice, set_heap_same.
Qed.

Lemma initgroups_realloc_failure_witness :
  _nss_sss_initgroups_dyn (reply_of 10 (gids 10)) ReallocNull idle
    (GidList [1; 2; 3; 0; 0] 5 3) 6 0
  = Done (NSS_STATUS_TRYAGAIN, ENOMEM, GidList [1; 2; 3; 0; 0] 5 3, idle).
Proof.
  apply (initgroups_realloc_failure (reply_of 10 (gids 10)) idle
           (GidList [1; 2; 3; 0; 0] 5 3) 6 0);
    vm_compute; (reflexivity || (split; discriminate) || discriminate).
Defined.

(** C4, as stated, fails: with size = 10, start = 0, limit = 5 and a reply
    of 8 ids the array has room for the 8 ids, nothing is clamped, all 8
    are appended and [start] becomes 8, while max(0, limit - start) is 5. *)
Lemma initgroups_limit_not_applied :
  let gl := GidList (replicate 10 0) 10 0 in
  let limit := 5 in
  limit > 0 /\ size gl + 8 > limit /\ Z.max 0 (limit - start gl) = 5 /\
  exists gs w,
    _nss_sss_initgroups_dyn (reply_of 8 (gids 8)) (ReallocOk 0) idle gl limit 0
    = Done (NSS_STATUS_SUCCESS, 0, GidList gs 10 8, w) /\
    gs = [1000; 1001; 1002; 1003; 1004; 1005; 1006; 1007; 0; 0].
Proof.
  cbv zeta. split_and!; [done | done | done |].
  eexists _, _. split; [vm_compute; reflexivity | reflexivity].
Qed.

(** Where the clamp leaves more than the reply holds, the loop of line 223
    reads past the ids of the reply: size = 5, start = 0, limit = 12 and a
    reply of 10 ids make [max_ret] 12, and the eleventh id is read at
    offset 88 of a reply of 88 bytes. *)
Lemma initgroups_reads_past_reply :
  _nss_sss_initgroups_dyn (reply_of 10 (gids 10)) (ReallocOk 0) idle
    (GidList (replicate 5 0) 5 0) 12 0
  = Crash (OobReply 88).
Proof. vm_compute. reflexivity. Qed.

(** C4, amended.  When the array must grow for the reply ([size - start] is
    less than the count), [limit > 0], [size + count] exceeds [limit], the
    reply holds at least [limit - start] ids and realloc succeeds: the
    array is resized to [limit] cells, exactly max(0, limit - start) ids
    are appended at the indices from [start] on, narrowed to 32 bits,
    [start] advances by that number, the cells below [start] are kept and
    the call returns NSS_STATUS_SUCCESS. *)
Theorem initgroups_clamp r fill w gl limit errnop :
  rp_status r = NSS_STATUS_SUCCESS ->
  0 < reply_count (rp_bytes r) ->
  8 + 8 * reply_count (rp_bytes r) <= Z.of_nat (length (rp_bytes r)) ->
  Z.of_nat (length (groups gl)) = size gl -> 0 <= start gl <= size gl ->
  0 < limit < 2 ^ 62 ->
  size gl - start gl < reply_count (rp_bytes r) ->
  size gl + reply_count (rp_bytes r) > limit ->
  limit - start gl <= reply_count (rp_bytes r) ->
  long_ok (size gl + reply_count (rp_bytes r)) ->
  exists gs w',
    _nss_sss_initgroups_dyn r (ReallocOk fill) w gl limit errnop
    = Done (NSS_STATUS_SUCCESS, rp_errno r,
            GidList gs limit (start gl + Z.max 0 (limit - start gl)), w') /\
    Z.of_nat (length gs) = limit /\
    (forall j, 0 <= j < Z.max 0 (limit - start gl) ->
       load gs (start gl + j) = Some (wrap32 (reply_id (rp_bytes r) j))) /\
    (forall j, j < start gl -> j < limit -> load gs j = load (groups gl) j).
Proof.
  intros Hs Hn Hb Hg Hst Hlim Hroom Hover Hfit Hl2.
  unfold _nss_sss_initgroups_dyn.
  destruct (make_request_success r (heap w) Hs) as (blk & Hfresh & ->).
  cbn [is_success negb].
  rewrite reply_read_count by lia. run.
  set (count := reply_count (rp_bytes r)) in *.
  destruct (Z.eqb_spec count 0); [lia|].
  assert (long_ok (size gl - start gl)) as Hl1
    by (unfold long_ok, long_min, long_max in *; lia).
  assert (long_ok (limit - start gl)) as Hl3
    by (unfold long_ok, long_min, long_max in *; lia).
  rewrite (long_Done _ Hl1). run.
  destruct (Z.ltb_spec (size gl - start gl) count); [|lia].
  rewrite (long_Done _ Hl2). run.
  destruct (Z.gtb_spec limit 0); [|lia].
  destruct (Z.gtb_spec (size gl + count) limit); [|lia].
  cbn [andb]. rewrite (long_Done _ Hl3). run. cbn [realloc]. run.
  unfold gid_size. rewrite (wrap64_small limit), (wrap64_small (limit * 4)) by lia.
  rewrite Z.div_mul by done.
  set (g0 := take (Z.to_nat limit) (groups gl)
             ++ replicate (Z.to_nat limit - length (groups gl)) fill).
  assert (Z.of_nat (length g0) = limit) as Hg0.
  { unfold g0. rewrite length_app, length_take, length_replicate. lia. }
  destruct (copy_gids_spec (<[blk := rp_bytes r]> (heap w)) blk (rp_bytes r)
              (limit - start gl) (lookup_insert_eq _ _ _) ltac:(lia)
              (Z.to_nat (limit - start gl)) (S (Z.to_nat (limit - start gl)))
              0 (GidList g0 limit (start gl)))
    as (gs & Hrun & Hlen & Hnew & Hold); cbn [start groups size];
    [lia | lia | lia | lia | lia | unfold long_ok, long_max in *; lia |].
  cbn [start groups size] in Hrun, Hlen, Hnew, Hold.
  rewrite Hrun. run.
  replace (Z.of_nat (Z.to_nat (limit - start gl)))
    with (Z.max 0 (limit - start gl)) in * by lia.
  eexists gs, _. split_and!; [done | lia | exact Hnew |].
  intros j Hj Hjl. rewrite Hold by done. unfold g0, load, in_bounds.
  rewrite length_app, length_take, length_replicate.
  destruct (Z.leb_spec 0 j); cbn [andb]; [|done].
  destruct (Z.leb_spec (j + 1) (Z.of_nat (length (groups gl))));
    destruct (Z.leb_spec (j + 1)
      (Z.of_nat (Z.to_nat limit `min` length (groups gl)
                 + (Z.to_nat limit - length (groups gl))))); try lia.
  rewrite lookup_app_l by (rewrite length_take; lia).
  apply lookup_take_lt. lia.
Qed.

(** The example of the specification: size = 5, start = 3, limit = 6 and a
    reply of 10 ids; 3 ids land at the indices 3, 4 and 5 and [start]
    becomes 6. *)
Lemma initgroups_clamp_witness :
  (exists gs w',
     _nss_sss_initgroups_dyn (reply_of 10 (gids 10)) (ReallocOk 0) idle
       (GidList [1; 2; 3; 0; 0] 5 3) 6 0
     = Done (NSS_STATUS_SUCCESS, 0, GidList gs 6 (3 + Z.max 0 (6 - 3)), w') /\
     Z.of_nat (length gs) = 6 /\
     (forall j, 0 <= j < Z.max 0 (6 - 3) ->
        load gs (3 + j)
        = Some (wrap32 (reply_id (rp_bytes (reply_of 10 (gids 10))) j))) /\
     (forall j, j < 3 -> j < 6 -> load gs j = load [1; 2; 3; 0; 0] j)) /\
  (exists w',
     _nss_sss_initgroups_dyn (reply_of 10 (gids 10)) (ReallocOk 0) idle
       (GidList [1; 2; 3; 0; 0] 5 3) 6 0
     = Done (NSS_STATUS_SUCCESS, 0,
             GidList [1; 2; 3; 1000; 1001; 1002] 6 6, w')).
Proof.
  split; [|eexists; vm_compute; reflexivity].
  apply (initgroups_clamp (reply_of 10 (gids 10)) 0 idle
           (GidList [1; 2; 3; 0; 0] 5 3) 6 0);
    vm_compute; (reflexivity || (split; (reflexivity || discriminate))
                 || discriminate).
Defined.

(** ** The reply decoder *)

(** C10. A source slice of less than 21 bytes is rejected with EBADMSG at
    once: the result does not depend on a single byte of the slice (none is
    read, whatever the slice holds), [*len] and the caller's structure and
    arena are returned as they were.  This includes the complete minimal
    record (empty name, empty password, no member), which has 14 bytes. *)
Theorem readrep_below_floor pr buf :
  Z.of_nat (length buf) < 21 ->
  sss_nss_getgr_readrep pr buf (Z.of_nat (length buf))
  = Done (EBADMSG, Z.of_nat (length buf), pr) /\
  forall gid,
    length (encode (Wire gid [] [] [])) = 14%nat /\
    sss_nss_getgr_readrep pr (encode (Wire gid [] [] [])) 14
    = Done (EBADMSG, 14, pr).
Proof.
  intros H. unfold sss_nss_getgr_readrep.
  destruct (Z.ltb_spec (Z.of_nat (length buf)) 21); [|lia].
  split; [done|]. intros gid. split; [|done].
  unfold encode. by rewrite !length_app, !length_le_encode.
Qed.

Lemma readrep_below_floor_witness :
  sss_nss_getgr_readrep (caller 64) (take 20 wheel_bytes)
    (Z.of_nat (length (take 20 wheel_bytes)))
  = Done (EBADMSG, Z.of_nat (length (take 20 wheel_bytes)), caller 64).
Proof.
  apply (readrep_below_floor (caller 64) (take 20 wheel_bytes)).
  vm_compute. reflexivity.
Defined.

(** C1, failing input.  The 31 bytes of the example record and an arena of
    10 bytes: name and password fit, the table of three pointers does not.
    [dlen -= ptmem] wraps, the unsigned test of line 132 cannot fire, and
    line 136 stores the NULL sentinel at the offsets 24 to 31 of an arena
    of 10 bytes, where the claim asks ENOMEM. *)
Theorem readrep_table_overflow :
  buflen (caller 10) = 10 /\
  sss_nss_getgr_readrep (caller 10) wheel_bytes 31 = Crash (OobArenaWrite 24).
Proof. split; vm_compute; reflexivity. Qed.

(** C2, failing input.  The example record cut after "ali", three bytes
    into its last member: the decoder returns 0 and reports that nothing
    remains, where the claim asks EBADMSG. *)
Theorem readrep_truncated_member :
  take 28 wheel_bytes ++ [99; 101; 0] = wheel_bytes /\
  exists pr',
    sss_nss_getgr_readrep (caller 64) (take 28 wheel_bytes) 28
    = Done (0, 0, pr').
Proof. split; [done|]. eexists. vm_compute. reflexivity. Qed.

(** C9, failing input.  On the same cut record the decoder succeeds and
    has consumed 28 bytes; the record it hands to the caller has the name
    "wheel", the password "x" and the members "root" and "ali", whose
    lengths with their terminators and the 12 header bytes make 29. *)
Theorem readrep_truncated_consumed :
  exists len' pr',
    sss_nss_getgr_readrep (caller 64) (take 28 wheel_bytes) 28
    = Done (0, len', pr') /\
    28 - len' = 28 /\
    read_group pr' = Some (Wire 10 wheel x_passwd [root; [97; 108; 105]]) /\
    12 + Z.of_nat (length (strings_of wheel x_passwd [root; [97; 108; 105]]))
    = 29.
Proof.
  eexists _, _. split; [vm_compute; reflexivity|].
  split_and!; vm_compute; reflexivity.
Qed.

(** C3, as stated, fails: the well-formed record with the name "wheel",
    the password "x" and no member has 20 bytes on the wire; decoded into
    an arena of 64 bytes, which is more than the 16 it needs, it is
    rejected by the floor of line 84. *)
Lemma readrep_rejects_short_record :
  let w := Wire 10 wheel x_passwd [] in
  well_formed w /\ arena_need w = 16 /\ buflen (caller 64) = 64 /\
  Z.of_nat (length (encode w)) = 20 /\
  sss_nss_getgr_readrep (caller 64) (encode w) (Z.of_nat (length (encode w)))
  = Done (EBADMSG, 20, caller 64).
Proof.
  cbv zeta. split_and!; try (vm_compute; reflexivity).
  apply (bool_decide_unpack _). vm_compute. reflexivity.
Qed.

(** C3, amended.  A well-formed record with fewer than 2^32 - 1 members,
    at the start of a source slice of at least 21 bytes (the record and
    what follows it), decoded into an arena that has room for its strings
    and its table of (member count + 1) pointers: the decoder succeeds and
    leaves what follows the record.  The caller reads back the gid narrowed
    to 32 bits and the name, the password and the members of the record;
    written one after the other with their terminators they are the bytes
    of the source after the header, and the slot after the last member
    holds NULL. *)
Theorem readrep_roundtrip w rest pr :
  well_formed w ->
  Z.of_nat (length (w_members w)) + 1 < 2 ^ 32 ->
  21 <= Z.of_nat (length (encode w ++ rest)) < 2 ^ 64 ->
  arena_need w <= buflen pr ->
  0 < buffer pr -> buffer pr + buflen pr <= 2 ^ 64 ->
  exists pr' g,
    sss_nss_getgr_readrep pr (encode w ++ rest)
      (Z.of_nat (length (encode w ++ rest)))
    = Done (0, Z.of_nat (length rest), pr') /\
    read_group pr' = Some g /\
    g = Wire (wrap32 (w_gid w)) (w_name w) (w_passwd w) (w_members w) /\
    strings_of (w_name g) (w_passwd g) (w_members g)
    = take (length (encode w) - 12) (drop 12 (encode w ++ rest)) /\
    ptr_at pr' (gr_mem (result pr')
                + ptr_size * Z.of_nat (length (w_members g))) = Some 0.
Proof.
  intros Hwf Hcnt Hlen Hneed Hbase Htop.
  destruct (readrep_well_formed w rest pr Hwf Hcnt Hlen ltac:(lia))
    as (a' & Hrun & Hla & Hname & Hpw & Htab & Hnull).
  destruct Hwf as (Hgid & Hnf_name & Hnf_pw & Hnf_ms & _).
  pose proof (length_strings_of (w_name w) (w_passwd w) (w_members w)) as Hstr.
  pose proof (members_len_nonneg (w_members w)) as Hml.
  unfold arena_need, buflen, ptr_size in *.
  eexists _, _. split; [exact Hrun|].
  split_and!; [|reflexivity|..]; cbn [w_name w_passwd w_members].
  - unfold read_group. cbn [result gr_name gr_passwd gr_mem gr_gid arena].
    rewrite (cstr_seg _ _ _ 0 (w_name w)) by done. orun.
    rewrite (cstr_seg _ _ _ _ (w_passwd w)) by done. orun.
    replace (table_off w) with (table_off w + ptr_size * 0) by (unfold ptr_size; lia).
    rewrite (cstr_array_table _ _ _ _ (w_members w) _ 0
               (table_off w + ptr_size * (Z.of_nat (length (w_members w)) + 1)));
      [done | done | done | done | done
      | unfold table_off, ptr_size; lia
      | unfold table_off, ptr_size; lia
      | unfold table_off, ptr_size in *; lia].
  - replace (length (encode w) - 12)%nat
      with (length (strings_of (w_name w) (w_passwd w) (w_members w)))
      by (pose proof (length_encode w); lia).
    unfold encode. rewrite <- !app_assoc, (app_assoc (le_encode 8 _)).
    rewrite drop_app_length' by (by rewrite length_app, !length_le_encode).
    by rewrite take_app_length.
  - cbn [result gr_mem]. unfold ptr_size. rewrite <- Z.add_assoc.
    apply ptr_at_seg; [done | lia].
Qed.

Lemma readrep_roundtrip_witness :
  exists pr' g,
    sss_nss_getgr_readrep (caller 64) (encode wheel_group ++ [])
      (Z.of_nat (length (encode wheel_group ++ [])))
    = Done (0, Z.of_nat (length (@nil Z)), pr') /\
    read_group pr' = Some g /\
    g = Wire (wrap32 10) wheel x_passwd [root; alice] /\
    strings_of (w_name g) (w_passwd g) (w_members g)
    = take (length (encode wheel_group) - 12)
        (drop 12 (encode wheel_group ++ [])) /\
    ptr_at pr' (gr_mem (result pr')
                + ptr_size * Z.of_nat (length (w_members g))) = Some 0.
Proof.
  apply (readrep_roundtrip wheel_group [] (caller 64)).
  - apply (bool_decide_unpack _). vm_compute. reflexivity.
  - vm_compute. reflexivity.
  - vm_compute. split; [discriminate | reflexivity].
  - vm_compute. discriminate.
  - vm_compute. reflexivity.
  - vm_compute. discriminate.
Defined.

(** ** Lookups by name and by id *)

(** C5, failing input.  A reply that announces two results, to a lookup by
    name and to a lookup by id: both return NSS_STATUS_TRYAGAIN with
    EBADMSG (lines 262-265 and 310-313) and the reply buffer, block 0, is
    still live in the heap afterwards, with nothing left that refers to
    it.  The paths before and after these lines free it. *)
Theorem lookup_ambiguous_leak :
  exists pr w,
    _nss_sss_getgrnam_r wheel (reply_of 2 []) idle (caller 64) 0
    = Done (NSS_STATUS_TRYAGAIN, EBADMSG, pr, w) /\
    _nss_sss_getgrgid_r 10 (reply_of 2 []) idle (caller 64) 0
    = Done (NSS_STATUS_TRYAGAIN, EBADMSG, pr, w) /\
    heap idle !! 0%nat = None /\
    heap w !! 0%nat = Some (rp_bytes (reply_of 2 [])) /\
    data (sss_nss_getgrent_data w) = None.
Proof.
  eexists _, _. split; [vm_compute; reflexivity|].
  split_and!; vm_compute; reflexivity.
Qed.

(** ** The enumeration cursor *)

(** C6, as stated, fails.  An Active batch whose offset equals its length
    is exhausted: the call frees it, fetches the next batch and stores it
    with the offset behind its header (lines 380-402) before the recursive
    call decodes the first record.  When that decode fails (here ENOMEM, the
    arena has 4 bytes) the call returns with the new batch in the cursor:
    buffer, length and offset are not what they were before the call. *)
Theorem getgrent_exhausted_batch_decode_failure :
  let old := rp_bytes (reply_of 1 wheel_bytes) in
  let r := reply_of 2 (wheel_bytes ++ wheel_bytes) in
  let w := World (<[0%nat := old]> ∅) (Cursor 39 39 (Some 0%nat)) 0 in
  cursor_inv (sss_nss_getgrent_data w) /\
  exists pr',
    _nss_sss_getgrent_r [r] w (caller 4) 0
    = Done (NSS_STATUS_TRYAGAIN, ENOMEM, pr',
            World (<[0%nat := rp_bytes r]> ∅) (Cursor 70 8 (Some 0%nat)) 0) /\
    rp_bytes r <> old.
Proof.
  cbv zeta. split; [unfold cursor_inv; cbn; lia|].
  eexists. split; [vm_compute; reflexivity|]. discriminate.
Qed.

(** C6, amended.  A call of [_nss_sss_getgrent_r] on an Active batch that
    has bytes left (offset < length) decodes the record at the offset.  If
    the decoder returns an error, the call returns NSS_STATUS_TRYAGAIN with
    that error and the state of the process, cursor included (buffer,
    length, offset), is the one before the call.  If the decoder succeeds,
    the call returns NSS_STATUS_SUCCESS, the buffer and the length are kept
    and the offset has advanced by the bytes the decoder consumed, which
    are at least 12 and at most what the batch had left. *)
Theorem getgrent_decode_failure chan w pr errnop blk b ret replen' pr' :
  cursor_wf (sss_nss_getgrent_data w) ->
  Z.of_nat (length (arena pr)) < 2 ^ 64 ->
  let d := sss_nss_getgrent_data w in
  data d = Some blk -> ptr d < len d ->
  heap w !! blk = Some b ->
  sss_nss_getgr_readrep pr (drop (Z.to_nat (ptr d)) b) (len d - ptr d)
  = Done (ret, replen', pr') ->
  (ret <> 0 ->
     _nss_sss_getgrent_r chan w pr errnop
     = Done (NSS_STATUS_TRYAGAIN, ret, pr', w)) /\
  (ret = 0 ->
     let consumed := (len d - ptr d) - replen' in
     _nss_sss_getgrent_r chan w pr errnop
     = Done (NSS_STATUS_SUCCESS, errnop, pr',
             World (heap w) (Cursor (len d) (ptr d + consumed) (Some blk))
                   (errno w)) /\
     12 <= consumed <= len d - ptr d).
Proof.
  intros [Hlen Hptr] Hb d Hdata Hlt Hblk Hrun. fold d in Hlen, Hptr.
  assert (has_leftovers (sss_nss_getgrent_data w) = Some blk) as Hleft.
  { unfold has_leftovers. fold d. rewrite Hdata.
    by destruct (Z.ltb_spec (ptr d) (len d)); [|lia]. }
  rewrite (getgrent_r_leftover _ _ _ _ _ Hleft).
  unfold getgrent_leftover, block. rewrite Hblk. run. fold d.
  rewrite (wrap64_small (len d - ptr d)) by lia. rewrite Hrun. run.
  apply readrep_len in Hrun as (_ & _ & Herr & Hok); [|lia|done].
  split.
  - intros Hret. by destruct (Z.eqb_spec ret 0).
  - intros ->. cbn [Z.eqb negb]. cbv zeta.
    destruct (Hok eq_refl) as [? ?].
    rewrite wrap64_small by lia. rewrite Hdata.
    split; [|lia]. unfold set_cursor. do 4 f_equal. lia.
Qed.

(** A batch of two records with the offset at the first.  With an arena of
    4 bytes the decoder returns ENOMEM and the state is the one before the
    call; with an arena of 64 bytes the first record is returned and the
    offset goes from 8 to 39, the 31 bytes of the record. *)
Lemma getgrent_decode_failure_witness :
  let b := rp_bytes (reply_of 2 (wheel_bytes ++ wheel_bytes)) in
  let w := World (<[0%nat := b]> ∅) (Cursor 70 8 (Some 0%nat)) 0 in
  _nss_sss_getgrent_r [] w (caller 4) 5
    = Done (NSS_STATUS_TRYAGAIN, ENOMEM,
            Rep (Group 4096 0 10 0) 4096 [119; 104; 101; 101], w) /\
  exists pr',
    _nss_sss_getgrent_r [] w (caller 64) 5
    = Done (NSS_STATUS_SUCCESS, 5, pr',
            World (<[0%nat := b]> ∅) (Cursor 70 39 (Some 0%nat)) 0) /\
    read_group pr' = Some wheel_group.
Proof.
  cbv zeta. split.
  - refine (proj1 (getgrent_decode_failure [] _ (caller 4) 5 0%nat
                     (rp_bytes (reply_of 2 (wheel_bytes ++ wheel_bytes)))
                     ENOMEM 62
                     (Rep (Group 4096 0 10 0) 4096 [119; 104; 101; 101])
                     _ _ _ _ _ _) _).
    + vm_compute. repeat split; (reflexivity || discriminate).
    + vm_compute. reflexivity.
    + reflexivity.
    + reflexivity.
    + vm_compute. reflexivity.
    + vm_compute. reflexivity.
    + discriminate.
  - eexists. split.
    + refine (proj1 (proj2 (getgrent_decode_failure [] _ (caller 64) 5 0%nat
                       (rp_bytes (reply_of 2 (wheel_bytes ++ wheel_bytes)))
                       0 31 _ _ _ _ _ _ _) eq_refl)).
      * vm_compute. repeat split; (reflexivity || discriminate).
      * vm_compute. reflexivity.
      * reflexivity.
      * reflexivity.
      * vm_compute. reflexivity.
      * vm_compute. reflexivity.
    + vm_compute. reflexivity.
Defined.

(** C7, as stated, fails: a reply of 4 bytes that announces one result
    passes the test of line 395 ([replen - 8] wraps and is not 0) and the
    batch is stored with length 4 and offset 8.  The call that follows
    finds no leftovers, frees it and asks for the next batch. *)
Lemma store_batch_short_reply :
  let bytes := [1; 0; 0; 0] in
  (reply_count bytes =? 0) || (wrap64 (Z.of_nat (length bytes) - 8) =? 0)
    = false /\
  ~ cursor_inv (sss_nss_getgrent_data
                  (store_batch 0 (Z.of_nat (length bytes)) idle)) /\
  _nss_sss_getgrent_r
    [Reply NSS_STATUS_SUCCESS 0 bytes; Reply NSS_STATUS_UNAVAIL 5 []]
    idle (caller 64) 0
  = Done (NSS_STATUS_UNAVAIL, 5, caller 64, idle).
Proof.
  cbv zeta. split_and!.
  - vm_compute. reflexivity.
  - unfold cursor_inv. cbn. lia.
  - vm_compute. reflexivity.
Qed.

(** C7, amended.  Each operation on the cursor returns with
    offset <= length in the Active state: [_nss_sss_setgrent] and
    [_nss_sss_endgrent] leave it Closed, [_nss_sss_getgrent_r] leaves it
    Closed or Active with the offset at most the length.  The store of a
    fresh batch (lines 400-402, offset 8) keeps the invariant when the
    reply length reported by the channel is at least the 8 bytes of the
    batch header. *)
Theorem enumeration_cursor_invariant chan r w pr errnop repbuf replen :
  cursor_wf (sss_nss_getgrent_data w) ->
  Forall (fun r => Z.of_nat (length (rp_bytes r)) < 2 ^ 64) chan ->
  Z.of_nat (length (arena pr)) < 2 ^ 64 ->
  (forall s w', _nss_sss_setgrent r w = Done (s, w') ->
     cursor_inv (sss_nss_getgrent_data w')) /\
  (forall s w', _nss_sss_endgrent r w = Done (s, w') ->
     cursor_inv (sss_nss_getgrent_data w')) /\
  (forall s e pr' w',
     _nss_sss_getgrent_r chan w pr errnop = Done (s, e, pr', w') ->
     cursor_inv (sss_nss_getgrent_data w')) /\
  (8 <= replen ->
     cursor_inv (sss_nss_getgrent_data (store_batch repbuf replen w))).
Proof.
  intros Hwf Hchan Hb. split_and!.
  - intros s w' H. unfold _nss_sss_setgrent in H.
    apply bind_Done in H as (w1 & Hclean%clean_cursor & H).
    unfold sss_nss_make_request_nobuf in H. revert H.
    destruct (is_success (rp_status r)); cbn [negb]; intros H;
      simplify_eq; cbn; by rewrite Hclean.
  - intros s w' H. unfold _nss_sss_endgrent in H.
    apply bind_Done in H as (w1 & Hclean%clean_cursor & H).
    unfold sss_nss_make_request_nobuf in H. revert H.
    destruct (is_success (rp_status r)); cbn [negb]; intros H;
      simplify_eq; cbn; by rewrite Hclean.
  - intros s e pr' w' H. by eapply getgrent_r_inv.
  - intros H. unfold cursor_inv. cbn. done.
Qed.

(** A first call on a fresh enumeration: the batch with the example record
    is fetched and stored, the record is decoded and the cursor is Active
    at offset 39 of 39. *)
Lemma enumeration_cursor_invariant_witness :
  exists pr' w',
    _nss_sss_getgrent_r [reply_of 1 wheel_bytes] idle (caller 64) 0
    = Done (NSS_STATUS_SUCCESS, 0, pr', w') /\
    sss_nss_getgrent_data w' = Cursor 39 39 (Some 0%nat) /\
    cursor_inv (sss_nss_getgrent_data w') /\
    cursor_inv (sss_nss_getgrent_data (store_batch 0 39 idle)).
Proof.
  eexists _, _. split; [vm_compute; reflexivity|]. split; [reflexivity|].
  assert (cursor_wf (sss_nss_getgrent_data idle)) as Hwf
    by (vm_compute; repeat split; (reflexivity || discriminate)).
  assert (Forall (fun r => Z.of_nat (length (rp_bytes r)) < 2 ^ 64)
            [reply_of 1 wheel_bytes]) as Hchan
    by (repeat constructor).
  assert (Z.of_nat (length (arena (caller 64))) < 2 ^ 64) as Hb
    by (vm_compute; reflexivity).
  destruct (enumeration_cursor_invariant [reply_of 1 wheel_bytes]
              (Reply NSS_STATUS_SUCCESS 0 []) idle (caller 64) 0 0%nat 39
              Hwf Hchan Hb) as (_ & _ & Hnext & Hstore).
  split.
  - eapply Hnext. vm_compute. reflexivity.
  - apply Hstore. vm_compute. discriminate.
Defined.

(** * Further properties of the code *)

(** ** The decoder at its edges *)

Module DecoderEdges.

Import Readrep Callers MachineFacts ReadrepFacts Decoding.

(** The decoder returns 0, EBADMSG or ENOMEM and nothing else. *)
Lemma readrep_codes pr buf len ret len' pr' :
  sss_nss_getgr_readrep pr buf len = Done (ret, len', pr') ->
  0 <= len < 2 ^ 64 ->
  Z.of_nat (length (arena pr)) < 2 ^ 64 ->
  ret = 0 \/ ret = EBADMSG \/ ret = ENOMEM.
Proof.
  intros H Hlen Hb. unfold sss_nss_getgr_readrep in H.
  destruct (Z.ltb_spec len 21) as [Hlt|Hge]; [simplify_eq; auto|].
  cbv zeta in H.
  apply bind_Done in H as (gid & _ & H).
  apply bind_Done in H as (mem_num & _ & H).
  rewrite (wrap64_small (len - 12)) in H by lia.
  apply bind_Done in H as ([[a1 i1] dlen1] & Hc1 & H).
  apply copy_field_inv in Hc1 as (? & ? & ?); [|unfold buflen; lia..].
  unfold buflen in *.
  destruct (Z.geb_spec i1 (len - 12)); [simplify_eq; auto|].
  destruct (Z.geb_spec 0 dlen1); [simplify_eq; auto|].
  rewrite (wrap64_small (i1 + 1)), (wrap64_small (dlen1 - 1)) in H by lia.
  apply bind_Done in H as ([[a2 i2] dlen2] & Hc2 & H).
  apply copy_field_inv in Hc2 as (? & ? & ?); [|lia..].
  destruct (Z.geb_spec i2 (len - 12)); [simplify_eq; auto|].
  destruct (Z.geb_spec 0 dlen2); [simplify_eq; auto|].
  rewrite (wrap64_small (i2 + 1)) in H by lia.
  rewrite table_check_dead in H.
  apply bind_Done in H as (a3 & _ & H).
  apply bind_Done in H as ([[r a4] i4] & Hc4 & H).
  apply read_members_inv in Hc4 as (-> & ? & ?);
    [|lia|lia|apply wrap64_range].
  simplify_eq. auto.
Qed.

Section NoRoom.
Variables (buf : list Z) (slen : Z).
Hypothesis slen_range : slen < 2 ^ 64.

(** The loop of the name and of the password when the arena ends before
    the terminator is met: it stops with [dlen] = 0. *)
Lemma copy_field_no_room s : forall fuel a i,
  nul_free s -> seg buf (12 + i) s ->
  0 <= i -> i + Z.of_nat (length s) <= slen ->
  i + Z.of_nat (length s) <= Z.of_nat (length a) ->
  (length s < fuel)%nat ->
  exists a', length a' = length a /\
    copy_field fuel buf slen a i (Z.of_nat (length s))
      = Done (a', i + Z.of_nat (length s), 0).
Proof.
  induction s as [|c s IH]; intros fuel a i Hnf Hsrc Hi Hs Ha Hf;
    (destruct fuel as [|fuel]; [simpl in Hf; lia|]);
    cbn [copy_field length] in *.
  - change (Z.of_nat 0) with 0. cbn [Z.ltb Z.compare andb].
    rewrite andb_false_r. exists a. split; [done|]. same_result.
  - apply seg_cons in Hsrc as [Hc Hsrc].
    apply Forall_cons in Hnf as [Hc0 Hnf].
    destruct (Z.ltb_spec i slen); [|lia].
    destruct (Z.ltb_spec 0 (Z.of_nat (S (length s)))); [|lia].
    cbn [andb]. unfold sbuf_read, src_read. rewrite Hc. run.
    destruct (store a i c) as [a1|] eqn:Hst; [|apply store_None in Hst; lia].
    unfold arena_write, arena_read. rewrite Hst. run.
    rewrite (load_store_same _ _ _ _ Hst). run.
    destruct (Z.eqb_spec c 0); [done|].
    rewrite !wrap64_small by lia.
    pose proof (store_length _ _ _ _ Hst) as Hl1.
    replace (Z.of_nat (S (length s)) - 1) with (Z.of_nat (length s)) by lia.
    destruct (IH fuel a1 (i + 1)) as (a' & Hl' & Hrun);
      [done | by rewrite Z.add_assoc | lia | lia | lia | lia |].
    exists a'. split; [congruence|]. rewrite Hrun. same_result.
Qed.

(** The loop of a member in the same situation. *)
Lemma copy_member_no_room s : forall fuel a i ptmem,
  nul_free s -> seg buf (12 + i) s ->
  0 <= i -> i + Z.of_nat (length s) <= slen ->
  0 <= ptmem -> ptmem + Z.of_nat (length s) <= Z.of_nat (length a) ->
  Z.of_nat (length a) < 2 ^ 64 ->
  (length s < fuel)%nat ->
  exists a', length a' = length a /\
    copy_member fuel buf slen a i (Z.of_nat (length s)) ptmem
      = Done (a', i + Z.of_nat (length s), 0, ptmem + Z.of_nat (length s)).
Proof.
  induction s as [|c s IH]; intros fuel a i ptmem Hnf Hsrc Hi Hs Hp Ha Hb Hf;
    (destruct fuel as [|fuel]; [simpl in Hf; lia|]);
    cbn [copy_member length] in *.
  - change (Z.of_nat 0) with 0. cbn [Z.ltb Z.compare andb].
    rewrite andb_false_r. exists a. split; [done|]. same_result.
  - apply seg_cons in Hsrc as [Hc Hsrc].
    apply Forall_cons in Hnf as [Hc0 Hnf].
    destruct (Z.ltb_spec i slen); [|lia].
    destruct (Z.ltb_spec 0 (Z.of_nat (S (length s)))); [|lia].
    cbn [andb]. unfold sbuf_read, src_read. rewrite Hc. run.
    destruct (store a ptmem c) as [a1|] eqn:Hst; [|apply store_None in Hst; lia].
    unfold arena_write, arena_read. rewrite Hst. run.
    rewrite (load_store_same _ _ _ _ Hst). run.
    destruct (Z.eqb_spec c 0); [done|].
    rewrite !wrap64_small by lia.
    pose proof (store_length _ _ _ _ Hst) as Hl1.
    replace (Z.of_nat (S (length s)) - 1) with (Z.of_nat (length s)) by lia.
    destruct (IH fuel a1 (i + 1) (ptmem + 1)) as (a' & Hl' & Hrun);
      [done | by rewrite Z.add_assoc | lia | lia | lia | lia | lia | lia |].
    exists a'. split; [congruence|]. rewrite Hrun. same_result.
Qed.

End NoRoom.

(** The pieces of the source [encode w ++ rest]. *)
Lemma wire_source w rest :
  0 <= w_gid w < 2 ^ 64 ->
  Z.of_nat (length (w_members w)) < 2 ^ 32 ->
  let src := encode w ++ rest in
  Z.of_nat (length src)
  = 12 + (Z.of_nat (length (w_name w)) + 1)
    + (Z.of_nat (length (w_passwd w)) + 1)
    + members_len (w_members w) + Z.of_nat (length rest) /\
  src_read_int src 0 8 = Done (w_gid w) /\
  src_read_int src 8 4 = Done (Z.of_nat (length (w_members w))) /\
  seg src 12 (w_name w ++ [0]) /\
  seg src (12 + (Z.of_nat (length (w_name w)) + 1)) (w_passwd w ++ [0]) /\
  seg src (12 + table_off w) (concat ((.++ [0]) <$> w_members w)).
Proof.
  intros Hgid Hcnt src. destruct w as [gid name passwd ms].
  cbn [w_gid w_name w_passwd w_members] in *. unfold table_off.
  cbn [w_name w_passwd].
  assert (Z.of_nat (length src)
          = 12 + Z.of_nat (length (strings_of name passwd ms))
            + Z.of_nat (length rest)) as Hsrc.
  { unfold src. rewrite length_app, Nat2Z.inj_add, length_encode. done. }
  rewrite length_strings_of in Hsrc. pose proof (members_len_nonneg ms).
  assert (seg src 0 (le_encode 8 gid)) as Hs_gid.
  { apply (seg_middle [] (le_encode 8 gid)). }
  assert (seg src 8 (le_encode 4 (Z.of_nat (length ms)))) as Hs_n.
  { unfold src, encode. cbn [w_gid w_members].
    rewrite <- (app_assoc (le_encode 8 gid)), <- (app_assoc (le_encode 4 _)).
    apply (seg_middle (le_encode 8 gid)). }
  assert (seg src 12 (strings_of name passwd ms)) as Hs_str.
  { unfold src, encode. cbn [w_gid w_members w_name w_passwd].
    rewrite (app_assoc (le_encode 8 gid)), <- (app_assoc (_ ++ _)).
    apply (seg_middle (le_encode 8 gid ++ le_encode 4 _)). }
  unfold strings_of in Hs_str.
  apply seg_app in Hs_str as [Hs_name Hs_str].
  apply seg_app in Hs_str as [Hs_pw Hs_ms].
  apply seg_loads in Hs_gid; [|lia|rewrite length_le_encode; lia].
  apply seg_loads in Hs_n; [|lia|rewrite length_le_encode; lia].
  rewrite length_le_encode in Hs_gid, Hs_n.
  change (Z.of_nat 8) with 8 in Hs_gid. change (Z.of_nat 4) with 4 in Hs_n.
  split_and!.
  - lia.
  - unfold src_read_int. rewrite Hs_gid. orun. by rewrite le_decode_encode_8.
  - unfold src_read_int. rewrite Hs_n. orun. by rewrite le_decode_encode_4 by lia.
  - done.
  - eapply seg_at; [exact Hs_pw | rewrite ?length_app; simpl; lia].
  - eapply seg_at; [exact Hs_ms | rewrite !length_app; simpl; lia].
Qed.

(** The decoder up to the member table.  On a source of at least 21 bytes
    whose name and password are terminated, with an arena that holds both,
    the run is its tail from line 129 on, started in the arena [a2] that
    holds the two strings and is otherwise the caller's. *)
Lemma readrep_after_passwd pr src name passwd :
  nul_free name -> nul_free passwd ->
  seg src 12 (name ++ [0]) ->
  seg src (12 + (Z.of_nat (length name) + 1)) (passwd ++ [0]) ->
  21 <= Z.of_nat (length src) < 2 ^ 64 ->
  let tbl := Z.of_nat (length name) + 1 + Z.of_nat (length passwd) + 1 in
  tbl <= buflen pr < 2 ^ 64 ->
  exists gid mem_num a2,
    src_read_int src 0 8 = Done gid /\
    src_read_int src 8 4 = Done mem_num /\
    length a2 = length (arena pr) /\
    seg a2 0 (name ++ [0]) /\
    seg a2 (Z.of_nat (length name) + 1) (passwd ++ [0]) /\
    (forall off bs, seg (arena pr) off bs -> tbl <= off -> seg a2 off bs) /\
    let slen := Z.of_nat (length src) - 12 in
    let g := Group (buffer pr + 0) (buffer pr + (Z.of_nat (length name) + 1))
               (wrap32 gid) (buffer pr + tbl) in
    let ptmem := 8 * wrap32 (mem_num + 1) in
    tbl <= slen /\
    sss_nss_getgr_readrep pr src (Z.of_nat (length src))
    = (a ← arena_write_ptr a2 (tbl + ptr_size * mem_num) 0;
       '(ret, a, i) ← read_members (S (Z.to_nat mem_num)) (S (length src)) src
                        slen (buffer pr) tbl mem_num 0 a tbl
                        (wrap64 (buflen pr - tbl - ptmem)) (wrap64 (ptmem + tbl));
       match ret with
       | Some e => Done (e, Z.of_nat (length src), with_arena pr g a)
       | None => Done (0, wrap64 (slen - i), with_arena pr g a)
       end).
Proof.
  intros Hname Hpw Hs_name Hs_pw Hlen tbl Hb. unfold buflen in *.
  pose proof Hs_pw as [_ Hpwb]%seg_bound; [|by destruct passwd].
  rewrite length_app in Hpwb. cbn [length] in Hpwb.
  unfold sss_nss_getgr_readrep.
  destruct (Z.ltb_spec (Z.of_nat (length src)) 21); [lia|].
  unfold src_read_int, loads.
  destruct (in_bounds src 0 8) eqn:E1; [|apply in_bounds_false in E1; lia].
  destruct (in_bounds src 8 4) eqn:E2; [|apply in_bounds_false in E2; lia].
  orun. run. cbv zeta.
  set (gid := le_decode (take (Z.to_nat 8) (drop (Z.to_nat 0) src))).
  set (mem_num := le_decode (take (Z.to_nat 4) (drop (Z.to_nat 8) src))).
  exists gid, mem_num.
  rewrite (wrap64_small (_ - 12)) by lia.
  set (slen := Z.of_nat (length src) - 12).
  assert (slen < 2 ^ 64) as Hslen by (unfold slen; lia).
  destruct (copy_field_string src slen Hslen name (S (length src)) (arena pr)
              0 (Z.of_nat (length (arena pr))))
    as (a1 & Hst1 & Hrun1);
    [done | done | lia | unfold slen; lia | unfold tbl in *; lia
    | unfold tbl in *; lia | lia |].
  unfold buflen. rewrite Hrun1. run. clear Hrun1.
  destruct (Z.geb_spec (0 + Z.of_nat (length name)) slen); [unfold slen in *; lia|].
  destruct (Z.geb_spec 0 (Z.of_nat (length (arena pr)) - Z.of_nat (length name)));
    [unfold tbl in *; lia|].
  unwrap.
  pose proof (stores_length _ _ _ _ Hst1) as Hl1.
  destruct (copy_field_string src slen Hslen passwd (S (length src)) a1
              (0 + Z.of_nat (length name) + 1)
              (Z.of_nat (length (arena pr)) - Z.of_nat (length name) - 1))
    as (a2 & Hst2 & Hrun2);
    [done | eapply seg_at; [exact Hs_pw | lia]
    | lia | unfold slen; lia | unfold tbl in *; lia | unfold tbl in *; lia | lia |].
  rewrite Hrun2. run. clear Hrun2.
  pose proof (stores_length _ _ _ _ Hst2) as Hl2.
  match goal with |- context [?x >=? slen] =>
    destruct (Z.geb_spec x slen); [unfold slen in *; lia|] end.
  match goal with |- context [0 >=? ?x] =>
    destruct (Z.geb_spec 0 x); [unfold tbl in *; lia|] end.
  rewrite table_check_dead.
  rewrite (wrap64_small (_ + 1)) by lia.
  replace (0 + Z.of_nat (length name) + 1 + Z.of_nat (length passwd) + 1)
    with tbl by (unfold tbl; lia).
  pose proof (wrap32_small (mem_num + 1)) as _.
  assert (0 <= wrap32 (mem_num + 1) < 2 ^ 32) as Hw32
    by (unfold wrap32; apply Z.mod_pos_bound; lia).
  unfold ptr_size at 1 2.
  rewrite (wrap64_small (8 * wrap32 (mem_num + 1))) by lia.
  rewrite (wrap64_small (_ - 1)) by (unfold tbl in *; lia).
  replace (Z.of_nat (length (arena pr)) - Z.of_nat (length name) - 1
           - Z.of_nat (length passwd) - 1 - 8 * wrap32 (mem_num + 1))
    with (Z.of_nat (length (arena pr)) - tbl - 8 * wrap32 (mem_num + 1))
    by (unfold tbl; lia).
  exists a2. split_and!.
  - done.
  - done.
  - congruence.
  - eapply stores_frame; [exact Hst2| |rewrite !length_app; simpl; lia].
    by eapply stores_seg.
  - apply stores_seg in Hst2.
    by replace (0 + Z.of_nat (length name) + 1)
      with (Z.of_nat (length name) + 1) in Hst2 by lia.
  - intros off bs Hbs Hoff.
    eapply stores_frame; [exact Hst2| |rewrite !length_app; simpl; unfold tbl in *; lia].
    eapply stores_frame; [exact Hst1|done|rewrite !length_app; simpl; unfold tbl in *; lia].
  - unfold slen, tbl in *. lia.
  - replace (0 + Z.of_nat (length name) + 1)
      with (Z.of_nat (length name) + 1) by lia.
    reflexivity.
Qed.

Lemma seg_take {A} (obj : list A) off bs n : seg obj off bs -> seg obj off (take n bs).
Proof. intros H k c [Hk _]%lookup_take_Some. by apply H. Qed.

Lemma nul_free_take s n : nul_free s -> nul_free (take n s).
Proof. apply Forall_take. Qed.

(** An arena that cannot hold the name and the password with their
    terminators: ENOMEM, from line 107 or from line 123. *)
Lemma readrep_no_room pr src name passwd :
  nul_free name -> nul_free passwd ->
  seg src 12 (name ++ [0]) ->
  seg src (12 + (Z.of_nat (length name) + 1)) (passwd ++ [0]) ->
  21 <= Z.of_nat (length src) < 2 ^ 64 ->
  buflen pr < Z.of_nat (length name) + 1 + Z.of_nat (length passwd) + 1 ->
  exists pr',
    sss_nss_getgr_readrep pr src (Z.of_nat (length src))
    = Done (ENOMEM, Z.of_nat (length src), pr') /\
    buffer pr' = buffer pr /\ length (arena pr') = length (arena pr).
Proof.
  intros Hname Hpw Hs_name Hs_pw Hlen Hb. unfold buflen in *.
  pose proof Hs_pw as [_ Hpwb]%seg_bound; [|by destruct passwd].
  rewrite length_app in Hpwb. cbn [length] in Hpwb.
  unfold sss_nss_getgr_readrep.
  destruct (Z.ltb_spec (Z.of_nat (length src)) 21); [lia|].
  unfold src_read_int, loads.
  destruct (in_bounds src 0 8) eqn:E1; [|apply in_bounds_false in E1; lia].
  destruct (in_bounds src 8 4) eqn:E2; [|apply in_bounds_false in E2; lia].
  orun. run. cbv zeta.
  rewrite (wrap64_small (_ - 12)) by lia.
  set (slen := Z.of_nat (length src) - 12).
  assert (slen < 2 ^ 64) as Hslen by (unfold slen; lia).
  pose proof Hs_name as [Hs_name0 _]%seg_app.
  pose proof Hs_pw as [Hs_pw0 _]%seg_app.
  unfold buflen.
  destruct (decide (Z.of_nat (length (arena pr)) <= Z.of_nat (length name)))
    as [Hsmall|Hbig].
  - (* the name does not fit *)
    set (s := take (length (arena pr)) name).
    assert (length s = length (arena pr)) as Hls
      by (unfold s; rewrite length_take; lia).
    destruct (copy_field_no_room src slen Hslen s (S (length src)) (arena pr) 0)
      as (a' & Hla & Hrun);
      [by apply nul_free_take | by apply seg_take | lia
      | unfold slen; lia | lia | lia |].
    rewrite Hls in Hrun. rewrite Hrun. run.
    destruct (Z.geb_spec (0 + Z.of_nat (length (arena pr))) slen);
      [unfold slen in *; lia|].
    cbn [Z.geb Z.compare]. eexists. split_and!; [reflexivity | done | done].
  - (* the name fits, the password does not *)
    destruct (copy_field_string src slen Hslen name (S (length src)) (arena pr)
                0 (Z.of_nat (length (arena pr))))
      as (a1 & Hst1 & Hrun1);
      [done | done | lia | unfold slen; lia | lia | lia | lia |].
    rewrite Hrun1. run. clear Hrun1.
    destruct (Z.geb_spec (0 + Z.of_nat (length name)) slen); [unfold slen in *; lia|].
    destruct (Z.geb_spec 0 (Z.of_nat (length (arena pr)) - Z.of_nat (length name)));
      [lia|].
    unwrap.
    pose proof (stores_length _ _ _ _ Hst1) as Hl1.
    set (d := (length (arena pr) - length name - 1)%nat).
    set (s := take d passwd).
    assert (length s = d) as Hls by (unfold s, d; rewrite length_take; lia).
    destruct (copy_field_no_room src slen Hslen s (S (length src)) a1
                (0 + Z.of_nat (length name) + 1))
      as (a2 & Hla & Hrun);
      [by apply nul_free_take
      | apply seg_take; eapply seg_at; [exact Hs_pw0 | lia]
      | lia | unfold slen, d in *; lia | unfold d in *; lia | unfold d in *; lia |].
    replace (Z.of_nat (length (arena pr)) - Z.of_nat (length name) - 1)
      with (Z.of_nat (length s)) by (unfold d in *; lia).
    rewrite Hrun. run.
    match goal with |- context [?x >=? slen] =>
      destruct (Z.geb_spec x slen); [unfold slen, d in *; lia|] end.
    cbn [Z.geb Z.compare]. eexists. split_and!; [reflexivity | done | ].
    cbn. congruence.
Qed.

(** Once the name and the password are read, no error is returned any
    more: the decoder returns 0 or faults, whatever follows in the source
    and whatever the header announces. *)
Lemma readrep_no_error_after_passwd pr src name passwd ret len' pr' :
  nul_free name -> nul_free passwd ->
  seg src 12 (name ++ [0]) ->
  seg src (12 + (Z.of_nat (length name) + 1)) (passwd ++ [0]) ->
  21 <= Z.of_nat (length src) < 2 ^ 64 ->
  Z.of_nat (length name) + 1 + Z.of_nat (length passwd) + 1 <= buflen pr < 2 ^ 64 ->
  sss_nss_getgr_readrep pr src (Z.of_nat (length src)) = Done (ret, len', pr') ->
  ret = 0.
Proof.
  intros Hname Hpw Hs_name Hs_pw Hlen Hb H.
  destruct (readrep_after_passwd pr src name passwd Hname Hpw Hs_name Hs_pw Hlen Hb)
    as (gid & mem_num & a2 & _ & _ & Hl2 & _ & _ & _ & Htbl & Heq).
  cbv zeta in Heq, Htbl. rewrite Heq in H. clear Heq.
  apply bind_Done in H as (a3 & _ & H).
  apply bind_Done in H as ([[r a4] i4] & Hrm & H).
  apply read_members_inv in Hrm as (-> & _ & _);
    [by simplify_eq | lia | lia | apply wrap64_range].
Qed.

Section Members.
Variables (buf : list Z) (slen : Z).
Hypothesis slen_range : slen < 2 ^ 64.

(** The loop over the members on the first members [fit] of the source:
    after them the loop goes on at member [l + length fit]. *)
Lemma read_members_prefix base tbl mem_num fit : forall fuel l a i dlen ptmem,
  Forall nul_free fit ->
  seg buf (12 + i) (concat ((.++ [0]) <$> fit)) ->
  l + Z.of_nat (length fit) <= mem_num -> 0 <= l -> 0 <= i ->
  i + members_len fit <= slen ->
  members_len fit <= dlen < 2 ^ 64 ->
  0 <= tbl -> tbl + ptr_size * mem_num <= ptmem ->
  ptmem + members_len fit <= Z.of_nat (length a) ->
  Z.of_nat (length a) < 2 ^ 64 ->
  exists a', length a' = length a /\
    read_members (length fit + fuel) (S (length buf)) buf slen base tbl mem_num
      l a i dlen ptmem
    = read_members fuel (S (length buf)) buf slen base tbl mem_num
        (l + Z.of_nat (length fit)) a' (i + members_len fit)
        (dlen - members_len fit) (ptmem + members_len fit).
Proof.
  unfold ptr_size.
  induction fit as [|m ms IH];
    intros fuel l a i dlen ptmem Hnf Hsrc Hn Hl Hi Hs Hd Ht Htp Ha Hb.
  - exists a. split; [done|]. unfold members_len. cbn.
    by rewrite !Z.add_0_r, Z.sub_0_r.
  - rewrite members_len_cons in *. pose proof (members_len_nonneg ms).
    rewrite fmap_cons in Hsrc. cbn [concat length] in *.
    apply seg_app in Hsrc as [Hm Hsrc].
    apply Forall_cons in Hnf as [Hnm Hnf].
    cbn [Nat.add read_members].
    destruct (Z.ltb_spec l mem_num); [|lia].
    unfold arena_write_ptr, ptr_size.
    destruct (stores a (tbl + 8 * l) (le_encode 8 (base + ptmem))) as [a1|] eqn:Hst1;
      [|unfold stores in Hst1;
        destruct (in_bounds a _ _) eqn:E; [done|];
        apply in_bounds_false in E; rewrite length_le_encode in E; lia].
    run.
    pose proof (stores_length _ _ _ _ Hst1) as Hlen1.
    assert (Z.of_nat (length m) + 1 <= Z.of_nat (length buf)) as Hmb.
    { apply seg_bound in Hm as [_ Hm]; [|by destruct m].
      rewrite length_app in Hm. simpl in Hm. lia. }
    destruct (copy_member_string buf slen slen_range m (S (length buf)) a1 i dlen ptmem)
      as (a2 & Hst2 & Hrun); [done | done | lia | lia | lia | lia | lia | lia | lia |].
    rewrite Hrun. run.
    pose proof (stores_length _ _ _ _ Hst2) as Hlen2.
    pose proof (stores_seg _ _ _ _ Hst2) as Hseg2.
    apply seg_app in Hseg2 as [_ [Hnul _]%seg_cons].
    unfold arena_read. rewrite Hnul. run. cbn [Z.eqb negb andb].
    rewrite wrap64_small by lia.
    rewrite length_app in Hsrc. cbn [length] in Hsrc.
    destruct (IH fuel (l + 1) a2 (i + Z.of_nat (length m) + 1)
                (dlen - Z.of_nat (length m) - 1)
                (ptmem + Z.of_nat (length m) + 1))
      as (a' & Hlen' & Hrun');
      [done | | lia | lia | lia | lia | lia | lia | lia | lia | lia |].
    { eapply seg_at; [exact Hsrc | lia]. }
    exists a'. split; [congruence|]. rewrite Hrun'.
    f_equal; lia.
Qed.

(** The loop over the members when the arena ends inside the member [m]
    that follows [fit] ([dlen], the room left, runs out before the
    terminator of [m] is stored): line 147 reads the arena at its length. *)
Lemma read_members_overflow base tbl mem_num fit m :
  forall fuel l a i dlen ptmem,
  Forall nul_free fit -> nul_free m ->
  seg buf (12 + i) (concat ((.++ [0]) <$> fit) ++ m) ->
  l + Z.of_nat (length fit) < mem_num -> 0 <= l -> 0 <= i ->
  i + members_len fit + Z.of_nat (length m) <= slen ->
  members_len fit <= dlen <= members_len fit + Z.of_nat (length m) ->
  0 <= tbl -> tbl + ptr_size * mem_num <= ptmem ->
  ptmem + dlen = Z.of_nat (length a) ->
  Z.of_nat (length a) < 2 ^ 64 ->
  (length fit < fuel)%nat ->
  read_members fuel (S (length buf)) buf slen base tbl mem_num l a i dlen ptmem
  = Crash (OobArenaRead (Z.of_nat (length a))).
Proof.
  intros fuel l a i dlen ptmem Hnf Hnm Hsrc Hn Hl Hi Hs Hd Ht Htp Ha Hb Hf.
  pose proof (members_len_nonneg fit).
  apply seg_app in Hsrc as [Hfit Hm].
  replace fuel with (length fit + (fuel - length fit))%nat by lia.
  destruct (read_members_prefix base tbl mem_num fit (fuel - length fit) l a i
              dlen ptmem) as (a1 & Hl1 & ->);
    [done | done | lia | lia | lia | lia | lia | lia | lia | lia | lia |].
  destruct (fuel - length fit)%nat as [|fuel'] eqn:Hfuel; [lia|].
  cbn [read_members].
  destruct (Z.ltb_spec (l + Z.of_nat (length fit)) mem_num); [|lia].
  unfold arena_write_ptr, ptr_size in *.
  destruct (stores a1 _ (le_encode 8 _)) as [a2|] eqn:Hst1;
    [|unfold stores in Hst1;
      destruct (in_bounds a1 _ _) eqn:E; [done|];
      apply in_bounds_false in E; rewrite length_le_encode in E; lia].
  run. pose proof (stores_length _ _ _ _ Hst1) as Hl2.
  set (d := Z.to_nat (dlen - members_len fit)).
  set (s := take d m).
  assert (length s = d) as Hls by (unfold s, d; rewrite length_take; lia).
  destruct (copy_member_no_room buf slen slen_range s (S (length buf)) a2
              (i + members_len fit) (ptmem + members_len fit))
    as (a3 & Hl3 & Hrun);
    [by apply nul_free_take
    | apply seg_take; eapply seg_at; [exact Hm | unfold members_len; lia]
    | lia | unfold d in *; lia | lia | unfold d in *; lia | lia | |].
  { assert (Z.of_nat (length m) <= Z.of_nat (length buf)); [|unfold d in *; lia].
    destruct m as [|c m']; [simpl; lia|].
    apply seg_bound in Hm as [? Hm]; [|done]. lia. }
  replace (dlen - members_len fit) with (Z.of_nat (length s))
    by (unfold d in *; lia).
  rewrite Hrun. run.
  unfold arena_read.
  replace (ptmem + members_len fit + Z.of_nat (length s))
    with (Z.of_nat (length a)) by (unfold d in *; lia).
  destruct (load a3 (Z.of_nat (length a))) eqn:Hld; [|done].
  apply load_Some in Hld as [_ Hld%lookup_lt_Some]. lia.
Qed.

End Members.

(** Where the room [d] left for the member strings ends. *)
Lemma members_split ms : forall d,
  0 <= d < members_len ms ->
  exists fit m later,
    ms = fit ++ m :: later /\
    members_len fit <= d <= members_len fit + Z.of_nat (length m).
Proof.
  induction ms as [|m ms IH]; intros d Hd.
  - unfold members_len in Hd. simpl in Hd. lia.
  - rewrite members_len_cons in Hd.
    destruct (decide (d <= Z.of_nat (length m))) as [Hle|Hgt].
    + exists [], m, ms. split; [done|]. unfold members_len. simpl. lia.
    + destruct (IH (d - Z.of_nat (length m) - 1)) as (fit & m' & later & -> & Hfit);
        [lia|].
      exists (m :: fit), m', later. split; [done|].
      rewrite members_len_cons. lia.
Qed.

Lemma concat_terminated_app (fit later : list (list Z)) m :
  concat ((.++ [0]) <$> (fit ++ m :: later))
  = (concat ((.++ [0]) <$> fit) ++ m) ++ [0] ++ concat ((.++ [0]) <$> later).
Proof.
  rewrite fmap_app, concat_app, fmap_cons. cbn [concat].
  by rewrite <- !app_assoc.
Qed.

Lemma members_len_app fit later :
  members_len (fit ++ later) = members_len fit + members_len later.
Proof.
  unfold members_len. rewrite fmap_app, concat_app, length_app. lia.
Qed.

(** An arena that holds the name, the password and the table of a
    well-formed record, but not all the strings of its members: the decoder
    reads the arena at its length. *)
Lemma readrep_members_do_not_fit w rest pr :
  well_formed w ->
  Z.of_nat (length (w_members w)) + 1 < 2 ^ 32 ->
  21 <= Z.of_nat (length (encode w ++ rest)) < 2 ^ 64 ->
  table_off w + ptr_size * (Z.of_nat (length (w_members w)) + 1) <= buflen pr
    < arena_need w ->
  buflen pr < 2 ^ 64 ->
  sss_nss_getgr_readrep pr (encode w ++ rest)
    (Z.of_nat (length (encode w ++ rest)))
  = Crash (OobArenaRead (buflen pr)).
Proof.
  intros (Hgid & Hname & Hpw & Hms & Hcnt) Hcnt1 Hlen Hneed Hb.
  destruct (wire_source w rest Hgid Hcnt)
    as (Hsrc & _ & Hn & Hs_name & Hs_pw & Hs_ms).
  unfold arena_need, table_off, buflen, ptr_size in *.
  rewrite length_strings_of in Hneed.
  set (src := encode w ++ rest) in *.
  set (n := Z.of_nat (length (w_members w))) in *.
  pose proof (members_len_nonneg (w_members w)).
  destruct (readrep_after_passwd pr src (w_name w) (w_passwd w)
              Hname Hpw Hs_name Hs_pw Hlen ltac:(unfold buflen; lia))
    as (gid & mem_num & a2 & _ & Hn' & Hl2 & _ & _ & _ & Htbl & Heq).
  cbv zeta in Heq, Htbl. rewrite Hn in Hn'. injection Hn' as <-.
  rewrite Heq. clear Heq. unfold buflen, ptr_size.
  set (tbl := Z.of_nat (length (w_name w)) + 1 + Z.of_nat (length (w_passwd w)) + 1) in *.
  rewrite (wrap32_small (n + 1)) by lia.
  rewrite !wrap64_small by lia.
  unfold arena_write_ptr.
  destruct (stores a2 (tbl + 8 * n) (le_encode 8 0)) as [a3|] eqn:Hst3;
    [|unfold stores in Hst3; destruct (in_bounds a2 _ _) eqn:E; [done|];
      apply in_bounds_false in E; rewrite length_le_encode in E; lia].
  run. pose proof (stores_length _ _ _ _ Hst3) as Hl3.
  destruct (members_split (w_members w)
              (Z.of_nat (length (arena pr)) - tbl - 8 * (n + 1)))
    as (fit & m & later & Hsplit & Hfit); [lia|].
  rewrite Hsplit in Hs_ms, Hms, Hsrc. rewrite concat_terminated_app in Hs_ms.
  apply seg_app in Hs_ms as [Hs_fit _].
  apply Forall_app in Hms as [Hnf_fit [Hnf_m _]%Forall_cons].
  rewrite members_len_app, members_len_cons in Hsrc.
  pose proof (members_len_nonneg fit). pose proof (members_len_nonneg later).
  assert (Z.of_nat (length fit) < n) as Hfn.
  { unfold n. rewrite Hsplit, length_app. simpl. lia. }
  rewrite (read_members_overflow src (Z.of_nat (length src) - 12) ltac:(lia)
             (buffer pr) tbl n fit m);
    [ | done | done | done | lia | lia | unfold tbl; lia | lia | lia
      | unfold tbl; lia | unfold ptr_size; lia | lia | lia | lia].
  run. by rewrite Hl3, Hl2.
Qed.

Lemma table_ok_lookup a base tbl ms : forall l ptmem k m,
  table_ok a base tbl l ptmem ms -> ms !! k = Some m ->
  seg a (tbl + ptr_size * (l + Z.of_nat k))
    (le_encode 8 (base + (ptmem + members_len (take k ms)))) /\
  seg a (ptmem + members_len (take k ms)) (m ++ [0]).
Proof.
  induction ms as [|m0 ms IH]; intros l ptmem k m Htab Hk; [done|].
  destruct Htab as (Hslot & Hstr & Htab).
  destruct k as [|k]; simplify_eq/=.
  - unfold members_len. simpl. rewrite !Z.add_0_r. done.
  - destruct (IH _ _ _ _ Htab Hk) as [H1 H2].
    change (take (S k) (m0 :: ms)) with (m0 :: take k ms).
    rewrite members_len_cons.
    split.
    + eapply seg_at; [|reflexivity].
      replace (l + Z.of_nat (S k)) with (l + 1 + Z.of_nat k) by lia.
      replace (ptmem + (Z.of_nat (length m0) + 1 + members_len (take k ms)))
        with (ptmem + Z.of_nat (length m0) + 1 + members_len (take k ms)) by lia.
      done.
    + eapply seg_at; [exact H2 | lia].
Qed.

(** The decoder on a well-formed record in a sufficient arena, with the
    arena it leaves: name, password, table and member strings one after
    the other from offset 0 on, and the cells from [arena_need w] on as they
    were. *)
Lemma readrep_layout w rest pr :
  well_formed w ->
  Z.of_nat (length (w_members w)) + 1 < 2 ^ 32 ->
  21 <= Z.of_nat (length (encode w ++ rest)) < 2 ^ 64 ->
  arena_need w <= buflen pr < 2 ^ 64 ->
  let n := Z.of_nat (length (w_members w)) in
  let tbl := table_off w in
  exists a',
    sss_nss_getgr_readrep pr (encode w ++ rest)
        (Z.of_nat (length (encode w ++ rest)))
      = Done (0, Z.of_nat (length rest),
              Rep (Group (buffer pr + 0)
                         (buffer pr + (Z.of_nat (length (w_name w)) + 1))
                         (wrap32 (w_gid w)) (buffer pr + tbl))
                  (buffer pr) a') /\
    length a' = length (arena pr) /\
    seg a' 0 (w_name w ++ [0]) /\
    seg a' (Z.of_nat (length (w_name w)) + 1) (w_passwd w ++ [0]) /\
    table_ok a' (buffer pr) tbl 0 (tbl + ptr_size * (n + 1)) (w_members w) /\
    seg a' (tbl + ptr_size * n) (le_encode 8 0) /\
    (forall off bs, seg (arena pr) off bs -> arena_need w <= off -> seg a' off bs).
Proof.
  intros (Hgid & Hname & Hpw & Hms & Hcnt) Hcnt1 Hlen Hneed n tbl.
  destruct (wire_source w rest Hgid Hcnt)
    as (Hsrc & Hg & Hn & Hs_name & Hs_pw & Hs_ms).
  unfold arena_need, buflen, ptr_size in *.
  rewrite length_strings_of in Hneed.
  set (src := encode w ++ rest) in *. fold n in Hcnt, Hcnt1, Hneed, Hn.
  pose proof (members_len_nonneg (w_members w)).
  assert (Z.of_nat (length (w_name w)) + 1 + Z.of_nat (length (w_passwd w)) + 1
          = tbl) as Htbl_eq by done.
  destruct (readrep_after_passwd pr src (w_name w) (w_passwd w)
              Hname Hpw Hs_name Hs_pw Hlen ltac:(unfold buflen; lia))
    as (gid & mem_num & a2 & Hg' & Hn' & Hl2 & Ha_name & Ha_pw & Hframe2 & Htbl & Heq).
  cbv zeta in Heq, Htbl, Hframe2. rewrite Hn in Hn'. injection Hn' as <-.
  rewrite Hg in Hg'. injection Hg' as <-.
  rewrite Heq. clear Heq. unfold buflen, ptr_size.
  rewrite Htbl_eq in *.
  rewrite (wrap32_small (n + 1)) by lia.
  rewrite !wrap64_small by lia.
  unfold arena_write_ptr.
  destruct (stores a2 (tbl + 8 * n) (le_encode 8 0)) as [a3|] eqn:Hst3;
    [|unfold stores in Hst3; destruct (in_bounds a2 _ _) eqn:E; [done|];
      apply in_bounds_false in E; rewrite length_le_encode in E; lia].
  run. pose proof (stores_length _ _ _ _ Hst3) as Hl3.
  destruct (read_members_strings src (Z.of_nat (length src) - 12) ltac:(lia)
              (buffer pr) tbl n (w_members w)
              (S (Z.to_nat n)) 0 a3 tbl
              (Z.of_nat (length (arena pr)) - tbl - 8 * (n + 1))
              (8 * (n + 1) + tbl))
    as (a4 & Hrun4 & Hl4 & Hframe & Htab);
    [done | done | unfold n; lia | lia | unfold tbl, table_off; lia | lia
    | lia | unfold tbl, table_off; lia | unfold ptr_size; lia
    | lia | lia | unfold n; lia |].
  rewrite Hrun4. run. clear Hrun4.
  exists a4. split_and!.
  - rewrite wrap64_small by lia.
    replace (Z.of_nat (length src) - 12 - (tbl + members_len (w_members w)))
      with (Z.of_nat (length rest)) by (unfold tbl, table_off in *; lia).
    reflexivity.
  - congruence.
  - apply Hframe; [|rewrite length_app; simpl; unfold tbl, table_off; lia
                   |rewrite length_app; simpl; unfold tbl, table_off; lia].
    eapply stores_frame; [exact Hst3|done|].
    rewrite length_app, length_le_encode; simpl; unfold tbl, table_off; lia.
  - apply Hframe; [|rewrite length_app; simpl; unfold tbl, table_off; lia
                   |rewrite length_app; simpl; unfold tbl, table_off; lia].
    eapply stores_frame; [exact Hst3|done|].
    rewrite length_app, length_le_encode; simpl; unfold tbl, table_off; lia.
  - by replace (tbl + 8 * (n + 1)) with (8 * (n + 1) + tbl) by lia.
  - apply Hframe; [|rewrite length_le_encode; unfold ptr_size; lia
                   |rewrite length_le_encode; lia].
    by eapply stores_seg.
  - intros off bs Hbs Hoff. rewrite length_strings_of in Hoff.
    apply Hframe; [|unfold ptr_size, tbl, table_off; lia|unfold tbl, table_off; lia].
    eapply stores_frame;
      [exact Hst3| |rewrite length_le_encode; unfold tbl, table_off; lia].
    apply Hframe2; [done|unfold tbl, table_off in *; lia].
Qed.

(** The record the caller reads back after a successful decode. *)
Lemma readrep_group w rest pr :
  well_formed w ->
  Z.of_nat (length (w_members w)) + 1 < 2 ^ 32 ->
  21 <= Z.of_nat (length (encode w ++ rest)) < 2 ^ 64 ->
  arena_need w <= buflen pr ->
  0 < buffer pr -> buffer pr + buflen pr <= 2 ^ 64 ->
  exists pr',
    sss_nss_getgr_readrep pr (encode w ++ rest)
        (Z.of_nat (length (encode w ++ rest)))
      = Done (0, Z.of_nat (length rest), pr') /\
    read_group pr' = Some (decoded w) /\
    buffer pr' = buffer pr /\ length (arena pr') = length (arena pr).
Proof.
  intros Hwf Hcnt Hlen Hneed Hbase Htop.
  destruct (readrep_layout w rest pr Hwf Hcnt Hlen ltac:(lia))
    as (a' & Hrun & Hla & Hname & Hpw & Htab & Hnull & _).
  destruct Hwf as (Hgid & Hnf_name & Hnf_pw & Hnf_ms & _).
  pose proof (length_strings_of (w_name w) (w_passwd w) (w_members w)) as Hstr.
  pose proof (members_len_nonneg (w_members w)) as Hml.
  unfold arena_need, buflen, ptr_size in *.
  eexists. split; [exact Hrun|]. split_and!; [|done|done].
  unfold read_group. cbn [result gr_name gr_passwd gr_mem gr_gid arena].
  rewrite (cstr_seg _ _ _ 0 (w_name w)) by done. orun.
  rewrite (cstr_seg _ _ _ _ (w_passwd w)) by done. orun.
  replace (table_off w) with (table_off w + ptr_size * 0) by (unfold ptr_size; lia).
  rewrite (cstr_array_table _ _ _ _ (w_members w) _ 0
             (table_off w + ptr_size * (Z.of_nat (length (w_members w)) + 1)));
    [done | done | done | done | done
    | unfold table_off, ptr_size; lia
    | unfold table_off, ptr_size; lia
    | unfold table_off, ptr_size in *; lia].
Qed.

End DecoderEdges.

(** ** The operations on replies of the daemon *)

Module Operations.

Import Readrep Nss Callers MachineFacts ReadrepFacts Decoding NssFacts DecoderEdges.


Lemma readrep_floor pr buf len :
  len < 21 -> sss_nss_getgr_readrep pr buf len = Done (EBADMSG, len, pr).
Proof.
  intros H. unfold sss_nss_getgr_readrep.
  by destruct (Z.ltb_spec len 21); [|lia].
Qed.

(** *** The lookups *)

Lemma lookup_failed_request r w pr e0 :
  is_success (rp_status r) = false ->
  lookup_reply r w pr e0 = Done (rp_status r, rp_errno r, pr, w).
Proof.
  intros Hs. unfold lookup_reply.
  destruct (make_request_cases r (heap w)) as [[Es _]|[_ ->]]; [congruence|].
  by rewrite Hs.
Qed.

Lemma lookup_answered r w pr e0 :
  is_success (rp_status r) = true ->
  exists blk, heap w !! blk = None /\
  lookup_reply r w pr e0 =
    let h := <[blk := rp_bytes r]> (heap w) in
    n ← reply_read_int h blk 0 4;
    if n =? 0 then
      h ← free h blk;
      Done (NSS_STATUS_NOTFOUND, rp_errno r, pr, set_heap h (set_heap h w))
    else if negb (n =? 1) then
      Done (NSS_STATUS_TRYAGAIN, EBADMSG, pr, set_heap h w)
    else
      b ← block h blk;
      '(ret, _, pr) ← sss_nss_getgr_readrep pr (drop 8 b)
                        (wrap64 (Z.of_nat (length (rp_bytes r)) - 8));
      h ← free h blk;
      if negb (ret =? 0)
      then Done (NSS_STATUS_TRYAGAIN, ret, pr, set_heap h (set_heap h w))
      else Done (NSS_STATUS_SUCCESS, rp_errno r, pr, set_heap h (set_heap h w)).
Proof.
  intros Hs. exists (fresh (dom (heap w))). split.
  { apply not_elem_of_dom, is_fresh. }
  unfold lookup_reply.
  destruct (make_request_cases r (heap w)) as [[_ ->]|[Es _]]; [|congruence].
  by rewrite Hs.
Qed.


Lemma lookup_not_found r w pr e0 :
  is_success (rp_status r) = true ->
  4 <= Z.of_nat (length (rp_bytes r)) ->
  reply_count (rp_bytes r) = 0 ->
  lookup_reply r w pr e0 = Done (NSS_STATUS_NOTFOUND, rp_errno r, pr, w).
Proof.
  intros Hs Hlen Hc.
  destruct (lookup_answered r w pr e0 Hs) as (blk & Hfresh & ->). cbv zeta.
  rewrite reply_read_count by done. run. rewrite Hc. cbn [Z.eqb].
  rewrite free_fresh by done. run. by destruct w.
Qed.

(** One result: the record is decoded from the bytes after the 8-byte
    header, with [replen - 8] as its length. *)
Lemma lookup_one r w pr e0 :
  is_success (rp_status r) = true ->
  4 <= Z.of_nat (length (rp_bytes r)) ->
  reply_count (rp_bytes r) = 1 ->
  lookup_reply r w pr e0 =
    '(ret, _, pr) ← sss_nss_getgr_readrep pr (drop 8 (rp_bytes r))
                      (wrap64 (Z.of_nat (length (rp_bytes r)) - 8));
    if negb (ret =? 0) then Done (NSS_STATUS_TRYAGAIN, ret, pr, w)
    else Done (NSS_STATUS_SUCCESS, rp_errno r, pr, w).
Proof.
  intros Hs Hlen Hc.
  destruct (lookup_answered r w pr e0 Hs) as (blk & Hfresh & ->). cbv zeta.
  rewrite reply_read_count by done. run. rewrite Hc. cbn [Z.eqb negb].
  rewrite block_insert. run.
  destruct (sss_nss_getgr_readrep _ _ _) as [[[ret l] pr1]| |]; [|done..].
  run. rewrite free_fresh by done. run.
  replace (set_heap _ (set_heap _ w)) with w by by destruct w. done.
Qed.

Lemma lookup_found r w pr e0 rec pad rest :
  is_success (rp_status r) = true ->
  rp_bytes r = le_encode 4 1 ++ pad ++ encode rec ++ rest ->
  length pad = 4%nat ->
  Z.of_nat (length (rp_bytes r)) < 2 ^ 64 ->
  well_formed rec ->
  Z.of_nat (length (w_members rec)) + 1 < 2 ^ 32 ->
  21 <= Z.of_nat (length (encode rec ++ rest)) ->
  arena_need rec <= buflen pr ->
  0 < buffer pr -> buffer pr + buflen pr <= 2 ^ 64 ->
  exists pr',
    lookup_reply r w pr e0 = Done (NSS_STATUS_SUCCESS, rp_errno r, pr', w) /\
    read_group pr' = Some (decoded rec) /\
    buffer pr' = buffer pr /\ length (arena pr') = length (arena pr).
Proof.
  intros Hs Hb Hpad Hlen Hwf Hcnt Hfloor Hneed Hbase Htop.
  assert (Z.of_nat (length (rp_bytes r))
          = 8 + Z.of_nat (length (encode rec ++ rest))) as Hl.
  { rewrite Hb, !length_app, length_le_encode, Hpad. rewrite <- length_app. lia. }
  assert (drop 8 (rp_bytes r) = encode rec ++ rest) as Hdrop.
  { rewrite Hb. rewrite (app_assoc (le_encode 4 1)).
    apply drop_app_length'. rewrite length_app, length_le_encode, Hpad. done. }
  assert (reply_count (rp_bytes r) = 1) as Hc.
  { unfold reply_count. rewrite Hb. rewrite take_app_length'
      by by rewrite length_le_encode.
    by rewrite le_decode_encode_4. }
  rewrite lookup_one by (done || lia).
  rewrite Hdrop, Hl. rewrite wrap64_small by lia.
  replace (8 + Z.of_nat (length (encode rec ++ rest)) - 8)
    with (Z.of_nat (length (encode rec ++ rest))) by lia.
  destruct (readrep_group rec rest pr Hwf Hcnt ltac:(lia) Hneed Hbase Htop)
    as (pr' & -> & Hg & Hbuf & Harena).
  run. cbn [Z.eqb negb]. by exists pr'.
Qed.

Lemma lookup_short_record r w pr e0 :
  is_success (rp_status r) = true ->
  reply_count (rp_bytes r) = 1 ->
  8 <= Z.of_nat (length (rp_bytes r)) < 29 ->
  lookup_reply r w pr e0 = Done (NSS_STATUS_TRYAGAIN, EBADMSG, pr, w).
Proof.
  intros Hs Hc Hlen. rewrite lookup_one by (done || lia).
  rewrite wrap64_small by lia. rewrite readrep_floor by lia. by run.
Qed.

Lemma lookup_headerless r w pr e0 :
  is_success (rp_status r) = true ->
  reply_count (rp_bytes r) = 1 ->
  4 <= Z.of_nat (length (rp_bytes r)) < 8 ->
  lookup_reply r w pr e0 = Crash (OobSource 0).
Proof.
  intros Hs Hc Hlen. rewrite lookup_one by (done || lia).
  rewrite drop_ge by lia.
  unfold wrap64.
  replace ((Z.of_nat (length (rp_bytes r)) - 8) `mod` 2 ^ 64)
    with (2 ^ 64 + Z.of_nat (length (rp_bytes r)) - 8).
  2: { apply (Z.mod_unique _ _ (-1)); lia. }
  unfold sss_nss_getgr_readrep.
  destruct (Z.ltb_spec (2 ^ 64 + Z.of_nat (length (rp_bytes r)) - 8) 21); [lia|].
  done.
Qed.

(** *** The enumeration *)

Lemma clean_holds_only h0 w :
  holds_only h0 w ->
  sss_nss_getgrent_data_clean w
  = Done (World h0 (Cursor 0 0 None) (errno w)).
Proof.
  unfold holds_only, sss_nss_getgrent_data_clean.
  destruct (data (sss_nss_getgrent_data w)) as [blk|].
  - intros (Hfresh & b & ->). by rewrite free_fresh.
  - by intros ->.
Qed.

Lemma holds_only_closed h0 e : holds_only h0 (World h0 (Cursor 0 0 None) e).
Proof. done. Qed.

Lemma getgrent_fetch_failed h0 r chan w pr e0 :
  has_leftovers (sss_nss_getgrent_data w) = None -> holds_only h0 w ->
  is_success (rp_status r) = false ->
  _nss_sss_getgrent_r (r :: chan) w pr e0
  = Done (rp_status r, rp_errno r, pr, World h0 (Cursor 0 0 None) (errno w)).
Proof.
  intros Hleft Hh Hs. cbn [_nss_sss_getgrent_r]. rewrite Hleft.
  rewrite (clean_holds_only h0) by done. run. cbn [heap].
  destruct (make_request_cases r h0) as [[Es _]|[_ ->]]; [congruence|].
  by rewrite Hs.
Qed.

Lemma getgrent_fetched h0 r chan w pr e0 :
  has_leftovers (sss_nss_getgrent_data w) = None -> holds_only h0 w ->
  is_success (rp_status r) = true ->
  4 <= Z.of_nat (length (rp_bytes r)) ->
  exists blk, h0 !! blk = None /\
  _nss_sss_getgrent_r (r :: chan) w pr e0 =
    if (reply_count (rp_bytes r) =? 0)
       || (wrap64 (Z.of_nat (length (rp_bytes r)) - 8) =? 0)
    then Done (NSS_STATUS_NOTFOUND, rp_errno r, pr,
               World h0 (Cursor 0 0 None) (errno w))
    else _nss_sss_getgrent_r chan
           (World (<[blk := rp_bytes r]> h0)
                  (Cursor (Z.of_nat (length (rp_bytes r))) 8 (Some blk))
                  (errno w)) pr (rp_errno r).
Proof.
  intros Hleft Hh Hs Hlen. exists (fresh (dom h0)).
  assert (h0 !! fresh (dom h0) = None) as Hfresh
    by apply not_elem_of_dom, is_fresh.
  split; [done|].
  cbn [_nss_sss_getgrent_r]. rewrite Hleft.
  rewrite (clean_holds_only h0) by done. run. cbn [heap].
  destruct (make_request_cases r h0) as [[_ ->]|[Es _]]; [|congruence].
  rewrite Hs. cbn [negb]. rewrite reply_read_count by done. run.
  destruct (_ || _); [|done].
  rewrite free_fresh by done. by run.
Qed.

Lemma getgrent_next chan w pr e0 blk b pre rec rest :
  data (sss_nss_getgrent_data w) = Some blk ->
  heap w !! blk = Some b ->
  b = pre ++ encode rec ++ rest ->
  ptr (sss_nss_getgrent_data w) = Z.of_nat (length pre) ->
  len (sss_nss_getgrent_data w) = Z.of_nat (length b) ->
  Z.of_nat (length b) < 2 ^ 64 ->
  well_formed rec ->
  Z.of_nat (length (w_members rec)) + 1 < 2 ^ 32 ->
  21 <= Z.of_nat (length (encode rec ++ rest)) ->
  arena_need rec <= buflen pr ->
  0 < buffer pr -> buffer pr + buflen pr <= 2 ^ 64 ->
  exists pr',
    _nss_sss_getgrent_r chan w pr e0
    = Done (NSS_STATUS_SUCCESS, e0, pr',
            set_cursor (Cursor (Z.of_nat (length b))
                          (Z.of_nat (length pre + length (encode rec)))
                          (Some blk)) w) /\
    read_group pr' = Some (decoded rec) /\
    buffer pr' = buffer pr /\ length (arena pr') = length (arena pr).
Proof.
  intros Hdata Hblk Hb Hptr Hlen Hlt Hwf Hcnt Hfloor Hneed Hbase Htop.
  assert (Z.of_nat (length b)
          = Z.of_nat (length pre) + Z.of_nat (length (encode rec ++ rest))) as Hl.
  { rewrite Hb, !length_app. lia. }
  assert (has_leftovers (sss_nss_getgrent_data w) = Some blk) as Hleft.
  { unfold has_leftovers. rewrite Hdata, Hptr, Hlen.
    by destruct (Z.ltb_spec (Z.of_nat (length pre)) (Z.of_nat (length b))); [|lia]. }
  rewrite (getgrent_r_leftover _ _ _ _ _ Hleft).
  unfold getgrent_leftover, block. rewrite Hblk. run.
  rewrite Hptr, Hlen, Hdata, Nat2Z.id.
  replace (drop (length pre) b) with (encode rec ++ rest)
    by (rewrite Hb; by rewrite drop_app_length).
  rewrite wrap64_small by lia.
  replace (Z.of_nat (length b) - Z.of_nat (length pre))
    with (Z.of_nat (length (encode rec ++ rest))) by lia.
  destruct (readrep_group rec rest pr Hwf Hcnt ltac:(lia) Hneed Hbase Htop)
    as (pr' & -> & Hg & Hbuf & Harena).
  run. cbn [Z.eqb negb]. exists pr'. split_and!; [|done..].
  rewrite wrap64_small by (rewrite length_app in Hl; lia).
  do 4 f_equal. rewrite length_app in Hl. lia.
Qed.

Lemma getgrent_short_tail chan w pr e0 blk b :
  has_leftovers (sss_nss_getgrent_data w) = Some blk ->
  heap w !! blk = Some b ->
  cursor_wf (sss_nss_getgrent_data w) ->
  len (sss_nss_getgrent_data w) - ptr (sss_nss_getgrent_data w) < 21 ->
  _nss_sss_getgrent_r chan w pr e0
  = Done (NSS_STATUS_TRYAGAIN, EBADMSG, pr, w).
Proof.
  intros Hleft Hblk [Hlen Hptr] Hshort.
  pose proof (has_leftovers_Some _ _ Hleft) as [Hdata Hlt].
  rewrite (getgrent_r_leftover _ _ _ _ _ Hleft).
  unfold getgrent_leftover, block. rewrite Hblk. run.
  rewrite wrap64_small by lia. rewrite readrep_floor by lia. by run.
Qed.

(** The cursor owns at most one block, and nothing else of the heap is
    touched. *)
Lemma getgrent_r_holds_only h0 chan : forall w pr e0 s e pr' w',
  holds_only h0 w ->
  _nss_sss_getgrent_r chan w pr e0 = Done (s, e, pr', w') ->
  holds_only h0 w' /\ errno w' = errno w.
Proof.
  induction chan as [|r chan IH]; intros w pr e0 s e pr' w' Hh H;
    destruct (has_leftovers (sss_nss_getgrent_data w)) as [blk|] eqn:Hleft.
  1,3: rewrite (getgrent_r_leftover _ _ _ _ _ Hleft) in H;
    pose proof (has_leftovers_Some _ _ Hleft) as [Hdata Hlt];
    unfold getgrent_leftover in H;
    apply bind_Done in H as (b & _ & H);
    apply bind_Done in H as ([[ret replen'] pr1] & _ & H);
    destruct (negb (ret =? 0)); simplify_eq; [done|];
    unfold holds_only in *; cbn; by rewrite Hdata in *.
  - cbn [_nss_sss_getgrent_r] in H. rewrite Hleft in H.
    by apply bind_Done in H as (w1 & _ & H).
  - destruct (is_success (rp_status r)) eqn:Hs.
    + cbn [_nss_sss_getgrent_r] in H. rewrite Hleft in H.
      rewrite (clean_holds_only h0) in H by done.
      cbn [mbind outcome_bind bind heap] in H.
      destruct (make_request_cases r h0) as [[_ Hreq]|[Es _]]; [|congruence].
      rewrite Hreq, Hs in H. cbn [negb] in H.
      apply bind_Done in H as (n & _ & H).
      destruct (_ || _).
      * apply bind_Done in H as (h & Hfree & H).
        rewrite free_fresh in Hfree by apply not_elem_of_dom, is_fresh.
        by simplify_eq.
      * apply IH in H; [done|].
        split; [apply not_elem_of_dom, is_fresh | by eexists].
    + rewrite (getgrent_fetch_failed h0) in H by done. by simplify_eq.
Qed.

Lemma setgrent_holds_only h0 r w :
  holds_only h0 w ->
  _nss_sss_setgrent r w
  = Done (rp_status r,
          World h0 (Cursor 0 0 None)
            (if is_success (rp_status r) then errno w else rp_errno r)).
Proof.
  intros Hh. unfold _nss_sss_setgrent. rewrite (clean_holds_only h0) by done.
  run. unfold sss_nss_make_request_nobuf. by destruct (rp_status r).
Qed.

Lemma endgrent_holds_only h0 r w :
  holds_only h0 w ->
  _nss_sss_endgrent r w
  = Done (rp_status r,
          World h0 (Cursor 0 0 None)
            (if is_success (rp_status r) then errno w else rp_errno r)).
Proof.
  intros Hh. unfold _nss_sss_endgrent. rewrite (clean_holds_only h0) by done.
  run. unfold sss_nss_make_request_nobuf. by destruct (rp_status r).
Qed.

(** Draining a batch: as many calls as the batch has records left. *)
Lemma getgrent_n_records blk b rest base room : forall recs pre w pr e0,
  data (sss_nss_getgrent_data w) = Some blk ->
  heap w !! blk = Some b ->
  b = pre ++ concat (encode <$> recs) ++ rest ->
  ptr (sss_nss_getgrent_data w) = Z.of_nat (length pre) ->
  len (sss_nss_getgrent_data w) = Z.of_nat (length b) ->
  Z.of_nat (length b) < 2 ^ 64 ->
  Forall (fun rec => well_formed rec /\
            Z.of_nat (length (w_members rec)) + 1 < 2 ^ 32 /\
            21 <= Z.of_nat (length (encode rec)) /\
            arena_need rec <= room) recs ->
  buffer pr = base -> buflen pr = room ->
  0 < base -> base + room <= 2 ^ 64 ->
  getgrent_n (length recs) w pr e0
  = Done (Some ∘ decoded <$> recs, NSS_STATUS_SUCCESS,
          set_cursor (Cursor (Z.of_nat (length b))
                        (Z.of_nat (length pre
                                   + length (concat (encode <$> recs))))
                        (Some blk)) w).
Proof.
  induction recs as [|rec recs IH];
    intros pre w pr e0 Hdata Hblk Hb Hptr Hlen Hlt Hrecs Hbuf Hroom Hbase Htop.
  - cbn. rewrite Nat.add_0_r, <- Hptr, <- Hlen, <- Hdata.
    destruct w as [h [l p d] e]. done.
  - apply Forall_cons in Hrecs as [(Hwf & Hcnt & Hfloor & Hneed) Hrecs].
    cbn [length getgrent_n fmap list_fmap concat] in *.
    rewrite <- app_assoc in Hb.
    destruct (getgrent_next [] w pr e0 blk b pre rec
                (concat (encode <$> recs) ++ rest))
      as (pr' & -> & Hg & Hbuf' & Harena); try done.
    { rewrite length_app. lia. }
    { by rewrite Hroom. }
    { by rewrite Hbuf. }
    { by rewrite Hbuf, Hroom. }
    run. cbn [is_success].
    rewrite (IH (pre ++ encode rec) _ pr' e0); try done.
    + run. rewrite Hg. unfold set_cursor. cbn [heap errno].
      by rewrite !length_app, Nat.add_assoc.
    + by rewrite <- app_assoc.
    + cbn. by rewrite length_app.
    + congruence.
    + unfold buflen in *. congruence.
Qed.

(** *** Membership expansion *)

Lemma initgroups_failed_request r ra w gl limit e0 :
  is_success (rp_status r) = false ->
  _nss_sss_initgroups_dyn r ra w gl limit e0
  = Done (rp_status r, rp_errno r, gl, w).
Proof.
  intros Hs. unfold _nss_sss_initgroups_dyn.
  destruct (make_request_cases r (heap w)) as [[Es _]|[_ ->]]; [congruence|].
  by rewrite Hs.
Qed.

(** A return without success gives the array and the state back as they
    were; a return with success keeps the reply's block. *)
Lemma initgroups_state r ra w gl limit e0 s e gl' w' :
  _nss_sss_initgroups_dyn r ra w gl limit e0 = Done (s, e, gl', w') ->
  (s <> NSS_STATUS_SUCCESS -> gl' = gl /\ w' = w) /\
  (s = NSS_STATUS_SUCCESS ->
     exists blk, heap w !! blk = None /\
       w' = set_heap (<[blk := rp_bytes r]> (heap w)) w).
Proof.
  intros H. destruct (is_success (rp_status r)) eqn:Hs.
  2: { rewrite initgroups_failed_request in H by done. simplify_eq.
       split; [done|]. intros E. by rewrite E in Hs. }
  unfold _nss_sss_initgroups_dyn in H.
  destruct (make_request_cases r (heap w)) as [[_ Hreq]|[Es _]]; [|congruence].
  assert (heap w !! fresh (dom (heap w)) = None) as Hfresh
    by apply not_elem_of_dom, is_fresh.
  rewrite Hreq, Hs in H. cbn [negb] in H.
  apply bind_Done in H as (n & _ & H).
  destruct (n =? 0).
  { rewrite free_fresh in H by done. cbn in H. simplify_eq.
    split; [|done]. intros _. split; [done | by destruct w]. }
  apply bind_Done in H as (room & _ & H).
  apply bind_Done in H as (grown & _ & H).
  destruct grown as [[]|[gl1 max_ret]].
  - rewrite free_fresh in H by done. cbn in H. simplify_eq.
    split; [|done]. intros _. split; [done | by destruct w].
  - apply bind_Done in H as (gl2 & _ & H). simplify_eq.
    split; [done|]. intros _. by eexists.
Qed.

Lemma initgroups_room r ra w gl limit e0 :
  rp_status r = NSS_STATUS_SUCCESS ->
  0 < reply_count (rp_bytes r) ->
  8 + 8 * reply_count (rp_bytes r) <= Z.of_nat (length (rp_bytes r)) ->
  Z.of_nat (length (groups gl)) = size gl -> 0 <= start gl ->
  reply_count (rp_bytes r) <= size gl - start gl ->
  size gl <= long_max ->
  exists gs w',
    _nss_sss_initgroups_dyn r ra w gl limit e0
    = Done (NSS_STATUS_SUCCESS, rp_errno r,
            GidList gs (size gl) (start gl + reply_count (rp_bytes r)), w') /\
    length gs = length (groups gl) /\
    (forall j, 0 <= j < reply_count (rp_bytes r) ->
       load gs (start gl + j) = Some (wrap32 (reply_id (rp_bytes r) j))) /\
    (forall j, j < start gl -> load gs j = load (groups gl) j).
Proof.
  intros Hs Hn Hb Hg Hst Hroom Hmax.
  unfold _nss_sss_initgroups_dyn.
  destruct (make_request_success r (heap w) Hs) as (blk & Hfresh & ->).
  cbn [is_success negb].
  rewrite reply_read_count by lia. run.
  set (count := reply_count (rp_bytes r)) in *.
  destruct (Z.eqb_spec count 0); [lia|].
  assert (long_ok (size gl - start gl)) as Hl1
    by (unfold long_ok, long_min, long_max in *; lia).
  rewrite (long_Done _ Hl1). run.
  destruct (Z.ltb_spec (size gl - start gl) count); [lia|]. run.
  destruct (copy_gids_spec (<[blk := rp_bytes r]> (heap w)) blk (rp_bytes r)
              count (lookup_insert_eq _ _ _) ltac:(lia)
              (Z.to_nat count) (S (Z.to_nat count)) 0 gl)
    as (gs & Hrun & Hlen & Hnew & Hold);
    [lia | lia | lia | lia | lia | unfold long_max in *; lia |].
  rewrite Hrun. run.
  replace (Z.of_nat (Z.to_nat count)) with count in * by lia.
  by eexists gs, _.
Qed.

Lemma initgroups_grow r fill w gl limit e0 :
  rp_status r = NSS_STATUS_SUCCESS ->
  0 < reply_count (rp_bytes r) ->
  8 + 8 * reply_count (rp_bytes r) <= Z.of_nat (length (rp_bytes r)) ->
  Z.of_nat (length (groups gl)) = size gl -> 0 <= start gl <= size gl ->
  size gl - start gl < reply_count (rp_bytes r) ->
  limit <= 0 \/ size gl + reply_count (rp_bytes r) <= limit ->
  size gl + reply_count (rp_bytes r) < 2 ^ 62 ->
  exists gs w',
    _nss_sss_initgroups_dyn r (ReallocOk fill) w gl limit e0
    = Done (NSS_STATUS_SUCCESS, rp_errno r,
            GidList gs (size gl + reply_count (rp_bytes r))
                    (start gl + reply_count (rp_bytes r)), w') /\
    Z.of_nat (length gs) = size gl + reply_count (rp_bytes r) /\
    (forall j, 0 <= j < reply_count (rp_bytes r) ->
       load gs (start gl + j) = Some (wrap32 (reply_id (rp_bytes r) j))) /\
    (forall j, j < start gl -> load gs j = load (groups gl) j).
Proof.
  intros Hs Hn Hb Hg Hst Hroom Hlim Hmax.
  unfold _nss_sss_initgroups_dyn.
  destruct (make_request_success r (heap w) Hs) as (blk & Hfresh & ->).
  cbn [is_success negb].
  rewrite reply_read_count by lia. run.
  set (count := reply_count (rp_bytes r)) in *.
  destruct (Z.eqb_spec count 0); [lia|].
  assert (long_ok (size gl - start gl)) as Hl1
    by (unfold long_ok, long_min, long_max in *; lia).
  assert (long_ok (size gl + count)) as Hl2
    by (unfold long_ok, long_min, long_max in *; lia).
  rewrite (long_Done _ Hl1). run.
  destruct (Z.ltb_spec (size gl - start gl) count); [|lia].
  rewrite (long_Done _ Hl2). run.
  assert ((limit >? 0) && (size gl + count >? limit) = false) as ->.
  { destruct (Z.gtb_spec limit 0); [|done].
    destruct (Z.gtb_spec (size gl + count) limit); [lia|done]. }
  run. cbn [realloc]. run.
  unfold gid_size.
  rewrite (wrap64_small (size gl + count)),
    (wrap64_small ((size gl + count) * 4)) by lia.
  rewrite Z.div_mul by done.
  set (g0 := take (Z.to_nat (size gl + count)) (groups gl)
             ++ replicate (Z.to_nat (size gl + count) - length (groups gl)) fill).
  assert (Z.of_nat (length g0) = size gl + count) as Hg0.
  { unfold g0. rewrite length_app, length_take, length_replicate. lia. }
  destruct (copy_gids_spec (<[blk := rp_bytes r]> (heap w)) blk (rp_bytes r)
              count (lookup_insert_eq _ _ _) ltac:(lia)
              (Z.to_nat count) (S (Z.to_nat count))
              0 (GidList g0 (size gl + count) (start gl)))
    as (gs & Hrun & Hlen & Hnew & Hold); cbn [start groups size];
    [lia | lia | lia | lia | lia | unfold long_max; lia |].
  cbn [start groups size] in Hrun, Hlen, Hnew, Hold.
  rewrite Hrun. run.
  replace (Z.of_nat (Z.to_nat count)) with count in * by lia.
  eexists gs, _. split_and!; [done | lia | exact Hnew |].
  intros j Hj. rewrite Hold by done. unfold g0, load, in_bounds.
  rewrite length_app, length_take, length_replicate.
  destruct (Z.leb_spec 0 j); cbn [andb]; [|done].
  destruct (Z.leb_spec (j + 1) (Z.of_nat (length (groups gl))));
    destruct (Z.leb_spec (j + 1)
      (Z.of_nat (Z.to_nat (size gl + count) `min` length (groups gl)
                 + (Z.to_nat (size gl + count) - length (groups gl))))); try lia.
  rewrite lookup_app_l by (rewrite length_take; lia).
  apply lookup_take_lt. lia.
Qed.

(** The copy loop when the reply holds [c] ids and [max_ret] asks for more:
    the read of the id after the last one leaves the reply. *)
Lemma copy_gids_overread (h : gmap nat (list Z)) repbuf b c max_ret :
  h !! repbuf = Some b ->
  8 + 8 * c <= Z.of_nat (length b) < 8 + 8 * c + 8 ->
  c < max_ret ->
  forall (n fuel : nat) l gl,
  Z.of_nat n = c - l -> (n < fuel)%nat -> 0 <= l ->
  0 <= start gl ->
  start gl + Z.of_nat n <= Z.of_nat (length (groups gl)) ->
  start gl + Z.of_nat n <= long_max ->
  copy_gids fuel h repbuf max_ret l gl = Crash (OobReply (8 + 8 * c)).
Proof.
  intros Hblk Hb Hc. induction n as [|n IH];
    intros fuel l gl Hn Hf Hl Hs Hg Hm;
    (destruct fuel as [|fuel]; [lia|]); cbn [copy_gids];
    (destruct (Z.ltb_spec l max_ret); [|lia]).
  - unfold reply_read_int, block. rewrite Hblk. run. unfold loads.
    destruct (in_bounds b (8 + 8 * l) 8) eqn:E;
      [apply in_bounds_true in E; lia|].
    cbn. do 2 f_equal. lia.
  - rewrite (reply_read_id h repbuf b l) by (done || lia). run.
    destruct (store (groups gl) (start gl) (wrap32 (reply_id b l))) as [g1|] eqn:Hst;
      [|apply store_None in Hst; lia].
    run. rewrite long_Done by (unfold long_ok, long_min, long_max in *; lia). run.
    pose proof (store_length _ _ _ _ Hst) as Hlen1.
    apply IH; cbn [start groups size]; lia.
Qed.

Lemma initgroups_overread r fill w gl limit e0 :
  rp_status r = NSS_STATUS_SUCCESS ->
  0 < reply_count (rp_bytes r) ->
  8 + 8 * reply_count (rp_bytes r) <= Z.of_nat (length (rp_bytes r))
    < 8 + 8 * reply_count (rp_bytes r) + 8 ->
  Z.of_nat (length (groups gl)) = size gl -> 0 <= start gl <= size gl ->
  0 < limit < 2 ^ 62 ->
  size gl - start gl < reply_count (rp_bytes r) ->
  size gl + reply_count (rp_bytes r) > limit ->
  reply_count (rp_bytes r) < limit - start gl ->
  _nss_sss_initgroups_dyn r (ReallocOk fill) w gl limit e0
  = Crash (OobReply (8 + 8 * reply_count (rp_bytes r))).
Proof.
  intros Hs Hn Hb Hg Hst Hlim Hroom Hover Hfit.
  unfold _nss_sss_initgroups_dyn.
  destruct (make_request_success r (heap w) Hs) as (blk & Hfresh & ->).
  cbn [is_success negb].
  rewrite reply_read_count by lia. run.
  set (count := reply_count (rp_bytes r)) in *.
  destruct (Z.eqb_spec count 0); [lia|].
  assert (long_ok (size gl - start gl)) as Hl1
    by (unfold long_ok, long_min, long_max in *; lia).
  assert (long_ok (size gl + count)) as Hl2
    by (unfold long_ok, long_min, long_max in *; lia).
  assert (long_ok (limit - start gl)) as Hl3
    by (unfold long_ok, long_min, long_max in *; lia).
  rewrite (long_Done _ Hl1). run.
  destruct (Z.ltb_spec (size gl - start gl) count); [|lia].
  rewrite (long_Done _ Hl2). run.
  destruct (Z.gtb_spec limit 0); [|lia].
  destruct (Z.gtb_spec (size gl + count) limit); [|lia].
  cbn [andb]. rewrite (long_Done _ Hl3). run. cbn [realloc]. run.
  unfold gid_size. rewrite (wrap64_small limit), (wrap64_small (limit * 4)) by lia.
  rewrite Z.div_mul by done.
  set (g0 := take (Z.to_nat limit) (groups gl)
             ++ replicate (Z.to_nat limit - length (groups gl)) fill).
  assert (Z.of_nat (length g0) = limit) as Hg0.
  { unfold g0. rewrite length_app, length_take, length_replicate. lia. }
  rewrite (copy_gids_overread (<[blk := rp_bytes r]> (heap w)) blk (rp_bytes r)
             count (limit - start gl) (lookup_insert_eq _ _ _) ltac:(lia)
             ltac:(lia) (Z.to_nat count));
    cbn [start groups size]; [done | lia | lia | lia | lia | lia
                              | unfold long_max; lia].
Qed.

End Operations.

(** ** The decoder, [sss_nss_getgr_readrep] *)

Import Callers DecoderEdges Operations.

(** X1.  Lines 76-160.  Whatever bytes the source slice holds and whatever
    the arena, the decoder never reads outside the slice and every one of
    its loops ends. *)
Theorem readrep_source_safe pr buf off :
  Z.of_nat (length buf) < 2 ^ 64 ->
  Z.of_nat (length (arena pr)) < 2 ^ 64 ->
  sss_nss_getgr_readrep pr buf (Z.of_nat (length buf)) <> Crash (OobSource off) /\
  sss_nss_getgr_readrep pr buf (Z.of_nat (length buf)) <> OutOfFuel.
Proof.
  intros Hbuf Ha. split.
  - by apply readrep_reads_in_bounds.
  - by apply readrep_terminates.
Qed.

Lemma readrep_source_safe_witness :
  sss_nss_getgr_readrep (caller 64) (take 28 wheel_bytes)
    (Z.of_nat (length (take 28 wheel_bytes))) <> Crash (OobSource 28) /\
  sss_nss_getgr_readrep (caller 64) (take 28 wheel_bytes)
    (Z.of_nat (length (take 28 wheel_bytes))) <> OutOfFuel.
Proof.
  apply (readrep_source_safe (caller 64) (take 28 wheel_bytes) 28);
    vm_compute; reflexivity.
Defined.

(** X2.  Lines 84-160, the returns.  A return of the decoder gives 0,
    EBADMSG or ENOMEM; the arena keeps its address and size; an error
    leaves [*len] as it was, and success needs at least 21 bytes and
    reports at most [*len - 12] bytes as remaining. *)
Theorem readrep_return_contract pr buf len ret len' pr' :
  sss_nss_getgr_readrep pr buf len = Done (ret, len', pr') ->
  0 <= len < 2 ^ 64 ->
  Z.of_nat (length (arena pr)) < 2 ^ 64 ->
  (ret = 0 \/ ret = EBADMSG \/ ret = ENOMEM) /\
  buffer pr' = buffer pr /\ length (arena pr') = length (arena pr) /\
  (ret <> 0 -> len' = len) /\
  (ret = 0 -> 21 <= len /\ 0 <= len' <= len - 12).
Proof.
  intros H Hlen Ha. split.
  - by eapply readrep_codes.
  - by eapply readrep_len.
Qed.

Lemma readrep_return_contract_witness :
  let pr' := Rep (Group 4096 0 10 0) 4096 [119; 104; 101; 101] in
  (ENOMEM = 0 \/ ENOMEM = EBADMSG \/ ENOMEM = ENOMEM) /\
  buffer pr' = buffer (caller 4) /\
  length (arena pr') = length (arena (caller 4)) /\
  (ENOMEM <> 0 -> 31 = 31) /\
  (ENOMEM = 0 -> 21 <= 31 /\ 0 <= 31 <= 31 - 12).
Proof.
  cbv zeta.
  apply (readrep_return_contract (caller 4) wheel_bytes 31 ENOMEM 31
           (Rep (Group 4096 0 10 0) 4096 [119; 104; 101; 101])).
  - vm_compute. reflexivity.
  - split; [discriminate | reflexivity].
  - vm_compute. reflexivity.
Defined.

(** X3.  Lines 95-105.  A source of at least 21 bytes that ends inside the
    group name, before its NUL, is rejected with EBADMSG and [*len] is left
    as it was, when the arena has room for the bytes of the name. *)
Theorem readrep_source_ends_in_name pr hdr s :
  length hdr = 12%nat -> nul_free s ->
  21 <= Z.of_nat (length (hdr ++ s)) < 2 ^ 64 ->
  Z.of_nat (length s) <= buflen pr < 2 ^ 64 ->
  exists pr',
    sss_nss_getgr_readrep pr (hdr ++ s) (Z.of_nat (length (hdr ++ s)))
    = Done (EBADMSG, Z.of_nat (length (hdr ++ s)), pr').
Proof. apply readrep_truncated_name. Qed.

Lemma readrep_source_ends_in_name_witness :
  exists pr',
    sss_nss_getgr_readrep (caller 64) (take 12 wheel_bytes ++ wheel ++ root)
      (Z.of_nat (length (take 12 wheel_bytes ++ wheel ++ root)))
    = Done (EBADMSG,
            Z.of_nat (length (take 12 wheel_bytes ++ wheel ++ root)), pr').
Proof.
  apply (readrep_source_ends_in_name (caller 64) (take 12 wheel_bytes)
           (wheel ++ root)).
  - reflexivity.
  - apply (bool_decide_unpack _). vm_compute. reflexivity.
  - vm_compute. split; [discriminate | reflexivity].
  - vm_compute. split; [discriminate | reflexivity].
Defined.

(** X4.  Lines 112-121.  The same for the password: a source of at least
    21 bytes that holds the name with its NUL and ends inside the password,
    before its NUL, is rejected with EBADMSG and [*len] is left as it was,
    when the arena has room for the name with its NUL and the bytes of the
    password. *)
Theorem readrep_source_ends_in_passwd pr hdr name s :
  length hdr = 12%nat -> nul_free name -> nul_free s ->
  21 <= Z.of_nat (length (hdr ++ (name ++ [0]) ++ s)) < 2 ^ 64 ->
  Z.of_nat (length name) + 1 + Z.of_nat (length s) <= buflen pr < 2 ^ 64 ->
  exists pr',
    sss_nss_getgr_readrep pr (hdr ++ (name ++ [0]) ++ s)
      (Z.of_nat (length (hdr ++ (name ++ [0]) ++ s)))
    = Done (EBADMSG, Z.of_nat (length (hdr ++ (name ++ [0]) ++ s)), pr').
Proof. apply readrep_truncated_passwd. Qed.

Lemma readrep_source_ends_in_passwd_witness :
  exists pr',
    sss_nss_getgr_readrep (caller 64)
      (take 12 wheel_bytes ++ (wheel ++ [0]) ++ root)
      (Z.of_nat (length (take 12 wheel_bytes ++ (wheel ++ [0]) ++ root)))
    = Done (EBADMSG,
            Z.of_nat (length (take 12 wheel_bytes ++ (wheel ++ [0]) ++ root)),
            pr').
Proof.
  apply (readrep_source_ends_in_passwd (caller 64) (take 12 wheel_bytes)
           wheel root).
  - reflexivity.
  - apply (bool_decide_unpack _). vm_compute. reflexivity.
  - apply (bool_decide_unpack _). vm_compute. reflexivity.
  - vm_compute. split; [discriminate | reflexivity].
  - vm_compute. split; [discriminate | reflexivity].
Defined.

(** X5.  Lines 97-124.  When a source of at least 21 bytes holds the name
    and the password with their terminators and the arena is smaller than
    the two strings with their terminators, the decoder returns ENOMEM with
    [*len] as it was; the arena keeps its address and size. *)
Theorem readrep_strings_do_not_fit pr src name passwd :
  nul_free name -> nul_free passwd ->
  seg src 12 (name ++ [0]) ->
  seg src (12 + (Z.of_nat (length name) + 1)) (passwd ++ [0]) ->
  21 <= Z.of_nat (length src) < 2 ^ 64 ->
  buflen pr < Z.of_nat (length name) + 1 + Z.of_nat (length passwd) + 1 ->
  exists pr',
    sss_nss_getgr_readrep pr src (Z.of_nat (length src))
    = Done (ENOMEM, Z.of_nat (length src), pr') /\
    buffer pr' = buffer pr /\ length (arena pr') = length (arena pr).
Proof. apply readrep_no_room. Qed.

Lemma readrep_strings_do_not_fit_witness :
  exists pr',
    sss_nss_getgr_readrep (caller 7) wheel_bytes
      (Z.of_nat (length wheel_bytes))
    = Done (ENOMEM, Z.of_nat (length wheel_bytes), pr') /\
    buffer pr' = buffer (caller 7) /\
    length (arena pr') = length (arena (caller 7)).
Proof.
  apply (readrep_strings_do_not_fit (caller 7) wheel_bytes wheel x_passwd).
  - apply (bool_decide_unpack _). vm_compute. reflexivity.
  - apply (bool_decide_unpack _). vm_compute. reflexivity.
  - intros [|[|[|[|[|[|[|]]]]]]] c; cbn; try discriminate;
      intros [= <-]; vm_compute; reflexivity.
  - intros [|[|[|]]] c; cbn; try discriminate;
      intros [= <-]; vm_compute; reflexivity.
  - vm_compute. split; [discriminate | reflexivity].
  - vm_compute. reflexivity.
Defined.

(** X6.  Lines 129-136.  For every well-formed record with fewer than
    2^32 - 1 members that starts a source slice of at least 21 bytes (the
    record with what follows it), and whose name and password fit the arena
    while its pointer table does not, the test of line 132 does not fire
    and the store of the NULL sentinel (line 136) writes outside the arena,
    at the table's last slot. *)
Theorem readrep_sentinel_store_overflows w rest pr :
  well_formed w ->
  Z.of_nat (length (w_members w)) + 1 < 2 ^ 32 ->
  21 <= Z.of_nat (length (encode w ++ rest)) < 2 ^ 64 ->
  table_off w <= buflen pr
    < table_off w + ptr_size * (Z.of_nat (length (w_members w)) + 1) ->
  buflen pr < 2 ^ 64 ->
  sss_nss_getgr_readrep pr (encode w ++ rest)
    (Z.of_nat (length (encode w ++ rest)))
  = Crash (OobArenaWrite
             (table_off w + ptr_size * Z.of_nat (length (w_members w)))).
Proof. apply readrep_table_does_not_fit. Qed.

Lemma readrep_sentinel_store_overflows_witness :
  sss_nss_getgr_readrep (caller 30) (encode wheel_group ++ [])
    (Z.of_nat (length (encode wheel_group ++ [])))
  = Crash (OobArenaWrite
             (table_off wheel_group
              + ptr_size * Z.of_nat (length (w_members wheel_group)))).
Proof.
  apply (readrep_sentinel_store_overflows wheel_group [] (caller 30)).
  - apply (bool_decide_unpack _). vm_compute. reflexivity.
  - vm_compute. reflexivity.
  - vm_compute. split; [discriminate | reflexivity].
  - vm_compute. split; [discriminate | reflexivity].
  - vm_compute. reflexivity.
Defined.

(** X7.  Lines 138-156.  For every well-formed record with fewer than
    2^32 - 1 members that starts a source slice of at least 21 bytes (the
    record with what follows it), and whose table fits the arena while its
    member strings do not, the member loop stops with the arena full and
    the test of line 147 reads the byte after the arena's last: no ENOMEM
    is returned. *)
Theorem readrep_member_strings_do_not_fit w rest pr :
  well_formed w ->
  Z.of_nat (length (w_members w)) + 1 < 2 ^ 32 ->
  21 <= Z.of_nat (length (encode w ++ rest)) < 2 ^ 64 ->
  table_off w + ptr_size * (Z.of_nat (length (w_members w)) + 1) <= buflen pr
    < arena_need w ->
  buflen pr < 2 ^ 64 ->
  sss_nss_getgr_readrep pr (encode w ++ rest)
    (Z.of_nat (length (encode w ++ rest)))
  = Crash (OobArenaRead (buflen pr)).
Proof. apply readrep_members_do_not_fit. Qed.

Lemma readrep_member_strings_do_not_fit_witness :
  sss_nss_getgr_readrep (caller 35) (encode wheel_group ++ [])
    (Z.of_nat (length (encode wheel_group ++ [])))
  = Crash (OobArenaRead (buflen (caller 35))).
Proof.
  apply (readrep_member_strings_do_not_fit wheel_group [] (caller 35)).
  - apply (bool_decide_unpack _). vm_compute. reflexivity.
  - vm_compute. reflexivity.
  - vm_compute. split; [discriminate | reflexivity].
  - vm_compute. split; [discriminate | reflexivity].
  - vm_compute. reflexivity.
Defined.

(** X8.  Lines 128-160.  Once the name and the password are read and
    stored, no error is returned any more: whatever follows them in the
    source, the decoder does not return EBADMSG or ENOMEM. *)
Theorem readrep_no_error_past_passwd pr src name passwd len' pr' :
  nul_free name -> nul_free passwd ->
  seg src 12 (name ++ [0]) ->
  seg src (12 + (Z.of_nat (length name) + 1)) (passwd ++ [0]) ->
  21 <= Z.of_nat (length src) < 2 ^ 64 ->
  Z.of_nat (length name) + 1 + Z.of_nat (length passwd) + 1 <= buflen pr < 2 ^ 64 ->
  sss_nss_getgr_readrep pr src (Z.of_nat (length src))
    <> Done (EBADMSG, len', pr') /\
  sss_nss_getgr_readrep pr src (Z.of_nat (length src))
    <> Done (ENOMEM, len', pr').
Proof.
  intros Hn Hp Hsn Hsp Hlen Hb.
  split; intros H;
    by apply (readrep_no_error_after_passwd _ _ name passwd) in H.
Qed.

Lemma readrep_no_error_past_passwd_witness :
  sss_nss_getgr_readrep (caller 64) (take 28 wheel_bytes)
    (Z.of_nat (length (take 28 wheel_bytes)))
    <> Done (EBADMSG, 28, caller 64) /\
  sss_nss_getgr_readrep (caller 64) (take 28 wheel_bytes)
    (Z.of_nat (length (take 28 wheel_bytes)))
    <> Done (ENOMEM, 28, caller 64).
Proof.
  apply (readrep_no_error_past_passwd (caller 64) (take 28 wheel_bytes)
           wheel x_passwd 28 (caller 64)).
  - apply (bool_decide_unpack _). vm_compute. reflexivity.
  - apply (bool_decide_unpack _). vm_compute. reflexivity.
  - intros [|[|[|[|[|[|[|]]]]]]] c; cbn; try discriminate;
      intros [= <-]; vm_compute; reflexivity.
  - intros [|[|[|]]] c; cbn; try discriminate;
      intros [= <-]; vm_compute; reflexivity.
  - vm_compute. split; [discriminate | reflexivity].
  - vm_compute. split; [discriminate | reflexivity].
Defined.

(** X9.  Lines 88-158, what a successful decode leaves in the arena.  The
    name is at the arena's start, the password after the name's NUL and the
    pointer table right after the password's NUL, with no padding; slot
    [k] of the table holds the address of member [k], whose string lies
    after the table behind the strings of the members before it; the bytes
    of the arena from [arena_need] on are left as they were. *)
Theorem readrep_arena_layout w rest pr :
  well_formed w ->
  Z.of_nat (length (w_members w)) + 1 < 2 ^ 32 ->
  21 <= Z.of_nat (length (encode w ++ rest)) < 2 ^ 64 ->
  arena_need w <= buflen pr < 2 ^ 64 ->
  let n := Z.of_nat (length (w_members w)) in
  let strs := table_off w + ptr_size * (n + 1) in
  exists pr',
    sss_nss_getgr_readrep pr (encode w ++ rest)
        (Z.of_nat (length (encode w ++ rest)))
      = Done (0, Z.of_nat (length rest), pr') /\
    gr_name (result pr') = buffer pr /\
    gr_passwd (result pr') = buffer pr + Z.of_nat (length (w_name w)) + 1 /\
    gr_mem (result pr') = buffer pr + table_off w /\
    gr_gid (result pr') = wrap32 (w_gid w) /\
    seg (arena pr') 0 (w_name w ++ [0]) /\
    seg (arena pr') (Z.of_nat (length (w_name w)) + 1) (w_passwd w ++ [0]) /\
    (forall k m, w_members w !! k = Some m ->
       let at_k := strs + members_len (take k (w_members w)) in
       seg (arena pr') (table_off w + ptr_size * Z.of_nat k)
         (le_encode 8 (buffer pr + at_k)) /\
       seg (arena pr') at_k (m ++ [0])) /\
    seg (arena pr') (table_off w + ptr_size * n) (le_encode 8 0) /\
    (forall off bs,
       seg (arena pr) off bs -> arena_need w <= off -> seg (arena pr') off bs).
Proof.
  intros Hwf Hcnt Hlen Hneed n strs.
  destruct (readrep_layout w rest pr Hwf Hcnt Hlen Hneed)
    as (a' & Hrun & Hla & Hname & Hpw & Htab & Hnull & Hframe).
  eexists. split; [exact Hrun|]. cbn [result arena gr_name gr_passwd gr_mem gr_gid].
  split_and!; [lia | lia | done | done | done | done | | done | done].
  intros k m Hk.
  destruct (table_ok_lookup _ _ _ _ 0 _ k m Htab Hk) as [Hslot Hstr].
  by rewrite Z.add_0_l in Hslot.
Qed.

Lemma readrep_arena_layout_witness :
  exists pr',
    sss_nss_getgr_readrep (caller 64) (encode wheel_group ++ [])
        (Z.of_nat (length (encode wheel_group ++ [])))
      = Done (0, 0, pr') /\
    gr_name (result pr') = 4096 /\
    gr_passwd (result pr') = 4096 + 5 + 1 /\
    gr_mem (result pr') = 4096 + 8 /\
    gr_gid (result pr') = 10 /\
    seg (arena pr') (8 + 8 * 1) (le_encode 8 (4096 + (8 + 24 + 5))) /\
    seg (arena pr') (8 + 24 + 5) (alice ++ [0]).
Proof.
  destruct (readrep_arena_layout wheel_group [] (caller 64))
    as (pr' & Hrun & Hn & Hp & Hm & Hg & _ & _ & Htab & _).
  - apply (bool_decide_unpack _). vm_compute. reflexivity.
  - vm_compute. reflexivity.
  - vm_compute. split; [discriminate | reflexivity].
  - vm_compute. split; [discriminate | reflexivity].
  - exists pr'. split; [exact Hrun|]. split; [exact Hn|]. split; [exact Hp|].
    split; [exact Hm|]. split; [exact Hg|].
    exact (Htab 1%nat alice eq_refl).
Defined.

(** ** The lookups, [_nss_sss_getgrnam_r] and [_nss_sss_getgrgid_r] *)



(** X11.  Lines 232-324, the success path.  When the reply counts one
    result and holds, after its 8-byte header, a well-formed record of at
    least 21 bytes, and the caller's arena has room for it, both lookups
    return SUCCESS with the channel's error number, the caller's result
    reads back as the record (its gid narrowed to 32 bits) and the process
    state is as it was at the call. *)
Theorem lookup_returns_record name gid r w pr e0 rec pad rest :
  is_success (rp_status r) = true ->
  rp_bytes r = le_encode 4 1 ++ pad ++ encode rec ++ rest ->
  length pad = 4%nat ->
  Z.of_nat (length (rp_bytes r)) < 2 ^ 64 ->
  well_formed rec ->
  Z.of_nat (length (w_members rec)) + 1 < 2 ^ 32 ->
  21 <= Z.of_nat (length (encode rec ++ rest)) ->
  arena_need rec <= buflen pr ->
  0 < buffer pr -> buffer pr + buflen pr <= 2 ^ 64 ->
  exists pr',
    _nss_sss_getgrnam_r name r w pr e0
      = Done (NSS_STATUS_SUCCESS, rp_errno r, pr', w) /\
    _nss_sss_getgrgid_r gid r w pr e0
      = Done (NSS_STATUS_SUCCESS, rp_errno r, pr', w) /\
    read_group pr' = Some (decoded rec) /\
    buffer pr' = buffer pr /\ length (arena pr') = length (arena pr).
Proof.
  intros Hs Hb Hpad Hlen Hwf Hcnt Hfloor Hneed Hbase Htop.
  destruct (lookup_found r w pr e0 rec pad rest) as (pr' & Hrun & Hrest);
    try done.
  by exists pr'.
Qed.

Lemma lookup_returns_record_witness :
  exists pr',
    _nss_sss_getgrnam_r wheel (reply_of 1 wheel_bytes) idle (caller 64) 0
      = Done (NSS_STATUS_SUCCESS, 0, pr', idle) /\
    _nss_sss_getgrgid_r 10 (reply_of 1 wheel_bytes) idle (caller 64) 0
      = Done (NSS_STATUS_SUCCESS, 0, pr', idle) /\
    read_group pr' = Some (decoded wheel_group) /\
    buffer pr' = buffer (caller 64) /\
    length (arena pr') = length (arena (caller 64)).
Proof.
  apply (lookup_returns_record wheel 10 (reply_of 1 wheel_bytes) idle
           (caller 64) 0 wheel_group (le_encode 4 0) []).
  - reflexivity.
  - vm_compute. reflexivity.
  - reflexivity.
  - vm_compute. reflexivity.
  - apply (bool_decide_unpack _). vm_compute. reflexivity.
  - vm_compute. reflexivity.
  - vm_compute. discriminate.
  - vm_compute. discriminate.
  - vm_compute. reflexivity.
  - vm_compute. discriminate.
Defined.

(** X12.  Lines 267-273 and 315-321 with line 84.  A reply that counts one
    result and holds fewer than 21 bytes after its header is answered with
    TRYAGAIN and EBADMSG, whatever the bytes are; the caller's result and
    arena are not written and the reply's block is freed. *)
Theorem lookup_rejects_short_record name gid r w pr e0 :
  is_success (rp_status r) = true ->
  reply_count (rp_bytes r) = 1 ->
  8 <= Z.of_nat (length (rp_bytes r)) < 29 ->
  _nss_sss_getgrnam_r name r w pr e0
    = Done (NSS_STATUS_TRYAGAIN, EBADMSG, pr, w) /\
  _nss_sss_getgrgid_r gid r w pr e0
    = Done (NSS_STATUS_TRYAGAIN, EBADMSG, pr, w).
Proof. intros Hs Hc Hlen. split; by apply lookup_short_record. Qed.

Lemma lookup_rejects_short_record_witness :
  let r := reply_of 1 (encode (Wire 10 wheel x_passwd [])) in
  _nss_sss_getgrnam_r wheel r idle (caller 64) 0
    = Done (NSS_STATUS_TRYAGAIN, EBADMSG, caller 64, idle) /\
  _nss_sss_getgrgid_r 10 r idle (caller 64) 0
    = Done (NSS_STATUS_TRYAGAIN, EBADMSG, caller 64, idle).
Proof.
  cbv zeta.
  apply (lookup_rejects_short_record wheel 10
           (reply_of 1 (encode (Wire 10 wheel x_passwd []))) idle (caller 64) 0).
  - reflexivity.
  - vm_compute. reflexivity.
  - vm_compute. split; [discriminate | reflexivity].
Defined.

(** X13.  Lines 267-268 and 315-316.  The length of the reply is not
    compared with the 8 bytes of its header: for a reply of 4 to 7 bytes
    that counts one result, [replen - 8] wraps around, passes the floor of
    line 84 and the decoder reads the gid behind the end of the reply. *)
Theorem lookup_reply_without_header name gid r w pr e0 :
  is_success (rp_status r) = true ->
  reply_count (rp_bytes r) = 1 ->
  4 <= Z.of_nat (length (rp_bytes r)) < 8 ->
  _nss_sss_getgrnam_r name r w pr e0 = Crash (OobSource 0) /\
  _nss_sss_getgrgid_r gid r w pr e0 = Crash (OobSource 0).
Proof. intros Hs Hc Hlen. split; by apply lookup_headerless. Qed.

Lemma lookup_reply_without_header_witness :
  let r := Reply NSS_STATUS_SUCCESS 0 (le_encode 4 1) in
  _nss_sss_getgrnam_r wheel r idle (caller 64) 0 = Crash (OobSource 0) /\
  _nss_sss_getgrgid_r 10 r idle (caller 64) 0 = Crash (OobSource 0).
Proof.
  cbv zeta.
  apply (lookup_reply_without_header wheel 10
           (Reply NSS_STATUS_SUCCESS 0 (le_encode 4 1)) idle (caller 64) 0).
  - reflexivity.
  - vm_compute. reflexivity.
  - vm_compute. split; [discriminate | reflexivity].
Defined.

(** X14.  Lines 250-259 and 298-307.  When the request fails its status
    and error number are returned as they come, and when the reply counts
    no result the lookup returns NOTFOUND with the channel's error number;
    in both cases the caller's result and arena and the process state are
    as they were at the call. *)
Theorem lookup_nothing_found name gid r w pr e0 :
  is_success (rp_status r) = false \/
  (4 <= Z.of_nat (length (rp_bytes r)) /\ reply_count (rp_bytes r) = 0) ->
  let s := if is_success (rp_status r) then NSS_STATUS_NOTFOUND
           else rp_status r in
  _nss_sss_getgrnam_r name r w pr e0 = Done (s, rp_errno r, pr, w) /\
  _nss_sss_getgrgid_r gid r w pr e0 = Done (s, rp_errno r, pr, w).
Proof.
  intros H s. unfold _nss_sss_getgrnam_r, _nss_sss_getgrgid_r, s.
  destruct (is_success (rp_status r)) eqn:Hs.
  - destruct H as [H|[Hlen Hc]]; [done|].
    by rewrite lookup_not_found.
  - by rewrite lookup_failed_request.
Qed.

Lemma lookup_nothing_found_witness :
  _nss_sss_getgrnam_r wheel (reply_of 0 []) idle (caller 64) 0
    = Done (NSS_STATUS_NOTFOUND, 0, caller 64, idle) /\
  _nss_sss_getgrgid_r 10 (reply_of 0 []) idle (caller 64) 0
    = Done (NSS_STATUS_NOTFOUND, 0, caller 64, idle).
Proof.
  apply (lookup_nothing_found wheel 10 (reply_of 0 []) idle (caller 64) 0).
  right. vm_compute. split; [discriminate | reflexivity].
Defined.

(** ** The enumeration *)

(** X15.  Lines 38-46.  [sss_nss_getgrent_data_clean] frees the batch the
    cursor holds, if any, and resets the cursor; nothing else of the heap
    changes, [errno] is kept, and a second call changes nothing. *)
Theorem data_clean_releases h0 w :
  holds_only h0 w ->
  let w1 := World h0 (Cursor 0 0 None) (errno w) in
  sss_nss_getgrent_data_clean w = Done w1 /\
  sss_nss_getgrent_data_clean w1 = Done w1.
Proof.
  intros Hh w1. split.
  - by apply clean_holds_only.
  - exact (clean_holds_only h0 w1 (holds_only_closed h0 (errno w))).
Qed.

Lemma data_clean_releases_witness :
  let w := World (<[0%nat := rp_bytes (reply_of 1 wheel_bytes)]> ∅)
             (Cursor 39 8 (Some 0%nat)) 0 in
  sss_nss_getgrent_data_clean w = Done idle /\
  sss_nss_getgrent_data_clean idle = Done idle.
Proof.
  cbv zeta.
  apply (data_clean_releases ∅
           (World (<[0%nat := rp_bytes (reply_of 1 wheel_bytes)]> ∅)
              (Cursor 39 8 (Some 0%nat)) 0)).
  split; [reflexivity | eexists; reflexivity].
Defined.

(** X16.  Lines 326-342 and 408-424.  [_nss_sss_setgrent] and
    [_nss_sss_endgrent] release the batch before they notify the daemon,
    so the cursor is closed and the batch freed whether the notification
    succeeds or not; they return the status of the notification and set
    [errno] only when it failed. *)
Theorem setgrent_endgrent_release h0 r w :
  holds_only h0 w ->
  let w1 := World h0 (Cursor 0 0 None)
              (if is_success (rp_status r) then errno w else rp_errno r) in
  _nss_sss_setgrent r w = Done (rp_status r, w1) /\
  _nss_sss_endgrent r w = Done (rp_status r, w1).
Proof.
  intros Hh w1. split.
  - by apply setgrent_holds_only.
  - by apply endgrent_holds_only.
Qed.

Lemma setgrent_endgrent_release_witness :
  let w := World (<[0%nat := rp_bytes (reply_of 1 wheel_bytes)]> ∅)
             (Cursor 39 8 (Some 0%nat)) 0 in
  let r := Reply NSS_STATUS_UNAVAIL 111 [] in
  _nss_sss_setgrent r w
    = Done (NSS_STATUS_UNAVAIL, World ∅ (Cursor 0 0 None) 111) /\
  _nss_sss_endgrent r w
    = Done (NSS_STATUS_UNAVAIL, World ∅ (Cursor 0 0 None) 111).
Proof.
  cbv zeta.
  apply (setgrent_endgrent_release ∅ (Reply NSS_STATUS_UNAVAIL 111 [])
           (World (<[0%nat := rp_bytes (reply_of 1 wheel_bytes)]> ∅)
              (Cursor 39 8 (Some 0%nat)) 0)).
  split; [reflexivity | eexists; reflexivity].
Defined.

(** X17.  Lines 344-406.  Whatever the replies of the daemon, a call of
    [_nss_sss_getgrent_r] that returns leaves the heap as it was apart
    from the one block the cursor holds: every batch it replaced or found
    empty is freed, and [errno] is not written. *)
Theorem getgrent_owns_one_block h0 chan w pr e0 s e pr' w' :
  holds_only h0 w ->
  _nss_sss_getgrent_r chan w pr e0 = Done (s, e, pr', w') ->
  holds_only h0 w' /\ errno w' = errno w.
Proof. apply getgrent_r_holds_only. Qed.

Lemma getgrent_owns_one_block_witness :
  let w := World (<[0%nat := rp_bytes (reply_of 1 wheel_bytes)]> ∅)
             (Cursor 39 39 (Some 0%nat)) 0 in
  exists pr' w',
    _nss_sss_getgrent_r [reply_of 1 wheel_bytes] w (caller 64) 0
    = Done (NSS_STATUS_SUCCESS, 0, pr', w') /\
    holds_only ∅ w' /\ errno w' = errno w.
Proof.
  cbv zeta. eexists _, _. split; [vm_compute; reflexivity|].
  eapply (getgrent_owns_one_block ∅ [reply_of 1 wheel_bytes]
            (World (<[0%nat := rp_bytes (reply_of 1 wheel_bytes)]> ∅)
               (Cursor 39 39 (Some 0%nat)) 0) (caller 64) 0).
  - split; [reflexivity | eexists; reflexivity].
  - vm_compute. reflexivity.
Defined.



(** X19.  Lines 344-378, called once per record.  When the rest of the
    batch is a sequence of well-formed records of at least 21 bytes each
    that fit the caller's arena, as many calls as there are records return
    them in the order of the batch, each with SUCCESS, without asking the
    daemon, and leave the offset behind the last of them. *)
Theorem getgrent_drains_batch blk b rest recs pre w pr e0 :
  data (sss_nss_getgrent_data w) = Some blk ->
  heap w !! blk = Some b ->
  b = pre ++ concat (encode <$> recs) ++ rest ->
  ptr (sss_nss_getgrent_data w) = Z.of_nat (length pre) ->
  len (sss_nss_getgrent_data w) = Z.of_nat (length b) ->
  Z.of_nat (length b) < 2 ^ 64 ->
  Forall (fun rec => well_formed rec /\
            Z.of_nat (length (w_members rec)) + 1 < 2 ^ 32 /\
            21 <= Z.of_nat (length (encode rec)) /\
            arena_need rec <= buflen pr) recs ->
  0 < buffer pr -> buffer pr + buflen pr <= 2 ^ 64 ->
  getgrent_n (length recs) w pr e0
  = Done (Some ∘ decoded <$> recs, NSS_STATUS_SUCCESS,
          set_cursor (Cursor (Z.of_nat (length b))
                        (Z.of_nat (length pre
                                   + length (concat (encode <$> recs))))
                        (Some blk)) w).
Proof.
  intros Hdata Hblk Hb Hptr Hlen Hlt Hrecs Hbase Htop.
  by apply (getgrent_n_records blk b rest (buffer pr) (buflen pr)).
Qed.

Lemma getgrent_drains_batch_witness :
  let b := rp_bytes (reply_of 2 (wheel_bytes ++ wheel_bytes)) in
  let w := World (<[0%nat := b]> ∅) (Cursor 70 8 (Some 0%nat)) 0 in
  getgrent_n 2 w (caller 64) 0
  = Done ([Some (decoded wheel_group); Some (decoded wheel_group)],
          NSS_STATUS_SUCCESS,
          set_cursor (Cursor 70 70 (Some 0%nat)) w).
Proof.
  cbv zeta.
  apply (getgrent_drains_batch 0%nat
           (rp_bytes (reply_of 2 (wheel_bytes ++ wheel_bytes))) []
           [wheel_group; wheel_group]
           (take 8 (rp_bytes (reply_of 2 (wheel_bytes ++ wheel_bytes))))
           (World (<[0%nat := rp_bytes (reply_of 2 (wheel_bytes ++ wheel_bytes))]> ∅)
              (Cursor 70 8 (Some 0%nat)) 0)
           (caller 64) 0).
  - reflexivity.
  - vm_compute. reflexivity.
  - vm_compute. reflexivity.
  - vm_compute. reflexivity.
  - vm_compute. reflexivity.
  - vm_compute. reflexivity.
  - repeat constructor;
      first [ apply (bool_decide_unpack _); vm_compute; reflexivity
            | vm_compute; reflexivity
            | vm_compute; discriminate ].
  - vm_compute. reflexivity.
  - vm_compute. discriminate.
Defined.

(** X20.  Lines 380-405.  With no record left in the cursor, the call
    frees the old batch, asks the daemon for the next one, stores it with
    the offset behind the 8-byte header and returns its first record.  The
    result count of the reply is only compared with zero: how many records
    the batch holds is not looked at. *)
Theorem getgrent_fetches_batch h0 r chan w pr e0 count rec more :
  has_leftovers (sss_nss_getgrent_data w) = None -> holds_only h0 w ->
  is_success (rp_status r) = true ->
  rp_bytes r = batch_bytes count (rec :: more) ->
  0 < count < 2 ^ 32 ->
  Z.of_nat (length (rp_bytes r)) < 2 ^ 64 ->
  well_formed rec ->
  Z.of_nat (length (w_members rec)) + 1 < 2 ^ 32 ->
  21 <= Z.of_nat (length (encode rec ++ concat (encode <$> more))) ->
  arena_need rec <= buflen pr ->
  0 < buffer pr -> buffer pr + buflen pr <= 2 ^ 64 ->
  exists blk pr',
    h0 !! blk = None /\
    _nss_sss_getgrent_r (r :: chan) w pr e0
    = Done (NSS_STATUS_SUCCESS, rp_errno r, pr',
            World (<[blk := rp_bytes r]> h0)
                  (Cursor (Z.of_nat (length (rp_bytes r)))
                          (8 + Z.of_nat (length (encode rec))) (Some blk))
                  (errno w)) /\
    read_group pr' = Some (decoded rec).
Proof.
  intros Hleft Hh Hs Hb Hcount Hlen Hwf Hcnt Hfloor Hneed Hbase Htop.
  assert (Z.of_nat (length (rp_bytes r))
          = 8 + Z.of_nat (length (encode rec ++ concat (encode <$> more)))) as Hl.
  { rewrite Hb. unfold batch_bytes. cbn [fmap list_fmap concat].
    rewrite !length_app, !length_le_encode. rewrite <- length_app. lia. }
  assert (reply_count (rp_bytes r) = count) as Hc.
  { unfold reply_count. rewrite Hb. unfold batch_bytes.
    rewrite take_app_length' by by rewrite length_le_encode.
    by rewrite le_decode_encode_4 by lia. }
  destruct (getgrent_fetched h0 r chan w pr e0 Hleft Hh Hs ltac:(lia))
    as (blk & Hfresh & ->).
  rewrite Hc. destruct (Z.eqb_spec count 0); [lia|].
  rewrite wrap64_small by lia.
  destruct (Z.eqb_spec (Z.of_nat (length (rp_bytes r)) - 8) 0); [lia|].
  cbn [orb].
  destruct (getgrent_next chan
              (World (<[blk := rp_bytes r]> h0)
                 (Cursor (Z.of_nat (length (rp_bytes r))) 8 (Some blk))
                 (errno w))
              pr (rp_errno r) blk (rp_bytes r)
              (le_encode 4 count ++ le_encode 4 0) rec
              (concat (encode <$> more)))
    as (pr' & -> & Hg & _);
    [ done
    | cbn [heap]; apply lookup_insert_eq
    | rewrite Hb; unfold batch_bytes; cbn [fmap list_fmap concat];
      by rewrite <- !app_assoc
    | cbn [sss_nss_getgrent_data ptr];
      by rewrite length_app, !length_le_encode
    | done | done | done | done | done | done | done | done | ].
  exists blk, pr'. split_and!; [done| |done].
  unfold set_cursor. cbn [heap errno].
  rewrite length_app, !length_le_encode. do 4 f_equal. lia.
Qed.

Lemma getgrent_fetches_batch_witness :
  let r := reply_of 7 (wheel_bytes ++ wheel_bytes) in
  exists blk pr',
    (∅ : gmap nat (list Z)) !! blk = None /\
    _nss_sss_getgrent_r [r] idle (caller 64) 5
    = Done (NSS_STATUS_SUCCESS, rp_errno r, pr',
            World (<[blk := rp_bytes r]> ∅)
                  (Cursor (Z.of_nat (length (rp_bytes r)))
                          (8 + Z.of_nat (length (encode wheel_group)))
                          (Some blk))
                  (errno idle)) /\
    read_group pr' = Some (decoded wheel_group).
Proof.
  cbv zeta.
  apply (getgrent_fetches_batch ∅ (reply_of 7 (wheel_bytes ++ wheel_bytes))
           [] idle (caller 64) 5 7 wheel_group [wheel_group]).
  - reflexivity.
  - reflexivity.
  - reflexivity.
  - vm_compute. reflexivity.
  - split; [reflexivity | reflexivity].
  - vm_compute. reflexivity.
  - apply (bool_decide_unpack _). vm_compute. reflexivity.
  - vm_compute. reflexivity.
  - vm_compute. discriminate.
  - vm_compute. discriminate.
  - vm_compute. reflexivity.
  - vm_compute. discriminate.
Defined.

(** X21.  Lines 380-398.  With no record left in the cursor, a request
    that fails ends the call with the channel's status and error number,
    and a reply that counts no result or consists of its header only ends
    it with NOTFOUND; in both cases the caller's result is not written, the
    old batch and the reply are freed and the cursor is closed. *)
Theorem getgrent_end_of_enumeration h0 r chan w pr e0 :
  has_leftovers (sss_nss_getgrent_data w) = None -> holds_only h0 w ->
  is_success (rp_status r) = false \/
  (4 <= Z.of_nat (length (rp_bytes r)) < 2 ^ 64 /\
   (reply_count (rp_bytes r) = 0 \/ Z.of_nat (length (rp_bytes r)) = 8)) ->
  _nss_sss_getgrent_r (r :: chan) w pr e0
  = Done (if is_success (rp_status r) then NSS_STATUS_NOTFOUND
          else rp_status r,
          rp_errno r, pr, World h0 (Cursor 0 0 None) (errno w)).
Proof.
  intros Hleft Hh H. destruct (is_success (rp_status r)) eqn:Hs.
  - destruct H as [H|[Hlen Hc]]; [done|].
    destruct (getgrent_fetched h0 r chan w pr e0 Hleft Hh Hs ltac:(lia))
      as (blk & Hfresh & ->).
    destruct Hc as [->| ->]; [done|].
    by rewrite orb_true_r.
  - by apply getgrent_fetch_failed.
Qed.

Lemma getgrent_end_of_enumeration_witness :
  let w := World (<[0%nat := rp_bytes (reply_of 1 wheel_bytes)]> ∅)
             (Cursor 39 39 (Some 0%nat)) 0 in
  _nss_sss_getgrent_r [reply_of 3 []] w (caller 64) 5
  = Done (NSS_STATUS_NOTFOUND, 0, caller 64, idle).
Proof.
  cbv zeta.
  apply (getgrent_end_of_enumeration ∅ (reply_of 3 []) []
           (World (<[0%nat := rp_bytes (reply_of 1 wheel_bytes)]> ∅)
              (Cursor 39 39 (Some 0%nat)) 0) (caller 64) 5).
  - reflexivity.
  - split; [reflexivity | eexists; reflexivity].
  - right. vm_compute. split; [split; [discriminate | reflexivity]|].
    right. reflexivity.
Defined.

(** X22.  Lines 356-372 with line 84.  When fewer than 21 bytes are left
    in the batch the call returns TRYAGAIN with EBADMSG and changes
    nothing, the cursor included: every later call finds the same bytes
    and gives the same answer, and the daemon is not asked again before
    the enumeration is closed. *)
Theorem getgrent_short_tail_stuck chan w pr e0 blk b :
  has_leftovers (sss_nss_getgrent_data w) = Some blk ->
  heap w !! blk = Some b ->
  cursor_wf (sss_nss_getgrent_data w) ->
  len (sss_nss_getgrent_data w) - ptr (sss_nss_getgrent_data w) < 21 ->
  _nss_sss_getgrent_r chan w pr e0
  = Done (NSS_STATUS_TRYAGAIN, EBADMSG, pr, w).
Proof. apply getgrent_short_tail. Qed.

Lemma getgrent_short_tail_stuck_witness :
  let b := rp_bytes (reply_of 1 (encode (Wire 10 wheel x_passwd []))) in
  let w := World (<[0%nat := b]> ∅) (Cursor 28 8 (Some 0%nat)) 0 in
  _nss_sss_getgrent_r [reply_of 1 wheel_bytes] w (caller 64) 0
  = Done (NSS_STATUS_TRYAGAIN, EBADMSG, caller 64, w).
Proof.
  cbv zeta.
  apply (getgrent_short_tail_stuck [reply_of 1 wheel_bytes] _ (caller 64) 0
           0%nat (rp_bytes (reply_of 1 (encode (Wire 10 wheel x_passwd []))))).
  - reflexivity.
  - vm_compute. reflexivity.
  - vm_compute. repeat split; (reflexivity || discriminate).
  - vm_compute. reflexivity.
Defined.

(** ** Membership expansion, [_nss_sss_initgroups_dyn] *)

(** X23.  Lines 187-228.  A call that returns without SUCCESS has changed
    neither the caller's array, size and start nor the process state (the
    reply is freed); a call that returns SUCCESS has not freed the reply:
    its block stays in the heap and nothing refers to it. *)
Theorem initgroups_state_on_return r ra w gl limit e0 s e gl' w' :
  _nss_sss_initgroups_dyn r ra w gl limit e0 = Done (s, e, gl', w') ->
  (s <> NSS_STATUS_SUCCESS -> gl' = gl /\ w' = w) /\
  (s = NSS_STATUS_SUCCESS ->
     exists blk, heap w !! blk = None /\
       w' = set_heap (<[blk := rp_bytes r]> (heap w)) w).
Proof. apply initgroups_state. Qed.

Lemma initgroups_state_on_return_witness :
  let r := reply_of 2 (gids 2) in
  let gl := GidList [1; 2; 3; 0; 0] 5 3 in
  exists gl' w',
    _nss_sss_initgroups_dyn r ReallocNull idle gl 0 0
    = Done (NSS_STATUS_SUCCESS, 0, gl', w') /\
    (NSS_STATUS_SUCCESS <> NSS_STATUS_SUCCESS -> gl' = gl /\ w' = idle) /\
    (NSS_STATUS_SUCCESS = NSS_STATUS_SUCCESS ->
       exists blk, heap idle !! blk = None /\
         w' = set_heap (<[blk := rp_bytes r]> (heap idle)) idle).
Proof.
  cbv zeta. eexists _, _. split; [vm_compute; reflexivity|].
  apply (initgroups_state_on_return (reply_of 2 (gids 2)) ReallocNull idle
           (GidList [1; 2; 3; 0; 0] 5 3) 0 0 NSS_STATUS_SUCCESS 0).
  vm_compute. reflexivity.
Defined.

(** X24.  Lines 199-228.  When the array has room for all the ids of the
    reply ([*size - *start >= num_ret]) the array is not resized and
    [limit] is not looked at: every id of the reply, narrowed to 32 bits,
    is written from index [*start] on, [*start] advances by their number
    and the cells before it keep their values. *)
Theorem initgroups_appends_when_room r ra w gl limit e0 :
  rp_status r = NSS_STATUS_SUCCESS ->
  0 < reply_count (rp_bytes r) ->
  8 + 8 * reply_count (rp_bytes r) <= Z.of_nat (length (rp_bytes r)) ->
  Z.of_nat (length (groups gl)) = size gl -> 0 <= start gl ->
  reply_count (rp_bytes r) <= size gl - start gl ->
  size gl <= long_max ->
  exists gs w',
    _nss_sss_initgroups_dyn r ra w gl limit e0
    = Done (NSS_STATUS_SUCCESS, rp_errno r,
            GidList gs (size gl) (start gl + reply_count (rp_bytes r)), w') /\
    length gs = length (groups gl) /\
    (forall j, 0 <= j < reply_count (rp_bytes r) ->
       load gs (start gl + j) = Some (wrap32 (reply_id (rp_bytes r) j))) /\
    (forall j, j < start gl -> load gs j = load (groups gl) j).
Proof. apply initgroups_room. Qed.

Lemma initgroups_appends_when_room_witness :
  let r := reply_of 2 (gids 2) in
  let gl := GidList [1; 2; 3; 0; 0] 5 3 in
  exists gs w',
    _nss_sss_initgroups_dyn r ReallocNull idle gl 4 0
    = Done (NSS_STATUS_SUCCESS, rp_errno r,
            GidList gs (size gl) (start gl + reply_count (rp_bytes r)), w') /\
    length gs = length (groups gl) /\
    (forall j, 0 <= j < reply_count (rp_bytes r) ->
       load gs (start gl + j) = Some (wrap32 (reply_id (rp_bytes r) j))) /\
    (forall j, j < start gl -> load gs j = load (groups gl) j).
Proof.
  cbv zeta.
  apply (initgroups_appends_when_room (reply_of 2 (gids 2)) ReallocNull idle
           (GidList [1; 2; 3; 0; 0] 5 3) 4 0).
  - reflexivity.
  - vm_compute. reflexivity.
  - vm_compute. discriminate.
  - vm_compute. reflexivity.
  - vm_compute. discriminate.
  - vm_compute. discriminate.
  - vm_compute. discriminate.
Defined.

(** X25.  Lines 202-228.  When the array has to grow and the new size
    [*size + num_ret] is not above a positive [limit], the array is
    resized to [*size + num_ret] cells, although [*start + num_ret] would
    do; all the ids of the reply are written from index [*start] on and
    the cells before it keep their values. *)
Theorem initgroups_grows_by_count r fill w gl limit e0 :
  rp_status r = NSS_STATUS_SUCCESS ->
  0 < reply_count (rp_bytes r) ->
  8 + 8 * reply_count (rp_bytes r) <= Z.of_nat (length (rp_bytes r)) ->
  Z.of_nat (length (groups gl)) = size gl -> 0 <= start gl <= size gl ->
  size gl - start gl < reply_count (rp_bytes r) ->
  limit <= 0 \/ size gl + reply_count (rp_bytes r) <= limit ->
  size gl + reply_count (rp_bytes r) < 2 ^ 62 ->
  exists gs w',
    _nss_sss_initgroups_dyn r (ReallocOk fill) w gl limit e0
    = Done (NSS_STATUS_SUCCESS, rp_errno r,
            GidList gs (size gl + reply_count (rp_bytes r))
                    (start gl + reply_count (rp_bytes r)), w') /\
    Z.of_nat (length gs) = size gl + reply_count (rp_bytes r) /\
    (forall j, 0 <= j < reply_count (rp_bytes r) ->
       load gs (start gl + j) = Some (wrap32 (reply_id (rp_bytes r) j))) /\
    (forall j, j < start gl -> load gs j = load (groups gl) j).
Proof. apply initgroups_grow. Qed.

Lemma initgroups_grows_by_count_witness :
  let r := reply_of 3 (gids 3) in
  let gl := GidList [1; 2; 0; 0] 4 2 in
  exists gs w',
    _nss_sss_initgroups_dyn r (ReallocOk 0) idle gl 0 0
    = Done (NSS_STATUS_SUCCESS, rp_errno r,
            GidList gs (size gl + reply_count (rp_bytes r))
                    (start gl + reply_count (rp_bytes r)), w') /\
    Z.of_nat (length gs) = size gl + reply_count (rp_bytes r) /\
    (forall j, 0 <= j < reply_count (rp_bytes r) ->
       load gs (start gl + j) = Some (wrap32 (reply_id (rp_bytes r) j))) /\
    (forall j, j < start gl -> load gs j = load (groups gl) j).
Proof.
  cbv zeta.
  apply (initgroups_grows_by_count (reply_of 3 (gids 3)) 0 idle
           (GidList [1; 2; 0; 0] 4 2) 0 0).
  - reflexivity.
  - vm_compute. reflexivity.
  - vm_compute. discriminate.
  - vm_compute. reflexivity.
  - vm_compute. split; discriminate.
  - vm_compute. reflexivity.
  - left. vm_compute. discriminate.
  - vm_compute. reflexivity.
Defined.

(** X26.  Lines 207-226.  When the new size is clamped to [limit] and
    [limit - *start] is above the number of ids the reply holds, the loop
    of line 223 runs [limit - *start] times: it copies the ids of the reply
    and then reads behind the end of the reply. *)
Theorem initgroups_reads_beyond_reply r fill w gl limit e0 :
  rp_status r = NSS_STATUS_SUCCESS ->
  0 < reply_count (rp_bytes r) ->
  8 + 8 * reply_count (rp_bytes r) <= Z.of_nat (length (rp_bytes r))
    < 8 + 8 * reply_count (rp_bytes r) + 8 ->
  Z.of_nat (length (groups gl)) = size gl -> 0 <= start gl <= size gl ->
  0 < limit < 2 ^ 62 ->
  size gl - start gl < reply_count (rp_bytes r) ->
  size gl + reply_count (rp_bytes r) > limit ->
  reply_count (rp_bytes r) < limit - start gl ->
  _nss_sss_initgroups_dyn r (ReallocOk fill) w gl limit e0
  = Crash (OobReply (8 + 8 * reply_count (rp_bytes r))).
Proof. apply initgroups_overread. Qed.

Lemma initgroups_reads_beyond_reply_witness :
  let r := reply_of 6 (gids 6) in
  _nss_sss_initgroups_dyn r (ReallocOk 0) idle (GidList [1; 2; 3; 0; 0] 5 3)
    10 0
  = Crash (OobReply (8 + 8 * reply_count (rp_bytes r))).
Proof.
  cbv zeta.
  apply (initgroups_reads_beyond_reply (reply_of 6 (gids 6)) 0 idle
           (GidList [1; 2; 3; 0; 0] 5 3) 10 0).
  - reflexivity.
  - vm_compute. reflexivity.
  - vm_compute. split; [discriminate | reflexivity].
  - vm_compute. reflexivity.
  - vm_compute. split; discriminate.
  - vm_compute. split; reflexivity.
  - vm_compute. reflexivity.
  - vm_compute. reflexivity.
  - vm_compute. reflexivity.
Defined.
